(** * Mapsy: route planning and map synchronisation

    A shallow embedding of the map client's handlers (the directions panels,
    the search panel, the map views and the page component that owns the
    state) together with the part of the JavaScript host they rely on:
    numbers are IEEE binary64 values, provider responses are JSON values, and
    the conversions the handlers trigger ([toFixed], [toString], [parseFloat],
    truthiness, property access on [any]) follow ECMAScript.

    Strings are sequences of code units below 256; the white space recognised
    by [trim] is the part of ECMAScript's white space in that range. *)

From Stdlib Require Import ZArith List Sorted String Ascii Bool Lia Floats DecimalString.
Import ListNotations.

Set Warnings "-inexact-float,-register-all".

Local Open Scope string_scope.
Local Open Scope Z_scope.

(* ================================================================== *)
(** * The host: strings, numbers and JSON values                        *)
(* ================================================================== *)

Module JS.

(** ** Strings *)

Definition is_white_space (c : ascii) : bool :=
  let n := N_of_ascii c in
  (N.eqb n 9 || N.eqb n 10 || N.eqb n 11 || N.eqb n 12 || N.eqb n 13
   || N.eqb n 32 || N.eqb n 160)%bool.

Fixpoint trim_start (s : string) : string :=
  match s with
  | EmptyString => EmptyString
  | String c s' => if is_white_space c then trim_start s' else s
  end.

Fixpoint trim_end (s : string) : string :=
  match s with
  | EmptyString => EmptyString
  | String c s' =>
      match trim_end s' with
      | EmptyString => if is_white_space c then EmptyString else String c EmptyString
      | t => String c t
      end
  end.

(** [s.trim()] *)
Definition trim (s : string) : string := trim_end (trim_start s).

(** [s.split(sep)[0]]: the part of [s] before the first [sep]. *)
Fixpoint split_first (sep : ascii) (s : string) : string :=
  match s with
  | EmptyString => EmptyString
  | String c s' => if Ascii.eqb c sep then EmptyString else String c (split_first sep s')
  end.

Fixpoint repeat_char (c : ascii) (n : nat) : string :=
  match n with
  | O => EmptyString
  | S n' => String c (repeat_char c n')
  end.

Definition zeros (n : nat) : string := repeat_char "0" n.

Fixpoint take (n : nat) (s : string) : string :=
  match n, s with
  | S n', String c s' => String c (take n' s')
  | _, _ => EmptyString
  end.

Fixpoint drop (n : nat) (s : string) : string :=
  match n, s with
  | S n', String _ s' => drop n' s'
  | _, _ => s
  end.

(** Decimal numerals of the naturals (array indices, clock readings). *)
Definition string_of_N (n : N) : string := NilEmpty.string_of_uint (N.to_uint n).
Definition string_of_nat (n : nat) : string := string_of_N (N.of_nat n).
Definition string_of_Z (z : Z) : string :=
  match z with
  | Z.neg p => "-" ++ string_of_N (N.pos p)
  | _ => string_of_N (Z.to_N z)
  end.

(** ** Numbers: IEEE binary64 *)

Definition number := float.

Definition prec : Z := 53.
Definition emax : Z := 1024.

(** [a * 10^t] against [b * 2^e], for naturals [a], [b]. *)
Definition cmp_scaled (a t b e : Z) : comparison :=
  Z.compare (a * 10 ^ Z.max t 0 * 2 ^ Z.max (- e) 0)
            (b * 2 ^ Z.max e 0 * 10 ^ Z.max (- t) 0).

Fixpoint raise_exp (fuel : nat) (m e n : Z) : Z :=
  match fuel with
  | O => n
  | S fuel' =>
      match cmp_scaled 1 n m e with
      | Gt => n
      | _ => raise_exp fuel' m e (n + 1)
      end
  end.

Fixpoint lower_exp (fuel : nat) (m e n : Z) : Z :=
  match fuel with
  | O => n
  | S fuel' =>
      match cmp_scaled 1 (n - 1) m e with
      | Gt => lower_exp fuel' m e (n - 1)
      | _ => n
      end
  end.

(** The [n] with [10^(n-1) <= m * 2^e < 10^n]. *)
Definition decimal_exponent (m e : Z) : Z :=
  let n0 := (Z.log2 m + e) * 30103 / 100000 + 1 in
  lower_exp 8 m e (raise_exp 8 m e n0).

(** One round of Number::toString's search: the [k]-digit decimals next to
    [m * 2^e] that read back as it, the closest first. Everything is counted
    in quarters of the unit in the last place, [2^(e-2)]. *)
Definition shortest_at (m e n : Z) (k : Z) : option (Z * Z) :=
  let t := n - k in
  let q := e - 2 in
  let v := 4 * m in
  let hi := v + 2 in
  let lo := if (Z.eqb m (2 ^ 52) && Z.ltb (-1074) e)%bool then v - 1 else v - 2 in
  let P := 2 ^ Z.max q 0 * 10 ^ Z.max (- t) 0 in
  let D := 2 ^ Z.max (- q) 0 * 10 ^ Z.max t 0 in
  let closed := Z.even m in
  let inside c :=
    if closed then (Z.leb (lo * P) (c * D) && Z.leb (c * D) (hi * P))%bool
    else (Z.ltb (lo * P) (c * D) && Z.ltb (c * D) (hi * P))%bool in
  let s0 := (v * P) / D in
  let s1 := s0 + 1 in
  let pick s := if Z.eqb s (10 ^ k) then Some (10 ^ (k - 1), n + 1) else Some (s, n) in
  match inside s0, inside s1 with
  | false, false => None
  | true, false => pick s0
  | false, true => pick s1
  | true, true =>
      let d0 := v * P - s0 * D in
      let d1 := s1 * D - v * P in
      if Z.ltb d0 d1 then pick s0
      else if Z.ltb d1 d0 then pick s1
      else if Z.even s0 then pick s0 else pick s1
  end.

Fixpoint shortest_from (fuel : nat) (m e n k : Z) : Z * Z :=
  match fuel with
  | O => (m, 0)
  | S fuel' =>
      match shortest_at m e n k with
      | Some r => r
      | None => shortest_from fuel' m e n (k + 1)
      end
  end.

(** The digits [s] and the exponent [n] of Number::toString for [m * 2^e]. *)
Definition shortest (m e : Z) : Z * Z :=
  shortest_from 17 m e (decimal_exponent m e) 1.

Definition format_digits (ds : string) (n : Z) : string :=
  let k := Z.of_nat (String.length ds) in
  if (Z.leb k n && Z.leb n 21)%bool then ds ++ zeros (Z.to_nat (n - k))
  else if (Z.ltb 0 n && Z.leb n 21)%bool then
    take (Z.to_nat n) ds ++ "." ++ drop (Z.to_nat n) ds
  else if (Z.ltb (-6) n && Z.leb n 0)%bool then "0." ++ zeros (Z.to_nat (- n)) ++ ds
  else
    let x := n - 1 in
    let tail := "e" ++ (if Z.ltb x 0 then "-" else "+") ++ string_of_Z (Z.abs x) in
    if Z.eqb k 1 then ds ++ tail else take 1 ds ++ "." ++ drop 1 ds ++ tail.

(** Number::toString, radix 10. *)
Definition Number_toString (x : number) : string :=
  match Prim2SF x with
  | S754_nan => "NaN"
  | S754_zero _ => "0"
  | S754_infinity s => if s then "-Infinity" else "Infinity"
  | S754_finite s m e =>
      let '(d, n) := shortest (Z.pos m) e in
      (if s then "-" else "") ++ format_digits (string_of_Z d) n
  end.

(** [x.toFixed(f)]: the decimal with [f] fraction digits nearest to [x],
    the larger one on a tie; at and above [10^21] the plain numeral. *)
Definition toFixed (f : nat) (x : number) : string :=
  match Prim2SF x with
  | S754_finite s m e =>
      match cmp_scaled 1 21 (Z.pos m) e with
      | Gt =>
          let num := Z.pos m * 2 ^ Z.max e 0 * 10 ^ Z.of_nat f in
          let den := 2 ^ Z.max (- e) 0 in
          let n := (2 * num + den) / (2 * den) in
          let ds := string_of_Z n in
          let k := String.length ds in
          let ds := if Nat.leb k f then zeros (S f - k) ++ ds else ds in
          let k := String.length ds in
          (if s then "-" else "")
          ++ (match f with
              | O => ds
              | _ => take (k - f) ds ++ "." ++ drop (k - f) ds
              end)
      | _ => Number_toString x
      end
  | S754_zero _ =>
      match f with O => "0" | _ => "0." ++ zeros f end
  | _ => Number_toString x
  end.

(** ** Reading numbers *)

Definition digit_in (radix : Z) (c : ascii) : option Z :=
  let n := Z.of_N (N_of_ascii c) in
  let d := if (Z.leb 48 n && Z.leb n 57)%bool then n - 48
           else if (Z.leb 97 n && Z.leb n 102)%bool then n - 87
           else if (Z.leb 65 n && Z.leb n 70)%bool then n - 55
           else radix in
  if Z.ltb d radix then Some d else None.

(** Decimal digits at the head of [s]: their value on top of [acc], how many
    were read on top of [cnt], and what follows them. *)
Fixpoint read_digits (acc cnt : Z) (s : string) : Z * Z * string :=
  match s with
  | EmptyString => (acc, cnt, s)
  | String c s' =>
      match digit_in 10 c with
      | Some d => read_digits (10 * acc + d) (cnt + 1) s'
      | None => (acc, cnt, s)
      end
  end.

(** A whole string of digits in [radix], at least one. *)
Fixpoint read_radix (radix acc : Z) (s : string) : option Z :=
  match s with
  | EmptyString => None
  | String c s' =>
      match digit_in radix c with
      | Some d =>
          match s' with
          | EmptyString => Some (radix * acc + d)
          | _ => read_radix radix (radix * acc + d) s'
          end
      | None => None
      end
  end.

Fixpoint starts_with (p s : string) : option string :=
  match p, s with
  | EmptyString, _ => Some s
  | String a p', String b s' => if Ascii.eqb a b then starts_with p' s' else None
  | _, _ => None
  end.

(** The binary64 value nearest to [m * 10^e10] (ties to even). *)
Definition of_decimal (neg : bool) (m e10 : Z) : number :=
  SF2Prim
    (if Z.eqb m 0 then S754_zero neg
     else if Z.leb 0 e10 then
       binary_normalize prec emax ((if neg then - m else m) * 10 ^ e10) 0 false
     else
       SFdiv prec emax (S754_finite neg (Z.to_pos m) 0)
                       (S754_finite false (Z.to_pos (10 ^ (- e10))) 0)).

Definition of_integer (m : Z) : number :=
  SF2Prim (binary_normalize prec emax m 0 false).

Definition read_sign (s : string) : bool * string :=
  match s with
  | String "+" r => (false, r)
  | String "-" r => (true, r)
  | _ => (false, s)
  end.

(** ExponentPart, when it is there and well formed; nothing is consumed
    otherwise. *)
Definition read_exponent (s : string) : Z * string :=
  match s with
  | String c s1 =>
      if (Ascii.eqb c "e" || Ascii.eqb c "E")%bool then
        let '(neg, s2) := read_sign s1 in
        let '(x, cnt, s3) := read_digits 0 0 s2 in
        if Z.eqb cnt 0 then (0, s) else ((if neg then - x else x), s3)
      else (0, s)
  | EmptyString => (0, s)
  end.

Inductive literal : Type :=
| LInfinity
| LDecimal (m e10 : Z).

(** The longest StrUnsignedDecimalLiteral at the head of [s]. *)
Definition read_unsigned (s : string) : option (literal * string) :=
  match starts_with "Infinity" s with
  | Some r => Some (LInfinity, r)
  | None =>
      let '(ip, ni, s1) := read_digits 0 0 s in
      let '(m, nf, s2) :=
        match s1 with
        | String "." r =>
            let '(m, nf, r') := read_digits ip 0 r in
            if Z.eqb (ni + nf) 0 then (ip, 0, s1) else (m, nf, r')
        | _ => (ip, 0, s1)
        end in
      if Z.eqb (ni + nf) 0 then None
      else let '(x, s3) := read_exponent s2 in Some (LDecimal m (x - nf), s3)
  end.

(** The longest StrDecimalLiteral at the head of [s]. *)
Definition read_signed (s : string) : option (number * string) :=
  let '(neg, s1) := read_sign s in
  match read_unsigned s1 with
  | Some (LInfinity, r) => Some ((if neg then neg_infinity else infinity), r)
  | Some (LDecimal m e, r) => Some (of_decimal neg m e, r)
  | None => None
  end.

(** [parseFloat] on a string. *)
Definition parseFloat_string (s : string) : number :=
  match read_signed (trim_start s) with
  | Some (x, _) => x
  | None => nan
  end.

(** StringToNumber: the whole string, trimmed, as a numeric literal. *)
Definition StringToNumber (s : string) : number :=
  let t := trim s in
  let radix_literal r digits :=
    match read_radix r 0 digits with
    | Some m => of_integer m
    | None => nan
    end in
  match t with
  | EmptyString => zero
  | String "0" (String c digits) =>
      if (Ascii.eqb c "x" || Ascii.eqb c "X")%bool then radix_literal 16 digits
      else if (Ascii.eqb c "o" || Ascii.eqb c "O")%bool then radix_literal 8 digits
      else if (Ascii.eqb c "b" || Ascii.eqb c "B")%bool then radix_literal 2 digits
      else match read_signed t with
           | Some (x, EmptyString) => x
           | _ => nan
           end
  | _ =>
      match read_signed t with
      | Some (x, EmptyString) => x
      | _ => nan
      end
  end.

(** ** Arithmetic on numbers *)

(** [Math.floor(x)] *)
Definition Math_floor (x : number) : number :=
  match Prim2SF x with
  | S754_finite s m e =>
      if Z.leb 0 e then x
      else
        let q := (if s then Z.neg m else Z.pos m) / 2 ^ (- e) in
        if Z.eqb q 0 then zero else of_integer q
  | _ => x
  end.

(** [Math.round(x)]: the integer nearest to [x], the larger one on a tie. *)
Definition Math_round (x : number) : number :=
  match Prim2SF x with
  | S754_finite s m e =>
      if Z.leb 0 e then x
      else
        let den := 2 ^ (- e) in
        let q := (2 * (if s then Z.neg m else Z.pos m) + den) / (2 * den) in
        if Z.eqb q 0 then (if s then neg_zero else zero) else of_integer q
  | _ => x
  end.

(** [n % d]: what is left of [n] after taking [d] off a whole number of
    times, with the sign of [n]. *)
Definition remainder (n d : number) : number :=
  match Prim2SF n, Prim2SF d with
  | S754_nan, _ | _, S754_nan => nan
  | S754_infinity _, _ => nan
  | _, S754_zero _ => nan
  | _, S754_infinity _ => n
  | S754_zero _, _ => n
  | S754_finite sn mn en, S754_finite _ md ed =>
      let e := Z.min en ed in
      let r := Z.modulo (Z.pos mn * 2 ^ (en - e)) (Z.pos md * 2 ^ (ed - e)) in
      if Z.eqb r 0 then (if sn then neg_zero else zero)
      else SF2Prim (binary_normalize prec emax (if sn then - r else r) e false)
  end.

(** ** Exceptions *)

Inductive error : Type :=
| TypeError
| SyntaxError
| Error (message : string).

Inductive res (A : Type) : Type :=
| Ok (a : A)
| Throw (e : error).
Arguments Ok {A} a.
Arguments Throw {A} e.

Definition bind {A B : Type} (c : res A) (k : A -> res B) : res B :=
  match c with
  | Ok a => k a
  | Throw e => Throw e
  end.

Declare Scope js_scope.
Delimit Scope js_scope with js.
Notation "x <- c ;; k" := (bind c (fun x => k))
  (at level 61, c at next level, right associativity) : js_scope.
Local Open Scope js_scope.

(** [l.map((x, index) => f index x)] with a callback that may throw. *)
Fixpoint mapi_from {A B : Type} (f : nat -> A -> res B) (i : nat) (l : list A)
  : res (list B) :=
  match l with
  | [] => Ok []
  | x :: l' =>
      y <- f i x ;;
      ys <- mapi_from f (S i) l' ;;
      Ok (y :: ys)
  end.

(** ** Values: what [JSON.parse] builds, and [undefined] *)

Inductive value : Type :=
| VUndefined
| VNull
| VBool (b : bool)
| VNumber (x : number)
| VString (s : string)
| VArray (items : list value)
| VObject (fields : list (string * value)).

(** The property [k] of an object literal; of two members with one key the
    later one stands. *)
Fixpoint lookup (k : string) (fields : list (string * value)) : option value :=
  match fields with
  | [] => None
  | (k', v) :: rest =>
      match lookup k rest with
      | Some w => Some w
      | None => if String.eqb k k' then Some v else None
      end
  end.

Definition has_key (k : string) (fields : list (string * value)) : bool :=
  match lookup k fields with
  | Some _ => true
  | None => false
  end.

Definition number_of_nat (n : nat) : number := of_integer (Z.of_nat n).

Definition string_at (i : nat) (s : string) : value :=
  match String.get i s with
  | Some c => VString (String c EmptyString)
  | None => VUndefined
  end.

(** [v.k] for the property names the handlers read. None of them is a member
    of a prototype except [length], which strings and arrays have. *)
Definition get (k : string) (v : value) : res value :=
  match v with
  | VUndefined | VNull => Throw TypeError
  | VObject fields =>
      match lookup k fields with
      | Some w => Ok w
      | None => Ok VUndefined
      end
  | VArray items =>
      if String.eqb k "length" then Ok (VNumber (number_of_nat (List.length items)))
      else Ok VUndefined
  | VString s =>
      if String.eqb k "length" then Ok (VNumber (number_of_nat (String.length s)))
      else Ok VUndefined
  | VBool _ | VNumber _ => Ok VUndefined
  end.

(** [v?.k] *)
Definition get_opt (k : string) (v : value) : res value :=
  match v with
  | VUndefined | VNull => Ok VUndefined
  | _ => get k v
  end.

(** [v[i]] *)
Definition index (i : nat) (v : value) : res value :=
  match v with
  | VUndefined | VNull => Throw TypeError
  | VArray items => Ok (nth i items VUndefined)
  | VString s => Ok (string_at i s)
  | VObject fields =>
      match lookup (string_of_nat i) fields with
      | Some w => Ok w
      | None => Ok VUndefined
      end
  | VBool _ | VNumber _ => Ok VUndefined
  end.

(** [v?.[i]] *)
Definition index_opt (i : nat) (v : value) : res value :=
  match v with
  | VUndefined | VNull => Ok VUndefined
  | _ => index i v
  end.

Definition is_nan (x : number) : bool := negb (PrimFloat.eqb x x).

(** ToBoolean *)
Definition truthy (v : value) : bool :=
  match v with
  | VUndefined | VNull => false
  | VBool b => b
  | VNumber x => negb (PrimFloat.eqb x zero || is_nan x)
  | VString s => negb (String.eqb s "")
  | VArray _ | VObject _ => true
  end.

(** [a || b] *)
Definition or_else (a b : value) : value := if truthy a then a else b.

(** [v === s] for a string literal [s] *)
Definition is_string (s : string) (v : value) : bool :=
  match v with
  | VString t => String.eqb t s
  | _ => false
  end.

(** [v.map(f)]: only arrays have the method. *)
Definition map_array {B : Type} (f : nat -> value -> res B) (v : value) : res (list B) :=
  match v with
  | VArray items => mapi_from f 0 items
  | _ => Throw TypeError
  end.

(** [v.split(',')[0]]: only strings have the method. *)
Definition split_comma_first (v : value) : res value :=
  match v with
  | VString s => Ok (VString (split_first "," s))
  | _ => Throw TypeError
  end.

(** ToString. An array is joined with commas, holes for [null]; an object
    literal prints as [[object Object]] unless a member of its own hides
    [toString], which then is no function. *)
Fixpoint ToString (v : value) : res string :=
  match v with
  | VUndefined => Ok "undefined"
  | VNull => Ok "null"
  | VBool b => Ok (if b then "true" else "false")
  | VNumber x => Ok (Number_toString x)
  | VString s => Ok s
  | VArray items =>
      (fix join (first : bool) (l : list value) : res string :=
         match l with
         | [] => Ok ""
         | x :: l' =>
             s <- match x with
                  | VUndefined | VNull => Ok ""
                  | _ => ToString x
                  end ;;
             r <- join false l' ;;
             Ok ((if first then "" else ",") ++ s ++ r)
         end) true items
  | VObject fields =>
      if has_key "toString" fields then Throw TypeError else Ok "[object Object]"
  end.

(** ToNumber *)
Definition ToNumber (v : value) : res number :=
  match v with
  | VUndefined => Ok nan
  | VNull => Ok zero
  | VBool b => Ok (if b then one else zero)
  | VNumber x => Ok x
  | VString s => Ok (StringToNumber s)
  | VArray _ | VObject _ => s <- ToString v ;; Ok (StringToNumber s)
  end.

(** [v > 0] *)
Definition gt_zero (v : value) : res bool :=
  x <- ToNumber v ;; Ok (PrimFloat.ltb zero x).

(** [parseFloat(v)] *)
Definition parseFloat (v : value) : res number :=
  s <- ToString v ;; Ok (parseFloat_string s).

(** [v?.toString()] *)
Definition toString_opt (v : value) : res value :=
  match v with
  | VUndefined | VNull => Ok VUndefined
  | _ => s <- ToString v ;; Ok (VString s)
  end.

(** [a === b]. An array or an object is equal only to itself, which the
    shape of a value does not tell; they count as different here, as two
    values parsed apart always are. *)
Definition strict_equal (a b : value) : bool :=
  match a, b with
  | VUndefined, VUndefined | VNull, VNull => true
  | VBool x, VBool y => Bool.eqb x y
  | VNumber x, VNumber y => PrimFloat.eqb x y
  | VString x, VString y => String.eqb x y
  | _, _ => false
  end.

(** [v < k] for a number [k] *)
Definition less_than (v : value) (k : number) : res bool :=
  x <- ToNumber v ;; Ok (PrimFloat.ltb x k).

(** ** Requests *)

(** What [await fetch(url)] followed by [await response.json()] comes to:
    the request is rejected, the body is no JSON text, or it parses. *)
Inductive fetched : Type :=
| Rejected
| NotJson
| Json (data : value).

Definition json_of (r : fetched) : res value :=
  match r with
  | Rejected => Throw TypeError
  | NotJson => Throw SyntaxError
  | Json data => Ok data
  end.

End JS.

Import JS.
Local Open Scope js_scope.

(* ================================================================== *)
(** * The data model ([types/maps.ts])                                  *)
(* ================================================================== *)

(** A field typed [string] or [number] in the interfaces holds a [value]
    where the handlers fill it from a provider's [any]. *)

(** [[longitude, latitude]] *)
Definition coordinates_t : Type := number * number.

(** A pair built from a provider's coordinate. *)
Definition point : Type := value * value.

Definition point_of (c : coordinates_t) : point := (VNumber (fst c), VNumber (snd c)).

Module Location.
Record t : Type := mk
  { id : value;
    name : value;
    address : value;
    coordinates : coordinates_t }.
End Location.

Module RouteStep.
Record t : Type := mk
  { id : string;
    instruction : value;
    distance : value;
    duration : value;
    coordinates : list point }.
End RouteStep.

Module Route.
Record t : Type := mk
  { id : string;
    origin : Location.t;
    destination : Location.t;
    distance : value;
    duration : value;
    steps : list RouteStep.t;
    geometry : list point }.
End Route.

Module SearchResult.
Record t : Type := mk
  { id : value;
    name : value;
    address : value;
    coordinates : coordinates_t;
    type : value }.
End SearchResult.

(** ** Provider requests and suspended handlers *)

Inductive request : Type :=
| NominatimSearch (query : string) (limit : nat)
| NominatimReverse (lat lon : number)
| MapboxReverse (lon lat : number) (token : string)
| OsrmDriving (origin destination : coordinates_t).

(** An [async] function that returns an [A]: before any request, or from
    the answer to the one it sends. *)
Inductive async (A : Type) : Type :=
| Return (a : A)
| Fetch (req : request) (k : fetched -> A).
Arguments Return {A} a.
Arguments Fetch {A} req k.

Definition fetches {A : Type} (c : async A) : option request :=
  match c with
  | Return _ => None
  | Fetch req _ => Some req
  end.

Definition resolve {A : Type} (c : async A) (r : fetched) : A :=
  match c with
  | Return a => a
  | Fetch _ k => k r
  end.

(** An [async] handler over component state [S] that calls its props [C]:
    it returns before any request, or it leaves the state [s], sends [req]
    and, when the answer arrives, updates the state of that moment and calls
    its props. *)
Inductive task (S C : Type) : Type :=
| Done (s : S)
| Await (s : S) (req : request) (k : fetched -> S -> S * list C).
Arguments Done {S C} s.
Arguments Await {S C} s req k.

Definition sent {S C : Type} (t : task S C) : option request :=
  match t with
  | Done _ => None
  | Await _ req _ => Some req
  end.

(** The handler run to its end with nothing in between. *)
Definition complete {S C : Type} (t : task S C) (r : fetched) : S * list C :=
  match t with
  | Done s => (s, [])
  | Await s _ k => k r s
  end.

(* ================================================================== *)
(** * Directions panels                                                 *)
(* ================================================================== *)

(** ** The route a routing answer describes

    The two panels that call the routing service build the route with the
    same statements (from [const routeData = data.routes[0]] to the
    [calculatedRoute] literal). *)
Module Osrm.

(** [coord => [coord[0], coord[1]]] *)
Definition to_point (coord : value) : res point :=
  a <- index 0 coord ;;
  b <- index 1 coord ;;
  Ok (a, b).

(** [x.geometry.coordinates.map(coord => [coord[0], coord[1]])] *)
Definition points_of (x : value) : res (list point) :=
  g <- get "geometry" x ;;
  cs <- get "coordinates" g ;;
  map_array (fun _ => to_point) cs.

Definition to_step (i : nat) (step : value) : res RouteStep.t :=
  maneuver <- get "maneuver" step ;;
  instruction <- get "instruction" maneuver ;;
  distance <- get "distance" step ;;
  duration <- get "duration" step ;;
  coordinates <- points_of step ;;
  Ok (RouteStep.mk ("step-" ++ string_of_nat i)
        (or_else instruction (VString ("Step " ++ string_of_nat (i + 1))))
        distance duration coordinates).

Definition to_route (origin destination : Location.t) (routeData : value)
  : res Route.t :=
  legs <- get "legs" routeData ;;
  leg <- index 0 legs ;;
  ss <- get "steps" leg ;;
  steps <- map_array to_step ss ;;
  distance <- get "distance" routeData ;;
  duration <- get "duration" routeData ;;
  geometry <- points_of routeData ;;
  Ok (Route.mk "route-1" origin destination distance duration steps geometry).

(** [data.routes && data.routes.length > 0] *)
Definition has_routes (data : value) : res bool :=
  routes <- get "routes" data ;;
  if truthy routes then (n <- get "length" routes ;; gt_zero n) else Ok false.

(** [data.routes[0]] *)
Definition first_route (data : value) : res value :=
  routes <- get "routes" data ;;
  index 0 routes.

End Osrm.

(** ** How the panels print a distance and a duration

    [formatDistance] and [formatDuration] have the same text in the three
    panels; they are called with [route.distance], [route.duration] and the
    steps' own. *)
Module DirectionsFormat.

Definition formatDistance (meters : value) : res string :=
  short <- less_than meters 1000%float ;;
  if short then (s <- ToString meters ;; Ok (s ++ " m"))
  else (x <- ToNumber meters ;; Ok (toFixed 1 (x / 1000)%float ++ " km")).

Definition formatDuration (seconds : value) : res string :=
  x <- ToNumber seconds ;;
  let minutes := Math_round (x / 60)%float in
  if PrimFloat.ltb minutes 60%float then Ok (Number_toString minutes ++ " min")
  else
    let hours := Math_floor (minutes / 60)%float in
    let remainingMinutes := remainder minutes 60%float in
    Ok (Number_toString hours ++ "h " ++ Number_toString remainingMinutes ++ "m").

End DirectionsFormat.

(** ** The panel with a built-in route (unnamed part 3) *)
Module DirectionsMock.

Record panel : Type := mk
  { originInput : string;
    destinationInput : string;
    isCalculating : bool }.

Definition setIsCalculating (b : bool) (p : panel) : panel :=
  mk (originInput p) (destinationInput p) b.

Definition mockRoute (origin destination : Location.t) : Route.t :=
  let o := Location.coordinates origin in
  let d := Location.coordinates destination in
  let o1 : point := (VNumber (fst o), VNumber (snd o + 0.005)%float) in
  let o2 : point := (VNumber (fst o + 0.01)%float, VNumber (snd o + 0.01)%float) in
  let d2 : point := (VNumber (fst d - 0.01)%float, VNumber (snd d - 0.01)%float) in
  Route.mk "route-1" origin destination (VNumber 5200%float) (VNumber 780%float)
    [ RouteStep.mk "step-1" (VString "Head north on Main Street")
        (VNumber 800%float) (VNumber 120%float) [point_of o; o1];
      RouteStep.mk "step-2" (VString "Turn right onto Broadway")
        (VNumber 1200%float) (VNumber 180%float) [o1; o2];
      RouteStep.mk "step-3" (VString "Continue straight for 2.1 miles")
        (VNumber 3200%float) (VNumber 480%float) [o2; d2] ]
    [ point_of o; o2; d2; point_of d ].

(** No request is made: the route is handed over at once. *)
Definition calculateRoute (origin destination : option Location.t) (p : panel)
  : panel * list Route.t :=
  match origin, destination with
  | Some o, Some d => (setIsCalculating false (setIsCalculating true p), [mockRoute o d])
  | _, _ => (p, [])
  end.

End DirectionsMock.

(** ** The panel that falls back to a mock route
       ([components/DirectionsPanel.tsx]) *)
Module DirectionsFallback.

Record panel : Type := mk
  { originInput : string;
    destinationInput : string;
    isCalculating : bool }.

Definition setIsCalculating (b : bool) (p : panel) : panel :=
  mk (originInput p) (destinationInput p) b.

(** The [try] block up to the call of [onRouteCalculated]. *)
Definition try_route (origin destination : Location.t) (r : fetched) : res Route.t :=
  data <- json_of r ;;
  found <- Osrm.has_routes data ;;
  if found then
    routeData <- Osrm.first_route data ;;
    Osrm.to_route origin destination routeData
  else Throw (Error "No route found").

(** The [catch] block's route. *)
Definition mockRoute (origin destination : Location.t) : Route.t :=
  let o := Location.coordinates origin in
  let d := Location.coordinates destination in
  Route.mk "route-1" origin destination (VNumber 5200%float) (VNumber 780%float)
    [ RouteStep.mk "step-1" (VString "Head towards destination")
        (VNumber 5200%float) (VNumber 780%float) [point_of o; point_of d] ]
    [ point_of o;
      (VNumber (fst o + 0.01)%float, VNumber (snd o + 0.01)%float);
      (VNumber (fst d - 0.01)%float, VNumber (snd d - 0.01)%float);
      point_of d ].

Definition calculateRoute (origin destination : option Location.t) (p : panel)
  : task panel Route.t :=
  match origin, destination with
  | Some o, Some d =>
      Await (setIsCalculating true p)
        (OsrmDriving (Location.coordinates o) (Location.coordinates d))
        (fun r p' =>
           (setIsCalculating false p',
            match try_route o d r with
            | Ok route => [route]
            | Throw _ => [mockRoute o d]
            end))
  | _, _ => Done p
  end.

End DirectionsFallback.

(** ** The panel that reports routing failures
       (second document of [types/maps.ts]) *)
Module DirectionsGuarded.

Module AutocompleteResult.
Record t : Type := mk
  { id : value;
    name : value;
    address : value;
    coordinates : coordinates_t }.
End AutocompleteResult.

(** The hooks the modelled handlers read or write; the suggestion lists and
    the highlighted step are display state besides. *)
Record panel : Type := mk
  { originInput : value;
    destinationInput : value;
    isCalculating : bool;
    actualOrigin : option Location.t;
    actualDestination : option Location.t;
    routeError : option string }.

Definition initial : panel := mk (VString "") (VString "") false None None None.

Definition setIsCalculating (b : bool) (p : panel) : panel :=
  mk (originInput p) (destinationInput p) b (actualOrigin p) (actualDestination p)
     (routeError p).

Definition setRouteError (e : option string) (p : panel) : panel :=
  mk (originInput p) (destinationInput p) (isCalculating p) (actualOrigin p)
     (actualDestination p) e.

(** The effects on the [origin] and [destination] props. *)
Definition origin_changed (origin : option Location.t) (p : panel) : panel :=
  match origin with
  | Some o =>
      mk (Location.address o) (destinationInput p) (isCalculating p) (Some o)
         (actualDestination p) (routeError p)
  | None => p
  end.

Definition destination_changed (destination : option Location.t) (p : panel) : panel :=
  match destination with
  | Some d =>
      mk (originInput p) (Location.address d) (isCalculating p) (actualOrigin p)
         (Some d) (routeError p)
  | None => p
  end.

Definition to_result (index : nat) (item : value) : res AutocompleteResult.t :=
  place_id <- get "place_id" item ;;
  id <- toString_opt place_id ;;
  display_name <- get "display_name" item ;;
  name <- split_comma_first display_name ;;
  lon <- get "lon" item ;;
  x <- parseFloat lon ;;
  lat <- get "lat" item ;;
  y <- parseFloat lat ;;
  Ok (AutocompleteResult.mk (or_else id (VString (string_of_nat index)))
        name display_name (x, y)).

Definition searchLocations (query : string) : async (list AutocompleteResult.t) :=
  if String.eqb (trim query) "" then Return []
  else
    Fetch (NominatimSearch query 5)
      (fun r =>
         match (data <- json_of r ;; map_array to_result data) with
         | Ok results => results
         | Throw _ => []
         end).

(** [handleOriginInputChange] and [handleDestinationInputChange]: the
    panel, and the suggestions they come to show. *)
Definition handleOriginInputChange (value : string) (p : panel)
  : panel * async (list AutocompleteResult.t) :=
  (mk (VString value) (destinationInput p) (isCalculating p) (actualOrigin p)
      (actualDestination p) (routeError p),
   if String.eqb (trim value) "" then Return [] else searchLocations value).

Definition handleDestinationInputChange (value : string) (p : panel)
  : panel * async (list AutocompleteResult.t) :=
  (mk (originInput p) (VString value) (isCalculating p) (actualOrigin p)
      (actualDestination p) (routeError p),
   if String.eqb (trim value) "" then Return [] else searchLocations value).

Definition handleOriginSelect (result : AutocompleteResult.t) (p : panel) : panel :=
  mk (AutocompleteResult.address result) (destinationInput p) (isCalculating p)
     (Some (Location.mk (AutocompleteResult.id result) (AutocompleteResult.name result)
              (AutocompleteResult.address result) (AutocompleteResult.coordinates result)))
     (actualDestination p) (routeError p).

Definition handleDestinationSelect (result : AutocompleteResult.t) (p : panel) : panel :=
  mk (originInput p) (AutocompleteResult.address result) (isCalculating p)
     (actualOrigin p)
     (Some (Location.mk (AutocompleteResult.id result) (AutocompleteResult.name result)
              (AutocompleteResult.address result) (AutocompleteResult.coordinates result)))
     (routeError p).

Definition no_route_message : string :=
  "No driving route available between these locations. The destinations may be in different regions or there may be no connecting roads.".

Definition unable_message : string :=
  "Unable to calculate route. Please try different locations or check if the destinations are accessible by road.".

Definition failed_message : string :=
  "Route calculation failed. Please check your internet connection and try again.".

(** How the [try] block ends when nothing is thrown. *)
Inductive outcome : Type :=
| Calculated (route : Route.t)
| Refused (message : string).

Definition try_route (origin destination : Location.t) (r : fetched) : res outcome :=
  data <- json_of r ;;
  code <- get "code" data ;;
  if is_string "NoRoute" code then Ok (Refused no_route_message)
  else
    found <- Osrm.has_routes data ;;
    if found then
      routeData <- Osrm.first_route data ;;
      route <- Osrm.to_route origin destination routeData ;;
      Ok (Calculated route)
    else Ok (Refused unable_message).

Definition calculateRoute (p : panel) : task panel Route.t :=
  match actualOrigin p, actualDestination p with
  | Some o, Some d =>
      Await (setRouteError None (setIsCalculating true p))
        (OsrmDriving (Location.coordinates o) (Location.coordinates d))
        (fun r p' =>
           match try_route o d r with
           | Ok (Calculated route) => (setIsCalculating false p', [route])
           | Ok (Refused message) =>
               (setIsCalculating false (setRouteError (Some message) p'), [])
           | Throw _ =>
               (setIsCalculating false (setRouteError (Some failed_message) p'), [])
           end)
  | _, _ => Done p
  end.

(** [handleStepClick]: the step it highlights and what it passes to
    [onStepClick]. *)
Definition handleStepClick (step : RouteStep.t) : string * list point :=
  (RouteStep.id step,
   match RouteStep.coordinates step with
   | first :: _ => [first]
   | [] => []
   end).

End DirectionsGuarded.

(* ================================================================== *)
(** * The search panel (second document of
      [components/DirectionsPanel.tsx])                                 *)
(* ================================================================== *)

Module SearchPanel.

Record panel : Type := mk
  { searchQuery : string;
    searchResults : list SearchResult.t;
    isLoading : bool;
    recentSearches : list Location.t }.

Definition initial : panel := mk "" [] false [].

Definition setSearchQuery (q : string) (p : panel) : panel :=
  mk q (searchResults p) (isLoading p) (recentSearches p).

Definition setSearchResults (rs : list SearchResult.t) (p : panel) : panel :=
  mk (searchQuery p) rs (isLoading p) (recentSearches p).

Definition setIsLoading (b : bool) (p : panel) : panel :=
  mk (searchQuery p) (searchResults p) b (recentSearches p).

Definition setRecentSearches (l : list Location.t) (p : panel) : panel :=
  mk (searchQuery p) (searchResults p) (isLoading p) l.

Definition to_result (index : nat) (item : value) : res SearchResult.t :=
  place_id <- get "place_id" item ;;
  id <- toString_opt place_id ;;
  display_name <- get "display_name" item ;;
  name <- split_comma_first display_name ;;
  lon <- get "lon" item ;;
  x <- parseFloat lon ;;
  lat <- get "lat" item ;;
  y <- parseFloat lat ;;
  type <- get "type" item ;;
  Ok (SearchResult.mk (or_else id (VString (string_of_nat index)))
        name display_name (x, y) (or_else type (VString "place"))).

(** What the [try] block passes to [setSearchResults]. *)
Definition try_results (r : fetched) : res (list SearchResult.t) :=
  data <- json_of r ;;
  map_array to_result data.

Definition searchLocations (query : string) (p : panel) : task panel Location.t :=
  if String.eqb (trim query) "" then Done (setSearchResults [] p)
  else
    Await (setIsLoading true p) (NominatimSearch query 5)
      (fun r p' =>
         (setIsLoading false
            (setSearchResults
               match try_results r with
               | Ok results => results
               | Throw _ => []
               end p'),
          [])).

(** [saveToRecent]: the list the panel keeps from then on. The text
    [JSON.stringify(updated)] that it also puts into the local storage is read
    only when a panel is mounted, and is left out here. *)
Definition saveToRecent (location : Location.t) (p : panel) : panel :=
  let updated :=
    firstn 5
      (location
       :: filter (fun r => negb (strict_equal (Location.id r) (Location.id location)))
            (recentSearches p)) in
  setRecentSearches updated p.

(** [handleLocationClick]: the panel, and what it passes to
    [onLocationSelect]. *)
Definition handleLocationClick (result : SearchResult.t) (p : panel)
  : panel * list Location.t :=
  let location :=
    Location.mk (SearchResult.id result) (SearchResult.name result)
      (SearchResult.address result) (SearchResult.coordinates result) in
  (setSearchResults [] (setSearchQuery "" (saveToRecent location p)), [location]).

Definition handleRecentClick (location : Location.t) (p : panel)
  : panel * list Location.t :=
  (p, [location]).

End SearchPanel.

(** ** The search box under the event loop

    Typing, the passing of time and the arrival of answers, one at a time.
    [handleSearchInputChange] starts a timer of 300 ms and returns a function
    that would clear it; the caller of an [onChange] handler drops what the
    handler returns, so no timer is ever cleared. *)
Module SearchLoop.

Definition continuation : Type :=
  fetched -> SearchPanel.panel -> SearchPanel.panel * list Location.t.

Record world : Type := mk
  { now : nat;
    panel : SearchPanel.panel;
    timers : list (nat * string);                  (* due time, query *)
    inflight : list (nat * string * continuation); (* request, query *)
    issued : nat;
    commits : list (nat * list SearchResult.t) }.  (* request, what it set *)

Definition initial : world := mk 0 SearchPanel.initial [] [] 0 [].

Inductive event : Type :=
| Input (query : string)
| Elapse (ms : nat)
| Answer (request : nat) (r : fetched).

Definition handleSearchInputChange (query : string) (w : world) : world :=
  mk (now w) (SearchPanel.setSearchQuery query (panel w))
     (timers w ++ [(now w + 300, query)]%nat) (inflight w) (issued w) (commits w).

(** A timer goes off: [searchLocations(query)] runs up to its request. *)
Definition fire (w : world) (timer : nat * string) : world :=
  match SearchPanel.searchLocations (snd timer) (panel w) with
  | Done p => mk (now w) p (timers w) (inflight w) (issued w) (commits w)
  | Await p _ k =>
      mk (now w) p (timers w) (inflight w ++ [(issued w, snd timer, k)])
         (S (issued w)) (commits w)
  end.

Definition elapse (ms : nat) (w : world) : world :=
  let t := (now w + ms)%nat in
  let due := filter (fun x => Nat.leb (fst x) t) (timers w) in
  let later := filter (fun x => negb (Nat.leb (fst x) t)) (timers w) in
  fold_left fire due (mk t (panel w) later (inflight w) (issued w) (commits w)).

Definition answer (request : nat) (r : fetched) (w : world) : world :=
  match find (fun x => Nat.eqb (fst (fst x)) request) (inflight w) with
  | Some (_, _, k) =>
      let p := fst (k r (panel w)) in
      mk (now w) p (timers w)
         (filter (fun x => negb (Nat.eqb (fst (fst x)) request)) (inflight w))
         (issued w) (commits w ++ [(request, SearchPanel.searchResults p)])
  | None => w
  end.

Definition step (w : world) (e : event) : world :=
  match e with
  | Input query => handleSearchInputChange query w
  | Elapse ms => elapse ms w
  | Answer request r => answer request r w
  end.

Definition run (events : list event) : world := fold_left step events initial.

End SearchLoop.

(* ================================================================== *)
(** * The page component ([pages/Index.tsx])                            *)
(* ================================================================== *)

Module Index.

Record state : Type := mk
  { selectedLocation : option Location.t;
    currentLocation : option Location.t;
    route : option Route.t;
    isDirectionsMode : bool;
    destination : option Location.t;
    zoomToCoordinates : option point }.

Definition initial : state := mk None None None false None None.

Definition handleLocationSelect (location : Location.t) (s : state) : state :=
  mk (Some location) (currentLocation s) (route s) (isDirectionsMode s)
     (match isDirectionsMode s, currentLocation s with
      | true, Some _ => Some location
      | _, _ => destination s
      end)
     (zoomToCoordinates s).

(** Each render makes [handleLocationSelect] anew, and the function reads
    the [isDirectionsMode] and the [currentLocation] of the render that made
    it. This is the function made by the render in the state [rendered],
    called when the state is [s]; [handleLocationSelect] above is the one of
    the latest render. *)
Definition handleLocationSelect_of (rendered : state) (location : Location.t) (s : state)
  : state :=
  mk (Some location) (currentLocation s) (route s) (isDirectionsMode s)
     (match isDirectionsMode rendered, currentLocation rendered with
      | true, Some _ => Some location
      | _, _ => destination s
      end)
     (zoomToCoordinates s).

Definition handleCurrentLocationFound (location : Location.t) (s : state) : state :=
  mk (selectedLocation s) (Some location) (route s) (isDirectionsMode s)
     (destination s) (zoomToCoordinates s).

Definition handleDirectionsToggle (s : state) : state :=
  mk (selectedLocation s) (currentLocation s) None (negb (isDirectionsMode s))
     None (zoomToCoordinates s).

Definition handleRouteCalculated (calculatedRoute : Route.t) (s : state) : state :=
  mk (selectedLocation s) (currentLocation s) (Some calculatedRoute)
     (isDirectionsMode s) (destination s) (zoomToCoordinates s).

Definition setZoomToCoordinates (c : option point) (s : state) : state :=
  mk (selectedLocation s) (currentLocation s) (route s) (isDirectionsMode s)
     (destination s) c.

(** [handleStepClick], and what its timer does 100 ms later. *)
Definition handleStepClick (c : point) (s : state) : state :=
  setZoomToCoordinates (Some c) s.

Definition handleStepClick_timeout (s : state) : state :=
  setZoomToCoordinates None s.

End Index.

(* ================================================================== *)
(** * Map views                                                         *)
(* ================================================================== *)

(** [`${lat.toFixed(6)}, ${lng.toFixed(6)}`] *)
Definition format_pair (lat lng : number) : string :=
  toFixed 6 lat ++ ", " ++ toFixed 6 lng.

(** ** The map widget, as far as the view drives it *)
Module Leaflet.

(** Which effect of the view put a marker on the map. *)
Inductive role : Type :=
| Selected
| Current.

Inductive layer : Type :=
| Tiles
| Marker (made_for : role) (latlng : point) (popup : value)
| Polyline (latlngs : list point).

(** Where the map looks: where [setView] put it, or wherever [fitBounds]
    puts it for the bounds of a line. *)
Inductive viewport : Type :=
| At (center : point) (zoom : number)
| Fitted (latlngs : list point).

Record map : Type := mk
  { view : viewport;
    layers : list (nat * layer);
    fresh : nat }.

Definition setView (center : point) (zoom : number) (m : map) : map :=
  mk (At center zoom) (layers m) (fresh m).

Definition fitBounds (latlngs : list point) (m : map) : map :=
  mk (Fitted latlngs) (layers m) (fresh m).

(** [layer.addTo(map)]: the map and the handle of the new layer. *)
Definition addLayer (l : layer) (m : map) : map * nat :=
  (mk (view m) (layers m ++ [(fresh m, l)]) (S (fresh m)), fresh m).

Definition removeLayer (handle : nat) (m : map) : map :=
  mk (view m) (filter (fun x => negb (Nat.eqb (fst x) handle)) (layers m)) (fresh m).

Definition is_marker (r : role) (l : layer) : bool :=
  match l, r with
  | Marker Selected _ _, Selected => true
  | Marker Current _ _, Current => true
  | _, _ => false
  end.

(** The markers an effect made that are on the map. *)
Definition markers (r : role) (m : map) : list (nat * layer) :=
  filter (fun x => is_marker r (snd x)) (layers m).

Definition is_polyline (l : layer) : bool :=
  match l with
  | Polyline _ => true
  | _ => false
  end.

Definition polylines (m : map) : list (nat * layer) :=
  filter (fun x => is_polyline (snd x)) (layers m).

End Leaflet.

Inductive toast : Type :=
| Toast (title description : string).

Inductive position_error : Type :=
| PERMISSION_DENIED
| POSITION_UNAVAILABLE
| TIMEOUT.

(** ** The view on Leaflet (unnamed part 2) *)
Module MapView.

Record refs : Type := mk
  { mapRef : option Leaflet.map;
    markersRef : list nat;
    isLoadingLocation : bool;
    mapLoaded : bool }.

Definition initial : refs := mk None [] false false.

Definition setIsLoadingLocation (b : bool) (v : refs) : refs :=
  mk (mapRef v) (markersRef v) b (mapLoaded v).

Definition on_map (f : Leaflet.map -> Leaflet.map) (v : refs) : refs :=
  match mapRef v with
  | Some m => mk (Some (f m)) (markersRef v) (isLoadingLocation v) (mapLoaded v)
  | None => v
  end.

(** [initializeMap] once the container is mounted, [imported] telling
    whether the widget's code loaded. *)
Definition initializeMap (imported : bool) (v : refs) : refs * list toast :=
  match mapRef v with
  | Some _ => (v, [])
  | None =>
      if imported then
        let m := Leaflet.mk
                   (Leaflet.At (VNumber 40.7128%float, VNumber (-74.0060)%float) 10%float)
                   [] 0 in
        (mk (Some (fst (Leaflet.addLayer Leaflet.Tiles m))) (markersRef v)
            (isLoadingLocation v) true, [])
      else (v, [Toast "Error" "Failed to initialize map."])
  end.

(** The [try] block of the click handler up to [onLocationSelect]. *)
Definition try_click (lat lng : number) (r : fetched) (clock : N) : res Location.t :=
  data <- json_of r ;;
  display_name <- get "display_name" data ;;
  first <- match display_name with
           | VUndefined | VNull => Ok VUndefined
           | _ => split_comma_first display_name
           end ;;
  Ok (Location.mk (VString (string_of_N clock))
        (or_else first (VString "Selected Location"))
        (or_else display_name (VString (format_pair lat lng)))
        (lng, lat)).

(** The click handler: what it passes to [onLocationSelect]. [clock] is what
    [Date.now()] reads when the location is built. *)
Definition on_click (lat lng : number) : async (N -> list Location.t) :=
  Fetch (NominatimReverse lat lng)
    (fun r clock =>
       match try_click lat lng r clock with
       | Ok location => [location]
       | Throw _ =>
           [Location.mk (VString (string_of_N clock)) (VString "Selected Location")
              (VString (format_pair lat lng)) (lng, lat)]
       end).

(** [getCurrentLocation] up to the call of the device. *)
Definition getCurrentLocation (supported : bool) (v : refs) : refs * list toast :=
  if supported then (setIsLoadingLocation true v, [])
  else (setIsLoadingLocation false (setIsLoadingLocation true v),
        [Toast "Error" "Geolocation is not supported by this browser."]).

Definition try_position (longitude latitude : number) (r : fetched) : res Location.t :=
  data <- json_of r ;;
  display_name <- get "display_name" data ;;
  Ok (Location.mk (VString "current-location") (VString "Current Location")
        (or_else display_name (VString (format_pair latitude longitude)))
        (longitude, latitude)).

(** The device answered with a position: what is passed to
    [onCurrentLocationFound], and the map moved there. *)
Definition on_position (longitude latitude : number) (v : refs) : task refs Location.t :=
  Await v (NominatimReverse latitude longitude)
    (fun r v' =>
       let location :=
         match try_position longitude latitude r with
         | Ok location => location
         | Throw _ =>
             Location.mk (VString "current-location") (VString "Current Location")
               (VString (format_pair latitude longitude)) (longitude, latitude)
         end in
       (setIsLoadingLocation false
          (on_map (Leaflet.setView (VNumber latitude, VNumber longitude) 15%float) v'),
        [location])).

(** The device answered with an error. *)
Definition on_position_error (code : position_error) (v : refs) : refs * list toast :=
  (setIsLoadingLocation false v,
   [Toast "Location Error"
      match code with
      | PERMISSION_DENIED => "Location access denied. Please enable location permissions."
      | POSITION_UNAVAILABLE => "Location information is unavailable."
      | TIMEOUT => "Location request timed out."
      end]).

Definition clearMarkers (v : refs) : refs :=
  mk (mapRef (fold_left (fun v' marker => on_map (Leaflet.removeLayer marker) v')
                (markersRef v) v))
     [] (isLoadingLocation v) (mapLoaded v).

(** [layer.addTo(mapRef.current)] and [markersRef.current.push(layer)] *)
Definition add_tracked (l : Leaflet.layer) (v : refs) : refs :=
  match mapRef v with
  | Some m =>
      let '(m', handle) := Leaflet.addLayer l m in
      mk (Some m') (markersRef v ++ [handle]) (isLoadingLocation v) (mapLoaded v)
  | None => v
  end.

Definition latlng_of (c : coordinates_t) : point := (VNumber (snd c), VNumber (fst c)).

(** The effects, each run after a render in which its dependency changed.
    Their bodies run in the continuation of [import('leaflet')], a module
    [initializeMap] has loaded before it set [mapRef]: nothing else runs in
    between, so each effect is one step here. *)
Definition effect_zoomToCoordinates (zoomToCoordinates : option point) (v : refs) : refs :=
  match zoomToCoordinates, mapRef v with
  | Some c, Some _ => on_map (Leaflet.setView (snd c, fst c) 18%float) v
  | _, _ => v
  end.

Definition effect_selectedLocation (selectedLocation : option Location.t) (v : refs)
  : refs :=
  match selectedLocation, mapRef v with
  | Some loc, Some _ =>
      let at_ := latlng_of (Location.coordinates loc) in
      add_tracked (Leaflet.Marker Leaflet.Selected at_ (Location.name loc))
        (on_map (Leaflet.setView at_ 15%float) (clearMarkers v))
  | _, _ => v
  end.

Definition effect_currentLocation (currentLocation : option Location.t) (v : refs)
  : refs :=
  match currentLocation, mapRef v with
  | Some loc, Some _ =>
      add_tracked
        (Leaflet.Marker Leaflet.Current (latlng_of (Location.coordinates loc))
           (VString "Current Location")) v
  | _, _ => v
  end.

Definition effect_route (route : option Route.t) (v : refs) : refs :=
  match route, mapRef v with
  | Some r, Some _ =>
      let routeCoords := map (fun coord : point => (snd coord, fst coord)) (Route.geometry r) in
      on_map (Leaflet.fitBounds routeCoords) (add_tracked (Leaflet.Polyline routeCoords) v)
  | _, _ => v
  end.

End MapView.

(** ** The first view on Leaflet (unnamed part 0)

    Its click handler and effects are those of [MapView]; the position
    callback has no second attempt. *)
Module MapView0.

Definition on_position (longitude latitude : number) (v : MapView.refs)
  : task MapView.refs Location.t :=
  Await v (NominatimReverse latitude longitude)
    (fun r v' =>
       match MapView.try_position longitude latitude r with
       | Ok location =>
           (MapView.setIsLoadingLocation false
              (MapView.on_map
                 (Leaflet.setView (VNumber latitude, VNumber longitude) 15%float) v'),
            [location])
       | Throw _ => (MapView.setIsLoadingLocation false v', [])
       end).

End MapView0.

(** ** The view on Mapbox (unnamed part 1) *)
Module MapViewMapbox.

(** [data.features && data.features.length > 0] *)
Definition has_features (data : value) : res bool :=
  features <- get "features" data ;;
  if truthy features then (n <- get "length" features ;; gt_zero n) else Ok false.

Definition try_click (lng lat : number) (r : fetched) (clock : N)
  : res (list Location.t) :=
  data <- json_of r ;;
  found <- has_features data ;;
  if found then
    features <- get "features" data ;;
    feature <- index 0 features ;;
    text <- get "text" feature ;;
    place_name <- get "place_name" feature ;;
    Ok [Location.mk (VString (string_of_N clock))
          (or_else text (VString "Selected Location"))
          (or_else place_name (VString (format_pair lat lng)))
          (lng, lat)]
  else Ok [].

Definition on_click (lng lat : number) (token : string) : async (N -> list Location.t) :=
  Fetch (MapboxReverse lng lat token)
    (fun r clock =>
       match try_click lng lat r clock with
       | Ok calls => calls
       | Throw _ => []
       end).

Definition try_position (longitude latitude : number) (r : fetched) : res Location.t :=
  data <- json_of r ;;
  features <- get "features" data ;;
  feature <- index_opt 0 features ;;
  place_name <- get_opt "place_name" feature ;;
  Ok (Location.mk (VString "current-location") (VString "Current Location")
        (or_else place_name (VString (format_pair latitude longitude)))
        (longitude, latitude)).

Definition on_position (longitude latitude : number) (token : string)
  : async (list Location.t) :=
  Fetch (MapboxReverse longitude latitude token)
    (fun r =>
       match try_position longitude latitude r with
       | Ok location => [location]
       | Throw _ => []
       end).

(** The Mapbox map, as far as the view drives it. *)
Record gl_map : Type := mkMap
  { center : coordinates_t;
    zoom : number;
    markers : list (Leaflet.role * coordinates_t) }.

(** The hooks and refs of the view. [mapContainer] tells whether the ref
    holds an element since the last render. *)
Record view : Type := mkView
  { mapboxToken : string;
    isTokenDialogOpen : bool;
    mapContainer : bool;
    mapRef : option gl_map }.

Definition initial : view := mkView "" true false None.

(** A render: while the token dialog is open the component returns the
    dialog alone, and the [div] that [mapContainer] is attached to is not part
    of the output. *)
Definition render (v : view) : view :=
  mkView (mapboxToken v) (isTokenDialogOpen v) (negb (isTokenDialogOpen v)) (mapRef v).

(** [initializeMap(token)], [imported] telling whether the widget's code
    loaded. *)
Definition initializeMap (token : string) (imported : bool) (v : view)
  : view * list toast :=
  if negb (mapContainer v) then (v, [])
  else if imported then
    (mkView (mapboxToken v) (isTokenDialogOpen v) (mapContainer v)
       (Some (mkMap ((-74.5)%float, 40%float) 9%float [])), [])
  else (v, [Toast "Error" "Failed to initialize map. Please check your Mapbox token."]).

(** [handleTokenSubmit] and the render after it. Only the input and the
    button of the token dialog call it; [initializeMap] runs inside the
    handler, with the refs of the render before. *)
Definition handleTokenSubmit (token : string) (imported : bool) (v : view)
  : view * list toast :=
  if isTokenDialogOpen v then
    let '(v', toasts) := initializeMap token imported v in
    (render (mkView token false (mapContainer v') (mapRef v')), toasts)
  else (v, []).

Definition effect_selectedLocation (selectedLocation : option Location.t) (v : view)
  : view :=
  match selectedLocation, mapRef v with
  | Some loc, Some m =>
      mkView (mapboxToken v) (isTokenDialogOpen v) (mapContainer v)
        (Some (mkMap (Location.coordinates loc) 15%float
                 (markers m ++ [(Leaflet.Selected, Location.coordinates loc)])))
  | _, _ => v
  end.

Definition effect_currentLocation (currentLocation : option Location.t) (v : view)
  : view :=
  match currentLocation, mapRef v with
  | Some loc, Some m =>
      mkView (mapboxToken v) (isTokenDialogOpen v) (mapContainer v)
        (Some (mkMap (center m) (zoom m)
                 (markers m ++ [(Leaflet.Current, Location.coordinates loc)])))
  | _, _ => v
  end.

Inductive event : Type :=
| TokenSubmit (token : string) (imported : bool)
| SelectedLocation (location : Location.t)
| CurrentLocation (location : Location.t).

Definition step (v : view) (e : event) : view :=
  match e with
  | TokenSubmit token imported => fst (handleTokenSubmit token imported v)
  | SelectedLocation location => effect_selectedLocation (Some location) v
  | CurrentLocation location => effect_currentLocation (Some location) v
  end.

Definition run (events : list event) : view := fold_left step events initial.

End MapViewMapbox.

(* ================================================================== *)
(** * The page and its map together                                    *)
(* ================================================================== *)

(** [Index] renders [MapView] with its state as props; after a handler has
    set a new object, the effect on that prop runs. The locations that the
    map's click handler, the position callback and [handleLocationClick] pass
    on, and the routes, are objects just built, so each one is a change of the
    prop; a recent search is an object the search panel keeps, and can be the
    one that is selected. *)
Module App.

Record app : Type := mk
  { page : Index.state;
    view : MapView.refs }.

Definition initial : app := mk Index.initial MapView.initial.

Definition initializeMap (imported : bool) (a : app) : app :=
  mk (page a) (fst (MapView.initializeMap imported (view a))).

(** [onLocationSelect(location)] as the search panel calls it, with the
    [handleLocationSelect] of the latest render, and the render after it.
    [held] tells whether [location] is the very object that [selectedLocation]
    holds already ([Object.is]), which it can be when a recent search is
    clicked: then the prop is the same for the effect on [selectedLocation],
    and the effect does not run. For any other object it runs. *)
Definition selectLocation (held : bool) (location : Location.t) (a : app) : app :=
  let page' := Index.handleLocationSelect location (page a) in
  mk page'
     (if held then view a
      else MapView.effect_selectedLocation (Index.selectedLocation page') (view a)).

(** [onLocationSelect(location)] as the map's click handler calls it. The
    handler is registered once, by the [initializeMap] that the effect of the
    first render calls, and [onLocationSelect] stays what it was in that
    render: the [handleLocationSelect] made in the state [Index.initial]. The
    location is an object the handler has just built, so the effect on
    [selectedLocation] runs. *)
Definition clickSelected (location : Location.t) (a : app) : app :=
  let page' := Index.handleLocationSelect_of Index.initial location (page a) in
  mk page' (MapView.effect_selectedLocation (Index.selectedLocation page') (view a)).

(** [onCurrentLocationFound(location)] and the effect on [currentLocation]. *)
Definition currentLocationFound (location : Location.t) (a : app) : app :=
  let page' := Index.handleCurrentLocationFound location (page a) in
  mk page' (MapView.effect_currentLocation (Index.currentLocation page') (view a)).

(** [onRouteCalculated(route)] and the effect on [route]. *)
Definition routeCalculated (route : Route.t) (a : app) : app :=
  let page' := Index.handleRouteCalculated route (page a) in
  mk page' (MapView.effect_route (Index.route page') (view a)).

Definition directionsToggle (a : app) : app :=
  let page' := Index.handleDirectionsToggle (page a) in
  mk page' (MapView.effect_route (Index.route page') (view a)).

Definition stepClick (c : point) (a : app) : app :=
  let page' := Index.handleStepClick c (page a) in
  mk page' (MapView.effect_zoomToCoordinates (Index.zoomToCoordinates page') (view a)).

Definition stepClick_timeout (a : app) : app :=
  let page' := Index.handleStepClick_timeout (page a) in
  mk page' (MapView.effect_zoomToCoordinates (Index.zoomToCoordinates page') (view a)).

(** A click on the map, answered by the geocoder. *)
Definition mapClick (lat lng : number) (r : fetched) (clock : N) (a : app) : app :=
  fold_left (fun a' location => clickSelected location a')
    (resolve (MapView.on_click lat lng) r clock) a.

(** "My Location", answered by the device with a position and then by the
    geocoder. *)
Definition foundCurrentLocation (longitude latitude : number) (r : fetched) (a : app)
  : app :=
  let '(v, calls) := complete (MapView.on_position longitude latitude (view a)) r in
  fold_left (fun a' location => currentLocationFound location a') calls (mk (page a) v).

(** What happens to the page. A click on a search result passes on an
    object that [handleLocationClick] has just built; a click on a recent
    search passes on the object the list holds. *)
Inductive event : Type :=
| MapReady (imported : bool)
| MapClick (lat lng : number) (r : fetched) (clock : N)
| ResultClick (location : Location.t)
| RecentClick (held : bool) (location : Location.t)
| MyLocation (longitude latitude : number) (r : fetched)
| DirectionsToggle
| RouteCalculated (route : Route.t)
| StepClick (c : point)
| StepClickTimeout.

(** The page renders the search panel only while [isDirectionsMode] is
    false: in directions mode there is no result and no recent search to
    click. *)
Definition step (a : app) (e : event) : app :=
  match e with
  | MapReady imported => initializeMap imported a
  | MapClick lat lng r clock => mapClick lat lng r clock a
  | ResultClick location =>
      if Index.isDirectionsMode (page a) then a else selectLocation false location a
  | RecentClick held location =>
      if Index.isDirectionsMode (page a) then a else selectLocation held location a
  | MyLocation longitude latitude r => foundCurrentLocation longitude latitude r a
  | DirectionsToggle => directionsToggle a
  | RouteCalculated route => routeCalculated route a
  | StepClick c => stepClick c a
  | StepClickTimeout => stepClick_timeout a
  end.

Definition run (events : list event) : app := fold_left step events initial.

(** The layers of [m] that [clearMarkers] leaves on the map when the view
    keeps [handles]. *)
Definition kept (handles : list nat) (m : Leaflet.map) : list (nat * Leaflet.layer) :=
  filter (fun x => negb (existsb (Nat.eqb (fst x)) handles)) (Leaflet.layers m).

(** Every marker and line on the map is one the view keeps in [markersRef]. *)
Definition tracked (v : MapView.refs) : Prop :=
  match MapView.mapRef v with
  | Some m =>
      forall handle l, In (handle, l) (Leaflet.layers m) -> l <> Leaflet.Tiles ->
                       In handle (MapView.markersRef v)
  | None => True
  end.


(** A click on a search result. *)
Definition resultClicked (result : SearchResult.t) (p : SearchPanel.panel) (a : app)
  : SearchPanel.panel * app :=
  let '(p', calls) := SearchPanel.handleLocationClick result p in
  (p', fold_left (fun a' location => selectLocation false location a') calls a).

End App.

(* ================================================================== *)
(** * Sample inputs                                                     *)
(* ================================================================== *)

Module Samples.

Definition here : Location.t :=
  Location.mk (VString "current-location") (VString "Current Location")
    (VString "40.700000, -74.000000") ((-74)%float, 40.7%float).

Definition there : Location.t :=
  Location.mk (VString "1700000000000") (VString "Selected Location")
    (VString "40.800000, -73.900000") ((-73.9)%float, 40.8%float).

Definition elsewhere : Location.t :=
  Location.mk (VString "1700000060000") (VString "Selected Location")
    (VString "40.750000, -73.950000") ((-73.95)%float, 40.75%float).

(** What the routing service says when no road connects the two points. *)
Definition no_route_data : value :=
  VObject [("code", VString "NoRoute");
           ("message", VString "Impossible route between points")].

Definition no_route : fetched := Json no_route_data.

Definition a_step (instruction : string) (x y : number) : value :=
  VObject [("maneuver", VObject [("instruction", VString instruction)]);
           ("distance", VNumber 7100%float);
           ("duration", VNumber 540%float);
           ("geometry", VObject [("coordinates", VArray [VArray [VNumber x; VNumber y]])])].

(** A route between the two points as the service answers it: the line
    starts and ends on the road network, not at the points asked for. *)
Definition snapped_route (steps : list value) : value :=
  VObject [("distance", VNumber 14200%float);
           ("duration", VNumber 1080%float);
           ("geometry",
            VObject [("coordinates",
                      VArray [VArray [VNumber (-74.0001)%float; VNumber 40.7002%float];
                              VArray [VNumber (-73.9003)%float; VNumber 40.7998%float]])]);
           ("legs", VArray [VObject [("steps", VArray steps)]])].

Definition a_route : fetched :=
  Json (VObject [("code", VString "Ok");
                 ("routes",
                  VArray [snapped_route
                            [a_step "Head north" (-74.0001)%float 40.7002%float;
                             a_step "Arrive" (-73.9003)%float 40.7998%float]])]).

Definition a_route_without_steps : fetched :=
  Json (VObject [("code", VString "Ok"); ("routes", VArray [snapped_route []])]).

(** The route the panels build from [a_route]. *)
Definition the_route : Route.t :=
  Eval vm_compute in
    match DirectionsFallback.try_route here there a_route with
    | Ok route => route
    | Throw _ => DirectionsFallback.mockRoute here there
    end.

(** A later position, which the geocoder names. *)
Definition named_answer : fetched :=
  Json (VObject [("display_name", VString "Times Square, Manhattan, New York")]).

Definition here_named : Location.t :=
  Location.mk (VString "current-location") (VString "Current Location")
    (VString "Times Square, Manhattan, New York") ((-73.9855)%float, 40.758%float).

Definition fallback_panel : DirectionsFallback.panel :=
  DirectionsFallback.mk "40.700000, -74.000000" "40.800000, -73.900000" false.

Definition guarded_panel : DirectionsGuarded.panel :=
  DirectionsGuarded.destination_changed (Some there)
    (DirectionsGuarded.origin_changed (Some here) DirectionsGuarded.initial).

Definition commit (calls : list Route.t) (s : Index.state) : Index.state :=
  fold_left (fun s' route => Index.handleRouteCalculated route s') calls s.

(** Two answers of the geocoder, to "Central" and to "Central Park". *)
Definition central_answer : fetched :=
  Json (VArray [VObject [("place_id", VNumber 1%float);
                         ("display_name", VString "Central, Hong Kong");
                         ("lon", VString "114.158"); ("lat", VString "22.282")]]).

Definition central_park_answer : fetched :=
  Json (VArray [VObject [("place_id", VNumber 2%float);
                         ("display_name", VString "Central Park, New York");
                         ("lon", VString "-73.9654"); ("lat", VString "40.7829");
                         ("type", VString "park")]]).

(** "Central" is typed, and 100 ms later "Central Park"; both timers go off;
    the answer to the second request arrives before the answer to the
    first. *)
Definition two_searches : list SearchLoop.event :=
  [SearchLoop.Input "Central"; SearchLoop.Elapse 100;
   SearchLoop.Input "Central Park"; SearchLoop.Elapse 300;
   SearchLoop.Answer 1 central_park_answer; SearchLoop.Answer 0 central_answer].

(** The map is up and the device has answered "My Location" once; the
    geocoder was out of reach. *)
Definition first_fix : list App.event :=
  [App.MapReady true; App.MyLocation (-74)%float 40.7%float Rejected].

Definition second_fix : App.event :=
  App.MyLocation (-73.9855)%float 40.758%float named_answer.

(** The place the directions panel suggests for "Central Park". *)
Definition park : DirectionsGuarded.AutocompleteResult.t :=
  DirectionsGuarded.AutocompleteResult.mk (VString "2") (VString "Central Park")
    (VString "Central Park, New York") ((-73.9654)%float, 40.7829%float).

(** The directions panel with the current location as its origin and the
    suggested place chosen as the destination, and the route it builds from
    [a_route]. *)
Definition chosen_panel : DirectionsGuarded.panel :=
  DirectionsGuarded.handleDestinationSelect park
    (DirectionsGuarded.origin_changed (Some here) DirectionsGuarded.initial).

Definition chosen_route : Route.t :=
  Eval vm_compute in
    hd the_route (snd (complete (DirectionsGuarded.calculateRoute chosen_panel) a_route)).

(** Directions from the current location to the chosen place, and then a
    click on the map somewhere else. *)
Definition directions_shown : list App.event :=
  first_fix ++ [App.DirectionsToggle; App.RouteCalculated chosen_route].

Definition click_elsewhere : App.event :=
  App.MapClick 40.75%float (-73.95)%float Rejected 1700000060000%N.


End Samples.

(* ================================================================== *)
(** * Notions the statements use                                        *)
(* ================================================================== *)

Module Notions.

(** The name a geocoding answer carries in [display_name]: a string that is
    not empty. An answer without one is a failed or a malformed one. *)
Definition display_name (r : fetched) : option string :=
  match r with
  | Json data =>
      match get "display_name" data with
      | Ok (VString s) => if String.eqb s "" then None else Some s
      | _ => None
      end
  | _ => None
  end.

(** A number [toFixed] prints digit by digit: a zero, or a finite number
    below [10^21]. Latitudes and longitudes are such numbers. *)
Definition plain (x : number) : bool :=
  match Prim2SF x with
  | S754_zero _ => true
  | S754_finite _ m e =>
      match cmp_scaled 1 21 (Z.pos m) e with
      | Gt => true
      | _ => false
      end
  | _ => false
  end.

(** A query that is empty or white space from end to end. *)
Fixpoint whitespace_only (q : string) : bool :=
  match q with
  | EmptyString => true
  | String c q' => (is_white_space c && whitespace_only q')%bool
  end.

(** A location that some "My Location" handler passed to
    [onCurrentLocationFound], whatever the position and the geocoder's
    answer. *)
Definition found_by_my_location (location : Location.t) : Prop :=
  exists (longitude latitude : number) (r : fetched) (v : MapView.refs) (token : string),
    In location (snd (complete (MapView.on_position longitude latitude v) r))
    \/ In location (snd (complete (MapView0.on_position longitude latitude v) r))
    \/ In location (resolve (MapViewMapbox.on_position longitude latitude token) r).

(** A whole number of seconds as hours and minutes, to the nearest minute,
    the half minute counting up. *)
Definition duration_text (seconds : N) : string :=
  let minutes := ((seconds + 30) / 60)%N in
  if N.ltb minutes 60 then string_of_N minutes ++ " min"
  else string_of_N (minutes / 60) ++ "h " ++ string_of_N (minutes mod 60) ++ "m".

(** So many tenths of a kilometre. *)
Definition km_text (tenths : N) : string :=
  string_of_N (tenths / 10) ++ "." ++ string_of_N (tenths mod 10) ++ " km".

(** A whole number as a number. *)
Definition whole (n : N) : value := VNumber (of_integer (Z.of_N n)).

(** [formatDuration] prints a whole number of seconds as [duration_text]. *)
Definition duration_agrees (seconds : N) : bool :=
  match DirectionsFormat.formatDuration (whole seconds) with
  | Ok t => String.eqb t (duration_text seconds)
  | Throw _ => false
  end.

(** A text for so many whole metres: the metres themselves below a
    kilometre, from there on tenths of a kilometre that are 50 m off at
    most. *)
Definition distance_text_ok (meters : N) (t : string) : bool :=
  if N.ltb meters 1000 then String.eqb t (string_of_N meters ++ " m")
  else
    let t0 := (meters / 100)%N in
    let close u := (N.leb (100 * u) (meters + 50) && N.leb meters (100 * u + 50))%bool in
    ((String.eqb t (km_text t0) && close t0)
     || (String.eqb t (km_text (t0 + 1)%N) && close (t0 + 1)%N))%bool.

Definition distance_agrees (meters : N) : bool :=
  match DirectionsFormat.formatDistance (whole meters) with
  | Ok t => distance_text_ok meters t
  | Throw _ => false
  end.

(** [f] holds of the [count] numbers from [first] on. *)
Fixpoint holds_from (f : N -> bool) (count : nat) (first : N) : bool :=
  match count with
  | O => true
  | S count' => (f first && holds_from f count' (N.succ first))%bool
  end.

Definition has_string_id (location : Location.t) : Prop :=
  exists s, Location.id location = VString s.

(** A list of recent searches as the search panel keeps it: five at most,
    ids that are strings, no id twice. *)
Definition recents_ok (l : list Location.t) : Prop :=
  (List.length l <= 5)%nat
  /\ (forall r, In r l -> has_string_id r)
  /\ NoDup (map Location.id l).


Definition is_tiles (l : Leaflet.layer) : bool :=
  match l with
  | Leaflet.Tiles => true
  | _ => false
  end.

(** The view has no map and tracks nothing, or it has one whose only tile
    layer is the first layer made, which it does not track. *)
Definition one_base_map (v : MapView.refs) : Prop :=
  match MapView.mapRef v with
  | Some m =>
      filter (fun x => is_tiles (snd x)) (Leaflet.layers m) = [(0%nat, Leaflet.Tiles)]
      /\ (1 <= Leaflet.fresh m)%nat
      /\ (forall handle, In handle (MapView.markersRef v) -> (1 <= handle)%nat)
      /\ MapView.mapLoaded v = true
  | None => MapView.markersRef v = [] /\ MapView.mapLoaded v = false
  end.

(** Keystrokes in the search box, each with the milliseconds since the one
    before: the events they make. *)
Definition keystrokes (keys : list (nat * string)) : list SearchLoop.event :=
  flat_map (fun k => [SearchLoop.Elapse (fst k); SearchLoop.Input (snd k)]) keys.

(** The queries of the requests that are under way, oldest first. *)
Definition asked (w : SearchLoop.world) : list string :=
  map (fun x => snd (fst x)) (SearchLoop.inflight w).

(** The timers are in the order they go off, none later than 300 ms from
    now, and none holds a blank query. *)
Definition timers_ok (w : SearchLoop.world) : Prop :=
  StronglySorted (fun x y : nat * string => (fst x <= fst y)%nat) (SearchLoop.timers w)
  /\ Forall (fun x : nat * string =>
               (fst x <= SearchLoop.now w + 300)%nat /\ whitespace_only (snd x) = false)
       (SearchLoop.timers w).

(** The sum of numbers as [+] adds them, from the left. *)
Definition sum_of (vs : list value) : res number :=
  fold_left (fun acc v => a <- acc ;; x <- ToNumber v ;; Ok (a + x)%float) vs (Ok zero).

(** Each step of the list starts where the one before it ends. *)
Fixpoint chained (steps : list RouteStep.t) : Prop :=
  match steps with
  | s :: ((s' :: _) as rest) =>
      last (RouteStep.coordinates s) (VUndefined, VUndefined)
      = hd (VUndefined, VUndefined) (RouteStep.coordinates s')
      /\ chained rest
  | _ => True
  end.

(** A search result as the directions panel's suggestions have it. *)
Definition without_type (r : SearchResult.t) : DirectionsGuarded.AutocompleteResult.t :=
  DirectionsGuarded.AutocompleteResult.mk (SearchResult.id r) (SearchResult.name r)
    (SearchResult.address r) (SearchResult.coordinates r).

End Notions.

Arguments format_pair : simpl never.
Arguments string_of_N : simpl never.

(* ================================================================== *)
(** * Properties of the directions panels                               *)
(* ================================================================== *)

(** Two numbers with different bit patterns are different values. *)
Lemma VNumber_neq (x y : number) : Prim2SF x <> Prim2SF y -> VNumber x <> VNumber y.
Proof.
  intros H E. apply H.
  assert (x = y) as ->
      by exact (f_equal (fun v => match v with VNumber a => a | _ => x end) E).
  reflexivity.
Qed.

Lemma point_neq (p q : point) : fst p <> fst q -> p <> q.
Proof. intros H E. apply H. now rewrite E. Qed.

Lemma Some_neq {A : Type} (a b : A) : a <> b -> Some a <> Some b.
Proof. intros H E. apply H. now injection E. Qed.

(** Closes [VNumber x <> VNumber y] for two given numbers. *)
Ltac numbers_differ :=
  apply VNumber_neq; vm_compute; discriminate.

Lemma mapi_from_length {A B : Type} (f : nat -> A -> res B) (l : list A) :
  forall i ys, mapi_from f i l = Ok ys -> List.length ys = List.length l.
Proof.
  induction l as [|x l IH]; intros i ys H; simpl in H.
  - now inversion H.
  - destruct (f i x) as [y|e]; simpl in H; [|discriminate].
    destruct (mapi_from f (S i) l) as [ys'|e] eqn:E; simpl in H; [|discriminate].
    inversion H; subst. simpl. f_equal. eapply IH. eassumption.
Qed.

Lemma to_step_id (i : nat) (step : value) (s : RouteStep.t) :
  Osrm.to_step i step = Ok s -> RouteStep.id s = "step-" ++ string_of_nat i.
Proof.
  unfold Osrm.to_step. intros H.
  destruct (get "maneuver" step) as [m|]; simpl in H; [|discriminate].
  destruct (get "instruction" m) as [ins|]; simpl in H; [|discriminate].
  destruct (get "distance" step) as [di|]; simpl in H; [|discriminate].
  destruct (get "duration" step) as [du|]; simpl in H; [|discriminate].
  destruct (Osrm.points_of step) as [ps|]; simpl in H; [|discriminate].
  now inversion H.
Qed.


Lemma steps_numbered (l : list value) :
  forall i steps,
    mapi_from Osrm.to_step i l = Ok steps ->
    map RouteStep.id steps
    = map (fun j => "step-" ++ string_of_nat j) (seq i (List.length l)).
Proof.
  induction l as [|x l IH]; intros i steps H; simpl in H.
  - now inversion H.
  - destruct (Osrm.to_step i x) as [s|e] eqn:Es; simpl in H; [|discriminate].
    destruct (mapi_from Osrm.to_step (S i) l) as [ss|e] eqn:E; simpl in H; [|discriminate].
    inversion H; subst. simpl. f_equal.
    + eapply to_step_id; eassumption.
    + now apply IH.
Qed.

(** Peels the first statement off a block that ran to its end. *)
Ltac ran H :=
  match type of H with
  | context [bind ?c _] =>
      let E := fresh "E" in
      destruct c eqn:E; cbn [bind] in H; [|discriminate]
  end.

Lemma to_route_inv (o d : Location.t) (routeData : value) (route : Route.t) :
  Osrm.to_route o d routeData = Ok route ->
  exists ss steps,
    (legs <- get "legs" routeData ;; leg <- index 0 legs ;; get "steps" leg) = Ok (VArray ss)
    /\ mapi_from Osrm.to_step 0 ss = Ok steps
    /\ route = Route.mk "route-1" o d (Route.distance route) (Route.duration route)
                 steps (Route.geometry route)
    /\ get "distance" routeData = Ok (Route.distance route)
    /\ get "duration" routeData = Ok (Route.duration route)
    /\ Osrm.points_of routeData = Ok (Route.geometry route).
Proof.
  unfold Osrm.to_route. intros H.
  do 3 ran H.
  destruct a1 as [ | | | | |ss| ]; try (cbn in H; discriminate).
  cbn [map_array] in H. do 4 ran H.
  inversion H; subst; clear H. cbn [Route.distance Route.duration Route.geometry].
  exists ss, a1. repeat split; auto.
  cbn [bind]. rewrite E0. exact E1.
Qed.

Lemma fallback_route_inv (o d : Location.t) (r : fetched) (route : Route.t) :
  DirectionsFallback.try_route o d r = Ok route ->
  exists data routeData,
    r = Json data /\ Osrm.first_route data = Ok routeData
    /\ Osrm.to_route o d routeData = Ok route.
Proof.
  unfold DirectionsFallback.try_route. intros H.
  destruct r as [| |data]; try discriminate. cbn [json_of bind] in H.
  ran H. destruct a; [|discriminate]. ran H.
  exists data, a. auto.
Qed.

Lemma guarded_route_inv (o d : Location.t) (r : fetched) (route : Route.t) :
  DirectionsGuarded.try_route o d r = Ok (DirectionsGuarded.Calculated route) ->
  exists data routeData,
    r = Json data /\ Osrm.first_route data = Ok routeData
    /\ Osrm.to_route o d routeData = Ok route.
Proof.
  unfold DirectionsGuarded.try_route. intros H.
  destruct r as [| |data]; try discriminate. cbn [json_of bind] in H.
  ran H. destruct (is_string "NoRoute" a); [discriminate|].
  ran H. destruct a0; [|discriminate]. do 2 ran H.
  inversion H; subst. exists data, a0. auto.
Qed.

(** C1, as the code has it. In the panel that tests the answer's code,
    an answer with code "NoRoute" leaves the panel with the message that no
    driving route is available and with the spinner off, calls
    [onRouteCalculated] not once, and so leaves the page's route as it was
    (null when it was null). *)
Theorem guarded_no_route_is_reported
  (p : DirectionsGuarded.panel) (o d : Location.t) (data : value) (s : Index.state) :
  DirectionsGuarded.actualOrigin p = Some o ->
  DirectionsGuarded.actualDestination p = Some d ->
  get "code" data = Ok (VString "NoRoute") ->
  let done := complete (DirectionsGuarded.calculateRoute p) (Json data) in
  DirectionsGuarded.routeError (fst done) = Some DirectionsGuarded.no_route_message
  /\ DirectionsGuarded.isCalculating (fst done) = false
  /\ snd done = []
  /\ Index.route (Samples.commit (snd done) s) = Index.route s.
Proof.
  intros Ho Hd Hc. unfold DirectionsGuarded.calculateRoute.
  rewrite Ho, Hd. cbn [complete].
  unfold DirectionsGuarded.try_route. cbn [json_of bind].
  rewrite Hc. cbn. auto.
Qed.

Lemma guarded_no_route_is_reported_witness :
  let done := complete (DirectionsGuarded.calculateRoute Samples.guarded_panel)
                Samples.no_route in
  DirectionsGuarded.routeError (fst done) = Some DirectionsGuarded.no_route_message
  /\ DirectionsGuarded.isCalculating (fst done) = false
  /\ snd done = []
  /\ Index.route (Samples.commit (snd done) Index.initial) = None.
Proof.
  exact (guarded_no_route_is_reported Samples.guarded_panel Samples.here Samples.there
           Samples.no_route_data Index.initial eq_refl eq_refl eq_refl).
Defined.

(** C1 fails on the panel that falls back: the same answer makes it hand
    its mock route to [onRouteCalculated], and the page's route is set. *)
Lemma fallback_no_route_commits_mock :
  let done := complete (DirectionsFallback.calculateRoute (Some Samples.here)
                          (Some Samples.there) Samples.fallback_panel)
                Samples.no_route in
  snd done = [DirectionsFallback.mockRoute Samples.here Samples.there]
  /\ Index.route (Samples.commit (snd done) Index.initial) <> None.
Proof.
  cbv zeta. split; [reflexivity | cbn; discriminate].
Qed.

Lemma fallback_failure_throws (o d : Location.t) (r : fetched) :
  r = Rejected \/ r = NotJson
  \/ (exists data, r = Json data /\ Osrm.has_routes data = Ok false) ->
  exists e, DirectionsFallback.try_route o d r = Throw e.
Proof.
  intros [-> | [-> | [data [-> H]]]]; unfold DirectionsFallback.try_route; cbn [json_of bind].
  - now exists TypeError.
  - now exists SyntaxError.
  - rewrite H. cbn [bind]. now exists (Error "No route found").
Qed.

(** C2, as the code has it. The panel that falls back never reports a
    failure: whatever the answer, it hands exactly one route to
    [onRouteCalculated] and turns the spinner off. When the request is
    rejected, the body is no JSON or the answer holds no routes (code
    "NoRoute" included), that route is the mock: 5200 m and 780 s whatever the
    two points, the four points origin, origin + (0.01, 0.01),
    destination - (0.01, 0.01), destination, and one step "step-1",
    "Head towards destination", from the origin to the destination. *)
Theorem fallback_never_fails
  (o d : Location.t) (p : DirectionsFallback.panel) (r : fetched) :
  let done := complete (DirectionsFallback.calculateRoute (Some o) (Some d) p) r in
  let a := Location.coordinates o in
  let b := Location.coordinates d in
  (exists route, snd done = [route])
  /\ DirectionsFallback.isCalculating (fst done) = false
  /\ (r = Rejected \/ r = NotJson
      \/ (exists data, r = Json data /\ Osrm.has_routes data = Ok false) ->
      snd done
      = [Route.mk "route-1" o d (VNumber 5200%float) (VNumber 780%float)
           [RouteStep.mk "step-1" (VString "Head towards destination")
              (VNumber 5200%float) (VNumber 780%float)
              [(VNumber (fst a), VNumber (snd a)); (VNumber (fst b), VNumber (snd b))]]
           [(VNumber (fst a), VNumber (snd a));
            (VNumber (fst a + 0.01)%float, VNumber (snd a + 0.01)%float);
            (VNumber (fst b - 0.01)%float, VNumber (snd b - 0.01)%float);
            (VNumber (fst b), VNumber (snd b))]]).
Proof.
  cbv zeta. cbn [DirectionsFallback.calculateRoute complete fst snd].
  repeat split.
  - destruct (DirectionsFallback.try_route o d r); eauto.
  - intros H. destruct (fallback_failure_throws o d r H) as [e ->]. reflexivity.
Qed.

Lemma fallback_never_fails_witness :
  snd (complete (DirectionsFallback.calculateRoute (Some Samples.here)
                   (Some Samples.there) Samples.fallback_panel) NotJson)
  = [DirectionsFallback.mockRoute Samples.here Samples.there].
Proof.
  exact (proj2 (proj2 (fallback_never_fails Samples.here Samples.there
                         Samples.fallback_panel NotJson))
           (or_intror (or_introl eq_refl))).
Defined.

(** C2 fails where it describes the route: between two coinciding points,
    where the segment is one point and every distance is zero, the route
    still is 5200 m long and its line leaves the point. *)
Lemma fallback_is_no_straight_line :
  let done := complete (DirectionsFallback.calculateRoute (Some Samples.here)
                          (Some Samples.here) Samples.fallback_panel) Rejected in
  exists route,
    snd done = [route]
    /\ Route.distance route = VNumber 5200%float
    /\ Route.distance route <> VNumber 0%float
    /\ nth 0 (Route.geometry route) (VNull, VNull)
       = point_of (Location.coordinates Samples.here)
    /\ nth 1 (Route.geometry route) (VNull, VNull)
       <> point_of (Location.coordinates Samples.here).
Proof.
  cbv zeta. eexists. split; [reflexivity|].
  cbn. repeat split.
  - numbers_differ.
  - apply point_neq. cbn. numbers_differ.
Qed.

(** C5, as the code has it. A route built from a routing answer has the
    origin and destination asked for, the answer's distance, duration and
    line as they came (the line's ends are the service's, not the two
    points), and one step per step of the answer's first leg, numbered
    step-0, step-1, ... in that order; there may be none. The two mock routes
    start at the origin's coordinates and end at the destination's, with
    steps numbered from step-1. *)
Theorem routes_as_calculated (o d : Location.t) (r : fetched) (route : Route.t) :
  DirectionsFallback.try_route o d r = Ok route
  \/ DirectionsGuarded.try_route o d r = Ok (DirectionsGuarded.Calculated route) ->
  (exists data routeData ss,
     r = Json data
     /\ Osrm.first_route data = Ok routeData
     /\ (legs <- get "legs" routeData ;; leg <- index 0 legs ;; get "steps" leg)
        = Ok (VArray ss)
     /\ List.length (Route.steps route) = List.length ss
     /\ map RouteStep.id (Route.steps route)
        = map (fun j => "step-" ++ string_of_nat j) (seq 0 (List.length ss))
     /\ Osrm.points_of routeData = Ok (Route.geometry route)
     /\ get "distance" routeData = Ok (Route.distance route)
     /\ get "duration" routeData = Ok (Route.duration route)
     /\ Route.origin route = o /\ Route.destination route = d)
  /\ (forall mock,
        mock = DirectionsMock.mockRoute o d \/ mock = DirectionsFallback.mockRoute o d ->
        hd_error (Route.geometry mock) = Some (point_of (Location.coordinates o))
        /\ last (Route.geometry mock) (VNull, VNull) = point_of (Location.coordinates d)
        /\ hd_error (map RouteStep.id (Route.steps mock)) = Some "step-1").
Proof.
  intros H. split.
  - assert (exists data routeData,
              r = Json data /\ Osrm.first_route data = Ok routeData
              /\ Osrm.to_route o d routeData = Ok route) as (data & routeData & -> & Hf & Ht).
    { destruct H as [H|H]; [eapply fallback_route_inv | eapply guarded_route_inv]; eauto. }
    destruct (to_route_inv _ _ _ _ Ht) as (ss & steps & Hs & Hm & Hr & Hdi & Hdu & Hg).
    exists data, routeData, ss.
    assert (Route.steps route = steps) as -> by (rewrite Hr; reflexivity).
    repeat split; auto.
    + eapply mapi_from_length; eauto.
    + now apply steps_numbered.
    + rewrite Hr; reflexivity.
    + rewrite Hr; reflexivity.
  - intros mock [-> | ->]; repeat split.
Qed.

Lemma routes_as_calculated_witness :
  exists data routeData ss,
    Samples.a_route = Json data
    /\ Osrm.first_route data = Ok routeData
    /\ (legs <- get "legs" routeData ;; leg <- index 0 legs ;; get "steps" leg)
       = Ok (VArray ss)
    /\ List.length (Route.steps Samples.the_route) = List.length ss
    /\ map RouteStep.id (Route.steps Samples.the_route)
       = map (fun j => "step-" ++ string_of_nat j) (seq 0 (List.length ss))
    /\ Osrm.points_of routeData = Ok (Route.geometry Samples.the_route)
    /\ get "distance" routeData = Ok (Route.distance Samples.the_route)
    /\ get "duration" routeData = Ok (Route.duration Samples.the_route)
    /\ Route.origin Samples.the_route = Samples.here
    /\ Route.destination Samples.the_route = Samples.there.
Proof.
  exact (proj1 (routes_as_calculated Samples.here Samples.there Samples.a_route
                  Samples.the_route (or_intror eq_refl))).
Defined.

(** C5 fails on its three parts: the line of a route from the service starts
    where the service put it, not at the origin's coordinates; an answer
    whose leg has no steps gives a route without steps; and the built-in
    route numbers its steps from step-1. *)
Lemma route_ends_and_steps_differ :
  (exists route,
     DirectionsGuarded.try_route Samples.here Samples.there Samples.a_route
     = Ok (DirectionsGuarded.Calculated route)
     /\ hd_error (Route.geometry route)
        <> Some (point_of (Location.coordinates Samples.here))
     /\ last (Route.geometry route) (VNull, VNull)
        <> point_of (Location.coordinates Samples.there))
  /\ (exists route,
        DirectionsGuarded.try_route Samples.here Samples.there
          Samples.a_route_without_steps
        = Ok (DirectionsGuarded.Calculated route)
        /\ Route.steps route = [])
  /\ map RouteStep.id
       (Route.steps (DirectionsMock.mockRoute Samples.here Samples.there))
     = ["step-1"; "step-2"; "step-3"].
Proof.
  split; [|split].
  - eexists. split; [reflexivity|]. cbn. split.
    + apply Some_neq, point_neq. cbn. numbers_differ.
    + apply point_neq. cbn. numbers_differ.
  - eexists. split; reflexivity.
  - reflexivity.
Qed.

(* ================================================================== *)
(** * Properties of the lookups                                         *)
(* ================================================================== *)

Lemma whitespace_only_trim (q : string) :
  Notions.whitespace_only q = true -> trim q = "".
Proof.
  unfold trim. induction q as [|c q IH]; cbn; [reflexivity|].
  intros H. apply andb_prop in H as [Hc Hq]. rewrite Hc. auto.
Qed.

Lemma trim_end_keeps (c : ascii) (q : string) :
  is_white_space c = false -> trim_end (String c q) <> "".
Proof.
  intros Hc. cbn. destruct (trim_end q); [rewrite Hc|]; discriminate.
Qed.

Lemma trim_whitespace_only (q : string) :
  trim q = "" -> Notions.whitespace_only q = true.
Proof.
  unfold trim. induction q as [|c q IH]; [reflexivity|].
  cbn [trim_start Notions.whitespace_only].
  destruct (is_white_space c) eqn:Hc; cbn [andb]; [exact IH|].
  intros H. now apply trim_end_keeps in H.
Qed.

(** C7. A query that is empty or all white space sends no request: the
    search panel sets its results to the empty list and returns, and the
    directions panel's search returns the empty list. *)
Theorem blank_query_searches_nothing (q : string) (p : SearchPanel.panel) :
  Notions.whitespace_only q = true ->
  SearchPanel.searchLocations q p = Done (SearchPanel.setSearchResults [] p)
  /\ sent (SearchPanel.searchLocations q p) = None
  /\ DirectionsGuarded.searchLocations q = Return []
  /\ fetches (DirectionsGuarded.searchLocations q) = None.
Proof.
  intros H. apply whitespace_only_trim in H.
  unfold SearchPanel.searchLocations, DirectionsGuarded.searchLocations.
  rewrite H. cbn. auto.
Qed.

Lemma blank_query_searches_nothing_witness :
  SearchPanel.searchLocations "   " SearchPanel.initial
  = Done (SearchPanel.setSearchResults [] SearchPanel.initial)
  /\ sent (SearchPanel.searchLocations "   " SearchPanel.initial) = None
  /\ DirectionsGuarded.searchLocations "   " = Return []
  /\ fetches (DirectionsGuarded.searchLocations "   ") = None.
Proof.
  exact (blank_query_searches_nothing "   " SearchPanel.initial eq_refl).
Defined.

(** Any other query is sent to the geocoder, as typed, for five candidates. *)
Lemma other_query_is_sent (q : string) (p : SearchPanel.panel) :
  Notions.whitespace_only q = false ->
  sent (SearchPanel.searchLocations q p) = Some (NominatimSearch q 5)
  /\ fetches (DirectionsGuarded.searchLocations q) = Some (NominatimSearch q 5).
Proof.
  intros H.
  assert (String.eqb (trim q) "" = false) as Ht.
  { apply String.eqb_neq. intros E. apply trim_whitespace_only in E. congruence. }
  unfold SearchPanel.searchLocations, DirectionsGuarded.searchLocations.
  rewrite Ht. cbn. auto.
Qed.

(** ** Six decimals *)

Lemma string_app_assoc (a b c : string) : (a ++ b) ++ c = a ++ (b ++ c).
Proof. induction a as [|x a IH]; cbn; [reflexivity|]. now rewrite IH. Qed.

Lemma string_length_app (a b : string) :
  String.length (a ++ b) = (String.length a + String.length b)%nat.
Proof. induction a as [|x a IH]; cbn; [reflexivity|]. now rewrite IH. Qed.

Lemma length_zeros (n : nat) : String.length (zeros n) = n.
Proof. unfold zeros. induction n as [|n IH]; cbn; [reflexivity|]. now rewrite IH. Qed.

Lemma length_drop (n : nat) :
  forall s, String.length (drop n s) = (String.length s - n)%nat.
Proof.
  induction n as [|n IH]; intros [|c s]; cbn; try reflexivity. apply IH.
Qed.

(** A plain number printed by [toFixed(f)], [f] not zero, has a point and
    [f] digits after it. *)
Lemma toFixed_decimals (f : nat) (x : number) :
  Notions.plain x = true -> f <> 0%nat ->
  exists whole frac, toFixed f x = whole ++ "." ++ frac /\ String.length frac = f.
Proof.
  unfold Notions.plain, toFixed. intros Hp Hf.
  destruct (Prim2SF x) as [s|s| |s m e]; try discriminate.
  - destruct f as [|f]; [contradiction|].
    exists "0", (zeros (S f)). split; [reflexivity|apply length_zeros].
  - destruct (cmp_scaled 1 21 (Z.pos m) e); try discriminate.
    cbv zeta.
    set (ds0 := string_of_Z _).
    set (ds := if Nat.leb (String.length ds0) f then _ else ds0).
    assert (f <= String.length ds)%nat as Hk.
    { subst ds. destruct (Nat.leb (String.length ds0) f) eqn:E.
      - apply Nat.leb_le in E. rewrite string_length_app, length_zeros. lia.
      - apply Nat.leb_gt in E. lia. }
    destruct f as [|f]; [contradiction|].
    exists ((if s then "-" else "") ++ take (String.length ds - S f) ds),
      (drop (String.length ds - S f) ds).
    split; [now rewrite string_app_assoc|].
    rewrite length_drop. lia.
Qed.

(** The pair the click handler makes up: two numerals of six decimals. *)
Lemma format_pair_decimals (lat lng : number) :
  Notions.plain lat = true -> Notions.plain lng = true ->
  exists a b c d,
    format_pair lat lng = (a ++ "." ++ b) ++ ", " ++ (c ++ "." ++ d)
    /\ String.length b = 6%nat /\ String.length d = 6%nat.
Proof.
  intros Hlat Hlng. unfold format_pair.
  destruct (toFixed_decimals 6 lat Hlat) as (a & b & -> & Hb); [discriminate|].
  destruct (toFixed_decimals 6 lng Hlng) as (c & d & -> & Hd); [discriminate|].
  exists a, b, c, d. auto.
Qed.

(** C3, as the code has it. A click on the Leaflet map always passes
    exactly one location to [onLocationSelect]; its coordinates are the
    click's, its id the clock's reading. When the answer carries no display
    name (request rejected, body no JSON, [null], no or an empty or a
    non-string [display_name]) its name is "Selected Location" and its address
    the pair "lat, lng" with six decimals; otherwise the address is the
    display name and the name its part before the first comma. On the Mapbox
    map a location, when one is passed on, has the click's coordinates. *)
Theorem click_always_selects (lat lng : number) (r : fetched) (clock : N) :
  (exists location,
     resolve (MapView.on_click lat lng) r clock = [location]
     /\ Location.coordinates location = (lng, lat)
     /\ Location.id location = VString (string_of_N clock)
     /\ match Notions.display_name r with
        | None =>
            Location.name location = VString "Selected Location"
            /\ Location.address location = VString (format_pair lat lng)
        | Some s =>
            Location.name location
            = or_else (VString (split_first "," s)) (VString "Selected Location")
            /\ Location.address location = VString s
        end)
  /\ (forall token location,
        In location (resolve (MapViewMapbox.on_click lng lat token) r clock) ->
        Location.coordinates location = (lng, lat)).
Proof.
  split.
  - cbn [MapView.on_click resolve]. unfold MapView.try_click, Notions.display_name.
    destruct r as [| |data]; cbn [json_of bind].
    1, 2: eexists; repeat split.
    destruct (get "display_name" data) as [dn|e]; cbn [bind].
    2: eexists; repeat split.
    destruct dn as [| |b|x|s|items|fields]; cbn [split_comma_first bind].
    1, 2, 3, 4, 6, 7: eexists; repeat split.
    destruct (String.eqb s "") eqn:Es.
    + apply String.eqb_eq in Es. subst s. eexists; repeat split.
    + eexists. split; [reflexivity|]. cbn [Location.coordinates Location.id
        Location.name Location.address]. repeat split.
      unfold or_else at 1. cbn [truthy]. rewrite Es. reflexivity.
  - intros token location. cbn [MapViewMapbox.on_click resolve].
    unfold MapViewMapbox.try_click.
    destruct r as [| |data]; cbn [json_of bind]; try (intros HF; exact (match HF with end)).
    destruct (MapViewMapbox.has_features data) as [[|]|]; cbn [bind]; try (intros HF; exact (match HF with end)).
    destruct (get "features" data) as [fs|]; cbn [bind]; try (intros HF; exact (match HF with end)).
    destruct (index 0 fs) as [f|]; cbn [bind]; try (intros HF; exact (match HF with end)).
    destruct (get "text" f) as [t|]; cbn [bind]; try (intros HF; exact (match HF with end)).
    destruct (get "place_name" f) as [pn|]; cbn [bind]; try (intros HF; exact (match HF with end)).
    intros [<- | []]. reflexivity.
Qed.

(** The scenario of a click at (-74.0, 40.71) answered with the display name
    "123 Main St, NYC". *)
Example click_on_main_street :
  resolve (MapView.on_click 40.71%float (-74.0)%float)
    (Json (VObject [("display_name", VString "123 Main St, NYC")])) 1700000000000%N
  = [Location.mk (VString "1700000000000") (VString "123 Main St")
       (VString "123 Main St, NYC") ((-74.0)%float, 40.71%float)].
Proof. vm_compute. reflexivity. Qed.

(** C3 fails on the name and on one view: after a rejected request the
    Leaflet view names the location "Selected Location" (only the address is
    the formatted pair), and the Mapbox view passes no location on at all. *)
Lemma click_name_is_not_the_pair :
  (exists location,
     resolve (MapView.on_click 40.71%float (-74.0)%float) Rejected 1700000000000%N
     = [location]
     /\ Location.address location = VString "40.710000, -74.000000"
     /\ Location.name location = VString "Selected Location"
     /\ Location.name location <> VString (format_pair 40.71%float (-74.0)%float))
  /\ resolve (MapViewMapbox.on_click (-74.0)%float 40.71%float "pk.token") Rejected
       1700000000000%N
     = [].
Proof.
  split; [|reflexivity].
  eexists. split; [reflexivity|].
  split; [vm_compute; reflexivity|].
  split; [reflexivity|].
  vm_compute. discriminate.
Qed.

(** The "My Location" handler of the Leaflet view always passes on a
    location, found or made up. *)
Lemma my_location_always_found
  (longitude latitude : number) (r : fetched) (v : MapView.refs) :
  exists address,
    snd (complete (MapView.on_position longitude latitude v) r)
    = [Location.mk (VString "current-location") (VString "Current Location") address
         (longitude, latitude)].
Proof.
  cbn [MapView.on_position complete snd]. unfold MapView.try_position.
  destruct r as [| |data]; cbn [json_of bind]; eauto.
  destruct (get "display_name" data); cbn [bind]; eauto.
Qed.

(** C10. Every location a "My Location" handler passes on has the id
    "current-location" and the name "Current Location", whatever the position
    and whatever the geocoder answered; so two of them always have the same
    id. *)
Theorem current_location_identity (first second : Location.t) :
  Notions.found_by_my_location first ->
  Notions.found_by_my_location second ->
  Location.id first = VString "current-location"
  /\ Location.name first = VString "Current Location"
  /\ Location.id first = Location.id second.
Proof.
  assert (forall l, Notions.found_by_my_location l ->
                    Location.id l = VString "current-location"
                    /\ Location.name l = VString "Current Location") as H.
  { intros l (lon & lat & r & v & token & [H | [H | H]]).
    - destruct (my_location_always_found lon lat r v) as [a E].
      rewrite E in H. destruct H as [<- | []]. auto.
    - cbn [MapView0.on_position complete] in H.
      unfold MapView.try_position in H.
      destruct r as [| |data]; cbn [json_of bind snd] in H; try contradiction.
      destruct (get "display_name" data); cbn [bind snd] in H; try contradiction.
      destruct H as [<- | []]. auto.
    - cbn [MapViewMapbox.on_position resolve] in H.
      unfold MapViewMapbox.try_position in H.
      destruct r as [| |data]; cbn [json_of bind] in H; try contradiction.
      destruct (get "features" data) as [fs|]; cbn [bind] in H; try contradiction.
      destruct (index_opt 0 fs) as [f|]; cbn [bind] in H; try contradiction.
      destruct (get_opt "place_name" f); cbn [bind] in H; try contradiction.
      destruct H as [<- | []]. auto. }
  intros H1 H2. destruct (H _ H1) as [I1 N1]. destruct (H _ H2) as [I2 _].
  repeat split; congruence.
Qed.

Lemma current_location_identity_witness :
  Location.id Samples.here = VString "current-location"
  /\ Location.name Samples.here = VString "Current Location"
  /\ Location.id Samples.here = Location.id Samples.here_named.
Proof.
  apply current_location_identity.
  - exists (-74)%float, 40.7%float, Rejected, MapView.initial, "pk.token".
    left. left. reflexivity.
  - exists (-73.9855)%float, 40.758%float, Samples.named_answer, MapView.initial,
      "pk.token".
    right. left. left. reflexivity.
Defined.

(* ================================================================== *)
(** * Properties of the page and its map                                *)
(* ================================================================== *)

Lemma remove_all (handles : list nat) :
  forall v m,
    MapView.mapRef v = Some m ->
    MapView.mapRef
      (fold_left (fun v' marker => MapView.on_map (Leaflet.removeLayer marker) v')
         handles v)
    = Some (Leaflet.mk (Leaflet.view m) (App.kept handles m) (Leaflet.fresh m)).
Proof.
  unfold App.kept.
  induction handles as [|h hs IH]; intros v m Hm; cbn [fold_left existsb].
  - rewrite Hm. f_equal. destruct m as [vw ls fr]. cbn. f_equal.
    clear Hm. induction ls as [|x ls IHl]; cbn; [reflexivity|]. now f_equal.
  - erewrite IH.
    2: { unfold MapView.on_map. rewrite Hm. reflexivity. }
    cbn. f_equal. f_equal.
    induction (Leaflet.layers m) as [|x ls IHl]; cbn; [reflexivity|].
    destruct (Nat.eqb (fst x) h); cbn; [exact IHl|].
    destruct (existsb (Nat.eqb (fst x)) hs); cbn; [exact IHl|]. now f_equal.
Qed.

Lemma clearMarkers_map (v : MapView.refs) (m : Leaflet.map) :
  MapView.mapRef v = Some m ->
  MapView.clearMarkers v
  = MapView.mk
      (Some (Leaflet.mk (Leaflet.view m) (App.kept (MapView.markersRef v) m)
               (Leaflet.fresh m)))
      [] (MapView.isLoadingLocation v) (MapView.mapLoaded v).
Proof.
  intros Hm. unfold MapView.clearMarkers. now rewrite (remove_all _ _ _ Hm).
Qed.

(** What the effect on [selectedLocation] leaves of a map. *)
Lemma select_effect (v : MapView.refs) (m : Leaflet.map) (loc : Location.t) :
  MapView.mapRef v = Some m ->
  MapView.effect_selectedLocation (Some loc) v
  = MapView.mk
      (Some (Leaflet.mk
               (Leaflet.At (MapView.latlng_of (Location.coordinates loc)) 15%float)
               (App.kept (MapView.markersRef v) m
                ++ [(Leaflet.fresh m,
                     Leaflet.Marker Leaflet.Selected
                       (MapView.latlng_of (Location.coordinates loc))
                       (Location.name loc))])
               (S (Leaflet.fresh m))))
      [Leaflet.fresh m] (MapView.isLoadingLocation v) (MapView.mapLoaded v).
Proof.
  intros Hm. unfold MapView.effect_selectedLocation. rewrite Hm.
  rewrite (clearMarkers_map _ _ Hm). reflexivity.
Qed.

Lemma kept_in (handles : list nat) (m : Leaflet.map) (x : nat * Leaflet.layer) :
  In x (App.kept handles m) <-> In x (Leaflet.layers m) /\ ~ In (fst x) handles.
Proof.
  unfold App.kept. rewrite filter_In. split; intros [H1 H2]; split; auto.
  - intros Hin. apply negb_true_iff in H2.
    assert (existsb (Nat.eqb (fst x)) handles = true); [|congruence].
    apply existsb_exists. exists (fst x). split; [assumption|apply Nat.eqb_refl].
  - apply negb_true_iff. destruct (existsb (Nat.eqb (fst x)) handles) eqn:E; [|reflexivity].
    apply existsb_exists in E as (h & Hh & Eh). apply Nat.eqb_eq in Eh. congruence.
Qed.

(** On a map whose markers and lines are all tracked, only tiles are kept. *)
Lemma kept_tiles (v : MapView.refs) (m : Leaflet.map) :
  MapView.mapRef v = Some m -> App.tracked v ->
  forall x, In x (App.kept (MapView.markersRef v) m) -> snd x = Leaflet.Tiles.
Proof.
  unfold App.tracked. intros Hm Ht [h l] Hx. rewrite Hm in Ht.
  apply kept_in in Hx as [Hin Hout]. cbn in *.
  destruct l; [reflexivity| |]; exfalso; apply Hout; eapply Ht; eauto; discriminate.
Qed.

Lemma filter_none {A : Type} (f : A -> bool) (l : list A) :
  (forall x, In x l -> f x = false) -> filter f l = [].
Proof.
  induction l as [|x l IH]; intros H; cbn; [reflexivity|].
  rewrite (H x (or_introl eq_refl)). apply IH. intros y Hy. apply H. now right.
Qed.


Lemma add_tracked_map (v : MapView.refs) (m : Leaflet.map) (l : Leaflet.layer) :
  MapView.mapRef v = Some m ->
  MapView.add_tracked l v
  = MapView.mk
      (Some (Leaflet.mk (Leaflet.view m) (Leaflet.layers m ++ [(Leaflet.fresh m, l)])
               (S (Leaflet.fresh m))))
      (MapView.markersRef v ++ [Leaflet.fresh m])
      (MapView.isLoadingLocation v) (MapView.mapLoaded v).
Proof. intros Hm. unfold MapView.add_tracked. now rewrite Hm. Qed.

(** ** The view keeps track of what it draws *)

Lemma tracked_add (l : Leaflet.layer) (v : MapView.refs) :
  App.tracked v -> App.tracked (MapView.add_tracked l v).
Proof.
  unfold App.tracked. destruct (MapView.mapRef v) as [m|] eqn:Hm.
  - rewrite (add_tracked_map _ _ _ Hm). cbn. intros Ht h l' Hin Hl.
    apply in_or_app. apply in_app_or in Hin as [Hin | [Hin | []]].
    + left. eauto.
    + right. left. congruence.
  - unfold MapView.add_tracked. rewrite Hm. now rewrite Hm.
Qed.

Lemma tracked_moved (f : Leaflet.map -> Leaflet.map) (v : MapView.refs) :
  (forall m, Leaflet.layers (f m) = Leaflet.layers m) ->
  App.tracked v -> App.tracked (MapView.on_map f v).
Proof.
  unfold App.tracked, MapView.on_map. intros Hf.
  destruct (MapView.mapRef v) as [m|] eqn:Hm; cbn; [|now rewrite Hm].
  now rewrite Hf.
Qed.

Lemma tracked_loading (b : bool) (v : MapView.refs) :
  App.tracked v -> App.tracked (MapView.setIsLoadingLocation b v).
Proof. exact (fun H => H). Qed.

Lemma tracked_selected (s : option Location.t) (v : MapView.refs) :
  App.tracked v -> App.tracked (MapView.effect_selectedLocation s v).
Proof.
  intros Ht. destruct s as [loc|]; [|exact Ht].
  destruct (MapView.mapRef v) as [m|] eqn:Hm.
  - rewrite (select_effect _ _ _ Hm). unfold App.tracked. cbn.
    intros h l Hin Hl. apply in_app_or in Hin as [Hin | [Hin | []]].
    + apply (kept_tiles _ _ Hm Ht) in Hin. contradiction.
    + left. congruence.
  - unfold MapView.effect_selectedLocation. now rewrite Hm.
Qed.

Lemma tracked_current (c : option Location.t) (v : MapView.refs) :
  App.tracked v -> App.tracked (MapView.effect_currentLocation c v).
Proof.
  intros Ht. unfold MapView.effect_currentLocation.
  destruct c; [|exact Ht]. destruct (MapView.mapRef v); [|exact Ht].
  now apply tracked_add.
Qed.

Lemma tracked_route (r : option Route.t) (v : MapView.refs) :
  App.tracked v -> App.tracked (MapView.effect_route r v).
Proof.
  intros Ht. unfold MapView.effect_route.
  destruct r; [|exact Ht]. destruct (MapView.mapRef v); [|exact Ht].
  apply tracked_moved; [reflexivity|]. now apply tracked_add.
Qed.

Lemma tracked_zoom (z : option point) (v : MapView.refs) :
  App.tracked v -> App.tracked (MapView.effect_zoomToCoordinates z v).
Proof.
  intros Ht. unfold MapView.effect_zoomToCoordinates.
  destruct z; [|exact Ht]. destruct (MapView.mapRef v); [|exact Ht].
  now apply tracked_moved.
Qed.

Lemma tracked_initialized (imported : bool) (v : MapView.refs) :
  App.tracked v -> App.tracked (fst (MapView.initializeMap imported v)).
Proof.
  intros Ht. unfold MapView.initializeMap.
  destruct (MapView.mapRef v) eqn:Hm; [exact Ht|].
  destruct imported; [|exact Ht].
  unfold App.tracked. cbn. intros h l [Hin | []] Hl. congruence.
Qed.

Lemma fold_select_tracked (calls : list Location.t) :
  forall a, App.tracked (App.view a) ->
            App.tracked
              (App.view (fold_left (fun a' location => App.clickSelected location a')
                           calls a)).
Proof.
  induction calls as [|c calls IH]; intros a Ht; cbn [fold_left]; [exact Ht|].
  apply IH. unfold App.clickSelected. cbn [App.view]. now apply tracked_selected.
Qed.

Lemma tracked_select (held : bool) (location : Location.t) (a : App.app) :
  App.tracked (App.view a) -> App.tracked (App.view (App.selectLocation held location a)).
Proof.
  intros Ht. unfold App.selectLocation. cbn [App.view].
  destruct held; [exact Ht|]. now apply tracked_selected.
Qed.

(** Each event leaves every marker and line on the map tracked. *)
Lemma tracked_step (a : App.app) (e : App.event) :
  App.tracked (App.view a) -> App.tracked (App.view (App.step a e)).
Proof.
  intros Ht. destruct e; cbn [App.step].
  - now apply tracked_initialized.
  - now apply fold_select_tracked.
  - destruct (Index.isDirectionsMode (App.page a)); [exact Ht|].
    now apply tracked_select.
  - destruct (Index.isDirectionsMode (App.page a)); [exact Ht|].
    now apply tracked_select.
  - unfold App.foundCurrentLocation. cbn [MapView.on_position complete fold_left].
    unfold App.currentLocationFound. cbn [App.view].
    apply tracked_current, tracked_loading, tracked_moved; [reflexivity|exact Ht].
  - unfold App.directionsToggle. cbn [App.view]. now apply tracked_route.
  - unfold App.routeCalculated. cbn [App.view]. now apply tracked_route.
  - unfold App.stepClick. cbn [App.view]. now apply tracked_zoom.
  - unfold App.stepClick_timeout. cbn [App.view]. now apply tracked_zoom.
Qed.

Lemma tracked_steps (events : list App.event) :
  forall a, App.tracked (App.view a) ->
            App.tracked (App.view (fold_left App.step events a)).
Proof.
  induction events as [|e events IH]; intros a Ht; cbn [fold_left]; [exact Ht|].
  now apply IH, tracked_step.
Qed.

(** In every state the page and its map reach, the view tracks every marker
    and line on the map. *)
Lemma tracked_run (events : list App.event) :
  App.tracked (App.view (App.run events)).
Proof. apply tracked_steps. exact I. Qed.

(** What a fix leaves of the page and of an initialised map. *)
Lemma found_on_map
  (a : App.app) (m : Leaflet.map) (longitude latitude : number) (r : fetched) :
  MapView.mapRef (App.view a) = Some m ->
  exists address,
    App.foundCurrentLocation longitude latitude r a
    = App.mk
        (Index.handleCurrentLocationFound
           (Location.mk (VString "current-location") (VString "Current Location")
              address (longitude, latitude))
           (App.page a))
        (MapView.mk
           (Some (Leaflet.mk
                    (Leaflet.At (VNumber latitude, VNumber longitude) 15%float)
                    (Leaflet.layers m
                     ++ [(Leaflet.fresh m,
                          Leaflet.Marker Leaflet.Current
                            (VNumber latitude, VNumber longitude)
                            (VString "Current Location"))])
                    (S (Leaflet.fresh m))))
           (MapView.markersRef (App.view a) ++ [Leaflet.fresh m])
           false (MapView.mapLoaded (App.view a))).
Proof.
  intros Hm.
  destruct (my_location_always_found longitude latitude r (App.view a)) as [address E].
  exists address. unfold App.foundCurrentLocation.
  destruct (complete (MapView.on_position longitude latitude (App.view a)) r)
    as [v calls] eqn:Ec.
  cbn [snd] in E. subst calls.
  assert (v = MapView.setIsLoadingLocation false
                (MapView.on_map
                   (Leaflet.setView (VNumber latitude, VNumber longitude) 15%float)
                   (App.view a))) as ->
      by (cbn [MapView.on_position complete] in Ec; now inversion Ec).
  cbn [fold_left]. unfold App.currentLocationFound.
  cbn [App.page App.view Index.handleCurrentLocationFound Index.currentLocation].
  f_equal.
  unfold MapView.effect_currentLocation, MapView.on_map. rewrite Hm.
  reflexivity.
Qed.

Lemma markers_after_fix
  (m : Leaflet.map) (vw : Leaflet.viewport) (at_ : point) (n : nat) :
  let m' := Leaflet.mk vw
              (Leaflet.layers m
               ++ [(Leaflet.fresh m,
                    Leaflet.Marker Leaflet.Current at_ (VString "Current Location"))])
              n in
  Leaflet.markers Leaflet.Current m'
  = (Leaflet.markers Leaflet.Current m
     ++ [(Leaflet.fresh m,
          Leaflet.Marker Leaflet.Current at_ (VString "Current Location"))])%list
  /\ Leaflet.markers Leaflet.Selected m' = Leaflet.markers Leaflet.Selected m
  /\ Leaflet.polylines m' = Leaflet.polylines m.
Proof.
  cbv zeta. unfold Leaflet.markers, Leaflet.polylines. cbn [Leaflet.layers].
  rewrite !filter_app. cbn [filter Leaflet.is_marker Leaflet.is_polyline snd].
  rewrite !app_nil_r. auto.
Qed.

(** ** Selecting a location *)

Lemma tiles_are_no_marker (r : Leaflet.role) (l : list (nat * Leaflet.layer)) :
  (forall x, In x l -> snd x = Leaflet.Tiles) ->
  filter (fun x => Leaflet.is_marker r (snd x)) l = []
  /\ filter (fun x => Leaflet.is_polyline (snd x)) l = [].
Proof.
  intros H. split; apply filter_none; intros x Hx; rewrite (H x Hx); reflexivity.
Qed.

(** One selection on an initialised map: the view is centred on the
    location, the location's marker is the only layer left besides the tiles,
    and it is the only one tracked. *)
Lemma select_once (v : MapView.refs) (m : Leaflet.map) (loc : Location.t) :
  MapView.mapRef v = Some m ->
  App.tracked v ->
  exists m',
    MapView.mapRef (MapView.effect_selectedLocation (Some loc) v) = Some m'
    /\ MapView.markersRef (MapView.effect_selectedLocation (Some loc) v)
       = [Leaflet.fresh m]
    /\ Leaflet.fresh m' = S (Leaflet.fresh m)
    /\ Leaflet.view m'
       = Leaflet.At (MapView.latlng_of (Location.coordinates loc)) 15%float
    /\ Leaflet.markers Leaflet.Selected m'
       = [(Leaflet.fresh m,
           Leaflet.Marker Leaflet.Selected
             (MapView.latlng_of (Location.coordinates loc)) (Location.name loc))]
    /\ Leaflet.markers Leaflet.Current m' = []
    /\ Leaflet.polylines m' = [].
Proof.
  intros Hm Ht. rewrite (select_effect _ _ _ Hm). eexists. split; [reflexivity|].
  cbn [MapView.markersRef Leaflet.fresh Leaflet.view].
  unfold Leaflet.markers, Leaflet.polylines. cbn [Leaflet.layers].
  rewrite !filter_app.
  destruct (tiles_are_no_marker Leaflet.Selected _ (kept_tiles _ _ Hm Ht)) as [-> ->].
  destruct (tiles_are_no_marker Leaflet.Current _ (kept_tiles _ _ Hm Ht)) as [-> _].
  repeat split.
Qed.

(** C9, as the code has it. On an initialised map whose markers and lines
    are all tracked in [markersRef] (as they are in every state the page
    reaches), selecting A and then B, each a new object that a click on the
    map or on a search result passes on, leaves B selected and one selected
    marker, B's. The effect clears whatever was tracked: no current-location
    marker and no route line is left on the map either. Passing on the object
    that is selected already, as a click on a recent search can, changes
    nothing on the page or on the map: the effect does not run. A fix, for
    its part, adds a current-location marker and leaves the earlier ones on
    the map. *)
Theorem selecting_twice
  (a : App.app) (m : Leaflet.map) (A B : Location.t) (onMapA onMapB : bool) :
  MapView.mapRef (App.view a) = Some m ->
  App.tracked (App.view a) ->
  let select (onMap : bool) :=
    if onMap then App.clickSelected else App.selectLocation false in
  let a' := select onMapB B (select onMapA A a) in
  Index.selectedLocation (App.page a') = Some B
  /\ (exists m',
        MapView.mapRef (App.view a') = Some m'
        /\ Leaflet.markers Leaflet.Selected m'
           = [(S (Leaflet.fresh m),
               Leaflet.Marker Leaflet.Selected
                 (MapView.latlng_of (Location.coordinates B)) (Location.name B))]
        /\ Leaflet.markers Leaflet.Current m' = []
        /\ Leaflet.polylines m' = []
        /\ MapView.markersRef (App.view a') = [S (Leaflet.fresh m)])
  /\ (Index.isDirectionsMode (App.page a) = false ->
      App.selectLocation true B a' = a')
  /\ (forall longitude latitude r,
        exists m',
          MapView.mapRef (App.view (App.foundCurrentLocation longitude latitude r a))
          = Some m'
          /\ Leaflet.markers Leaflet.Current m'
             = (Leaflet.markers Leaflet.Current m
                ++ [(Leaflet.fresh m,
                     Leaflet.Marker Leaflet.Current
                       (VNumber latitude, VNumber longitude)
                       (VString "Current Location"))])%list).
Proof.
  intros Hm Ht. cbv zeta.
  assert (forall (onMap : bool) X a0,
            App.view ((if onMap then App.clickSelected else App.selectLocation false) X a0)
            = MapView.effect_selectedLocation (Some X) (App.view a0)) as Hview
      by (intros [|] X a0; reflexivity).
  split; [destruct onMapA, onMapB; reflexivity|]. split; [|split].
  - rewrite !Hview.
    destruct (select_once _ _ A Hm Ht) as (m1 & Hm1 & Hr1 & Hf1 & _).
    assert (App.tracked (MapView.effect_selectedLocation (Some A) (App.view a))) as Ht1
        by now apply tracked_selected.
    destruct (select_once _ _ B Hm1 Ht1) as (m2 & Hm2 & Hr2 & Hf2 & _ & Hs & Hc & Hp).
    exists m2. rewrite <- Hf1. auto.
  - intros Hmode. destruct onMapA, onMapB;
      unfold App.selectLocation, App.clickSelected, Index.handleLocationSelect,
        Index.handleLocationSelect_of;
      cbn; rewrite ?Hmode; reflexivity.
  - intros longitude latitude r.
    destruct (found_on_map a m longitude latitude r Hm) as [address ->].
    eexists. split; [reflexivity|]. apply markers_after_fix.
Qed.

Lemma selecting_twice_witness :
  let a' := App.clickSelected Samples.elsewhere
              (App.clickSelected Samples.there (App.run Samples.first_fix)) in
  Index.selectedLocation (App.page a') = Some Samples.elsewhere
  /\ (exists m',
        MapView.mapRef (App.view a') = Some m'
        /\ Leaflet.markers Leaflet.Selected m'
           = [(3%nat,
               Leaflet.Marker Leaflet.Selected
                 (MapView.latlng_of (Location.coordinates Samples.elsewhere))
                 (Location.name Samples.elsewhere))]
        /\ Leaflet.markers Leaflet.Current m' = []
        /\ Leaflet.polylines m' = []
        /\ MapView.markersRef (App.view a') = [3%nat])
  /\ App.selectLocation true Samples.elsewhere a' = a'.
Proof.
  pose proof (selecting_twice (App.run Samples.first_fix)
                (Leaflet.mk
                   (Leaflet.At (VNumber 40.7%float, VNumber (-74)%float) 15%float)
                   [(0%nat, Leaflet.Tiles);
                    (1%nat, Leaflet.Marker Leaflet.Current
                              (VNumber 40.7%float, VNumber (-74)%float)
                              (VString "Current Location"))]
                   2)
                Samples.there Samples.elsewhere true true eq_refl
                (tracked_run Samples.first_fix)) as H.
  exact (conj (proj1 H)
           (conj (proj1 (proj2 H)) (proj1 (proj2 (proj2 H)) eq_refl))).
Defined.

(** C9 fails for the current-location markers and for "that role only":
    a second fix leaves two of them on the map, and a click on the map after
    it removes them both although the current location stays known. *)
Lemma current_markers_pile_up :
  let two := App.step (App.run Samples.first_fix) Samples.second_fix in
  let three := App.step two Samples.click_elsewhere in
  option_map (fun m => List.length (Leaflet.markers Leaflet.Current m))
    (MapView.mapRef (App.view two)) = Some 2%nat
  /\ option_map (fun m => List.length (Leaflet.markers Leaflet.Current m))
       (MapView.mapRef (App.view three)) = Some 0%nat
  /\ option_map (fun m => List.length (Leaflet.markers Leaflet.Selected m))
       (MapView.mapRef (App.view three)) = Some 1%nat
  /\ Index.currentLocation (App.page three) = Some Samples.here_named.
Proof.
  cbv zeta. repeat split; vm_compute; reflexivity.
Qed.

(** ** Finding the current location *)

(** What a fix leaves of the page and of a view that has no map yet. *)
Lemma found_without_map
  (a : App.app) (longitude latitude : number) (r : fetched) :
  MapView.mapRef (App.view a) = None ->
  exists address,
    App.foundCurrentLocation longitude latitude r a
    = App.mk
        (Index.handleCurrentLocationFound
           (Location.mk (VString "current-location") (VString "Current Location")
              address (longitude, latitude))
           (App.page a))
        (MapView.setIsLoadingLocation false (App.view a)).
Proof.
  intros Hm.
  destruct (my_location_always_found longitude latitude r (App.view a)) as [address E].
  exists address. unfold App.foundCurrentLocation.
  destruct (complete (MapView.on_position longitude latitude (App.view a)) r)
    as [v calls] eqn:Ec.
  cbn [snd] in E. subst calls.
  assert (v = MapView.setIsLoadingLocation false (App.view a)) as ->.
  { cbn [MapView.on_position complete] in Ec. inversion Ec.
    unfold MapView.on_map. now rewrite Hm. }
  cbn [fold_left]. unfold App.currentLocationFound.
  cbn [App.page App.view Index.handleCurrentLocationFound Index.currentLocation].
  f_equal.
  unfold MapView.effect_currentLocation. cbn [MapView.setIsLoadingLocation MapView.mapRef].
  now rewrite Hm.
Qed.

(** C8, as the code has it. Every fix, the first and each later one, sets
    the current location and leaves the route and the selected location as
    they were. On an initialised map it moves the view to the fix at zoom 15
    and adds one more current-location marker, the markers and lines drawn
    before staying as they were. While there is no map yet it draws and moves
    nothing, and the map that comes up afterwards has no current-location
    marker. *)
Theorem every_fix_recenters
  (a : App.app) (longitude latitude : number) (r : fetched) :
  let a' := App.foundCurrentLocation longitude latitude r a in
  (exists address,
     Index.currentLocation (App.page a')
     = Some (Location.mk (VString "current-location") (VString "Current Location")
               address (longitude, latitude)))
  /\ Index.route (App.page a') = Index.route (App.page a)
  /\ Index.selectedLocation (App.page a') = Index.selectedLocation (App.page a)
  /\ match MapView.mapRef (App.view a) with
     | Some m =>
         exists m',
           MapView.mapRef (App.view a') = Some m'
           /\ Leaflet.view m' = Leaflet.At (VNumber latitude, VNumber longitude) 15%float
           /\ Leaflet.markers Leaflet.Current m'
              = (Leaflet.markers Leaflet.Current m
                 ++ [(Leaflet.fresh m,
                      Leaflet.Marker Leaflet.Current (VNumber latitude, VNumber longitude)
                        (VString "Current Location"))])%list
           /\ Leaflet.markers Leaflet.Selected m' = Leaflet.markers Leaflet.Selected m
           /\ Leaflet.polylines m' = Leaflet.polylines m
     | None =>
         App.view a' = MapView.setIsLoadingLocation false (App.view a)
         /\ exists m',
              MapView.mapRef (App.view (App.initializeMap true a')) = Some m'
              /\ Leaflet.markers Leaflet.Current m' = []
     end.
Proof.
  cbv zeta. destruct (MapView.mapRef (App.view a)) as [m|] eqn:Hm.
  - destruct (found_on_map a m longitude latitude r Hm) as [address ->].
    cbn [App.page App.view Index.handleCurrentLocationFound Index.currentLocation
         Index.route Index.selectedLocation].
    split; [eauto|]. split; [reflexivity|]. split; [reflexivity|].
    eexists. split; [reflexivity|]. split; [reflexivity|].
    apply markers_after_fix.
  - destruct (found_without_map a longitude latitude r Hm) as [address ->].
    cbn [App.page App.view Index.handleCurrentLocationFound Index.currentLocation
         Index.route Index.selectedLocation].
    split; [eauto|]. split; [reflexivity|]. split; [reflexivity|].
    split; [reflexivity|].
    unfold App.initializeMap, MapView.initializeMap.
    cbn [App.view MapView.setIsLoadingLocation MapView.mapRef]. rewrite Hm.
    eexists. split; [reflexivity|]. reflexivity.
Qed.

Lemma every_fix_recenters_witness :
  let a' := App.step (App.run Samples.first_fix) Samples.second_fix in
  exists m',
    MapView.mapRef (App.view a') = Some m'
    /\ Leaflet.view m'
       = Leaflet.At (VNumber 40.758%float, VNumber (-73.9855)%float) 15%float
    /\ Leaflet.markers Leaflet.Current m'
       = [(1%nat, Leaflet.Marker Leaflet.Current
                    (VNumber 40.7%float, VNumber (-74)%float)
                    (VString "Current Location"));
          (2%nat, Leaflet.Marker Leaflet.Current
                    (VNumber 40.758%float, VNumber (-73.9855)%float)
                    (VString "Current Location"))]
    /\ Leaflet.markers Leaflet.Selected m' = []
    /\ Leaflet.polylines m' = [].
Proof.
  exact (proj2 (proj2 (proj2
           (every_fix_recenters (App.run Samples.first_fix)
              (-73.9855)%float 40.758%float Samples.named_answer)))).
Defined.

(** C8 fails on "only the first fix recenters": with a current location
    already known and the view on it, a second fix moves the view to the new
    position. *)
Lemma second_fix_moves_the_view :
  let one := App.run Samples.first_fix in
  let two := App.step one Samples.second_fix in
  Index.currentLocation (App.page one) = Some Samples.here
  /\ option_map Leaflet.view (MapView.mapRef (App.view one))
     = Some (Leaflet.At (VNumber 40.7%float, VNumber (-74)%float) 15%float)
  /\ option_map Leaflet.view (MapView.mapRef (App.view two))
     = Some (Leaflet.At (VNumber 40.758%float, VNumber (-73.9855)%float) 15%float)
  /\ (VNumber 40.7%float, VNumber (-74)%float)
     <> (VNumber 40.758%float, VNumber (-73.9855)%float).
Proof.
  cbv zeta. split; [vm_compute; reflexivity|].
  split; [vm_compute; reflexivity|].
  split; [vm_compute; reflexivity|].
  apply point_neq. cbn. numbers_differ.
Qed.

(** ** The route and the selection *)

Lemma fold_select_route (calls : list Location.t) :
  forall a, Index.route
              (App.page (fold_left (fun a' location => App.clickSelected location a')
                           calls a))
            = Index.route (App.page a).
Proof.
  induction calls as [|c calls IH]; intros a; cbn [fold_left]; [reflexivity|].
  now rewrite IH.
Qed.

Lemma fold_found_route (calls : list Location.t) :
  forall a, Index.route
              (App.page (fold_left
                           (fun a' location => App.currentLocationFound location a')
                           calls a))
            = Index.route (App.page a).
Proof.
  induction calls as [|c calls IH]; intros a; cbn [fold_left]; [reflexivity|].
  now rewrite IH.
Qed.

(** C4, as the code has it. Selecting a location never touches the
    route: it is the same after [handleLocationSelect] as before, whichever
    render made the handler and whatever the location and the route's
    destination. Of all events only the directions toggle, which always
    clears it, and a newly calculated route change it. What the selection of
    a new object does remove, on an initialised map with everything tracked,
    is the line drawn for the route; passing on the object that is selected
    already leaves the map as it is, the line included. *)
Theorem route_survives_selection (a : App.app) (e : App.event) :
  (forall location,
     Index.route (Index.handleLocationSelect location (App.page a))
     = Index.route (App.page a))
  /\ (forall rendered location,
        Index.route (Index.handleLocationSelect_of rendered location (App.page a))
        = Index.route (App.page a))
  /\ Index.route (Index.handleDirectionsToggle (App.page a)) = None
  /\ (Index.route (App.page (App.step a e)) = Index.route (App.page a)
      \/ e = App.DirectionsToggle
      \/ exists route, e = App.RouteCalculated route)
  /\ (forall m location (onMap : bool),
        MapView.mapRef (App.view a) = Some m ->
        App.tracked (App.view a) ->
        let a' := (if onMap then App.clickSelected else App.selectLocation false)
                    location a in
        Index.route (App.page a') = Index.route (App.page a)
        /\ option_map Leaflet.polylines (MapView.mapRef (App.view a')) = Some [])
  /\ (forall location,
        Index.route (App.page (App.selectLocation true location a))
        = Index.route (App.page a)
        /\ App.view (App.selectLocation true location a) = App.view a).
Proof.
  split; [reflexivity|]. split; [reflexivity|]. split; [reflexivity|]. split; [|split].
  - destruct e; cbn [App.step].
    + left. reflexivity.
    + left. apply fold_select_route.
    + left. now destruct (Index.isDirectionsMode (App.page a)).
    + left. now destruct (Index.isDirectionsMode (App.page a)).
    + left. unfold App.foundCurrentLocation.
      destruct (complete _ r) as [v calls]. now rewrite fold_found_route.
    + right. left. reflexivity.
    + right. right. eauto.
    + left. reflexivity.
    + left. reflexivity.
  - intros m location onMap Hm Ht. cbv zeta. split; [now destruct onMap|].
    assert (App.view ((if onMap then App.clickSelected else App.selectLocation false)
                        location a)
            = MapView.effect_selectedLocation (Some location) (App.view a)) as ->
        by now destruct onMap.
    destruct (select_once _ _ location Hm Ht) as (m' & Hm' & _ & _ & _ & _ & _ & Hp).
    rewrite Hm'. cbn [option_map]. now rewrite Hp.
  - intros location. split; reflexivity.
Qed.

(** C4 fails: with directions from the current location to a place
    chosen in the directions panel on show, a click elsewhere on the map
    selects a location that is not the route's destination, and the route
    stays. *)
Lemma selection_keeps_the_route :
  let shown := App.run Samples.directions_shown in
  let after := App.step shown Samples.click_elsewhere in
  Index.currentLocation (App.page (App.run Samples.first_fix)) = Some Samples.here
  /\ resolve (DirectionsGuarded.searchLocations "Central Park")
       Samples.central_park_answer
     = [Samples.park]
  /\ snd (complete (DirectionsGuarded.calculateRoute Samples.chosen_panel)
            Samples.a_route)
     = [Samples.chosen_route]
  /\ Route.destination Samples.chosen_route
     = Location.mk (VString "2") (VString "Central Park")
         (VString "Central Park, New York") ((-73.9654)%float, 40.7829%float)
  /\ Index.route (App.page shown) = Some Samples.chosen_route
  /\ Index.selectedLocation (App.page after) = Some Samples.elsewhere
  /\ Location.id Samples.elsewhere
     <> Location.id (Route.destination Samples.chosen_route)
  /\ Index.route (App.page after) = Some Samples.chosen_route
  /\ Index.route (App.page after) <> None.
Proof.
  cbv zeta.
  assert (Index.route (App.page (App.step (App.run Samples.directions_shown)
                                   Samples.click_elsewhere))
          = Some Samples.chosen_route) as E by (vm_compute; reflexivity).
  repeat split; try (vm_compute; reflexivity).
  - vm_compute. discriminate.
  - rewrite E. discriminate.
Qed.

(* ================================================================== *)
(** * The search box and its timers                                     *)
(* ================================================================== *)

(** Typing only ever adds a timer; none is taken back. *)
Lemma typing_adds_a_timer (query : string) (w : SearchLoop.world) :
  SearchLoop.timers (SearchLoop.step w (SearchLoop.Input query))
  = (SearchLoop.timers w ++ [(SearchLoop.now w + 300, query)%nat])%list.
Proof. reflexivity. Qed.

Lemma fire_sends (w : SearchLoop.world) (due : nat) (query : string) :
  Notions.whitespace_only query = false ->
  SearchLoop.issued (SearchLoop.fire w (due, query)) = S (SearchLoop.issued w)
  /\ map (fun x => snd (fst x)) (SearchLoop.inflight (SearchLoop.fire w (due, query)))
     = (map (fun x => snd (fst x)) (SearchLoop.inflight w) ++ [query])%list
  /\ SearchLoop.timers (SearchLoop.fire w (due, query)) = SearchLoop.timers w
  /\ SearchLoop.now (SearchLoop.fire w (due, query)) = SearchLoop.now w.
Proof.
  intros H.
  assert (String.eqb (trim query) "" = false) as Ht.
  { apply String.eqb_neq. intros E. apply trim_whitespace_only in E. congruence. }
  unfold SearchLoop.fire, SearchPanel.searchLocations. cbn [snd]. rewrite Ht.
  cbn [SearchLoop.issued SearchLoop.inflight SearchLoop.timers SearchLoop.now].
  rewrite map_app. auto.
Qed.

(** Two queries typed less than 300 ms apart are both sent: the second
    keystroke does not stop the timer of the first. *)
Lemma both_queries_are_sent (w : SearchLoop.world) (first second : string) (gap : nat) :
  (gap < 300)%nat ->
  SearchLoop.timers w = [] ->
  Notions.whitespace_only first = false ->
  Notions.whitespace_only second = false ->
  let w' := fold_left SearchLoop.step
              [SearchLoop.Input first; SearchLoop.Elapse gap;
               SearchLoop.Input second; SearchLoop.Elapse 300] w in
  SearchLoop.issued w' = S (S (SearchLoop.issued w))
  /\ map (fun x => snd (fst x)) (SearchLoop.inflight w')
     = (map (fun x => snd (fst x)) (SearchLoop.inflight w) ++ [first; second])%list.
Proof.
  intros Hgap Hnone H1 H2. cbv zeta.
  set (w0 := SearchLoop.mk (SearchLoop.now w + gap + 300)
               (SearchPanel.setSearchQuery second
                  (SearchPanel.setSearchQuery first (SearchLoop.panel w)))
               [] (SearchLoop.inflight w) (SearchLoop.issued w) (SearchLoop.commits w)).
  set (t1 := ((SearchLoop.now w + 300)%nat, first)).
  set (t2 := ((SearchLoop.now w + gap + 300)%nat, second)).
  assert (fold_left SearchLoop.step
            [SearchLoop.Input first; SearchLoop.Elapse gap;
             SearchLoop.Input second; SearchLoop.Elapse 300] w
          = SearchLoop.fire (SearchLoop.fire w0 t1) t2) as ->.
  { cbn [fold_left SearchLoop.step].
    unfold SearchLoop.handleSearchInputChange, SearchLoop.elapse.
    cbn [SearchLoop.timers SearchLoop.now SearchLoop.panel SearchLoop.inflight
         SearchLoop.issued SearchLoop.commits].
    rewrite Hnone.
    cbn [app filter fst].
    assert (Nat.leb (SearchLoop.now w + 300) (SearchLoop.now w + gap) = false) as ->
        by (apply Nat.leb_gt; lia).
    cbn [negb fold_left app filter fst
         SearchLoop.timers SearchLoop.now SearchLoop.panel SearchLoop.inflight
         SearchLoop.issued SearchLoop.commits].
    assert (Nat.leb (SearchLoop.now w + 300) (SearchLoop.now w + gap + 300) = true) as ->
        by (apply Nat.leb_le; lia).
    rewrite Nat.leb_refl. reflexivity. }
  destruct (fire_sends w0 (fst t1) first H1) as (I1 & F1 & _ & _).
  destruct (fire_sends (SearchLoop.fire w0 t1) (fst t2) second H2) as (I2 & F2 & _ & _).
  change (fst t1, first) with t1 in *. change (fst t2, second) with t2 in *.
  rewrite I2, I1, F2, F1. subst w0. cbn [SearchLoop.issued SearchLoop.inflight].
  rewrite <- app_assoc. auto.
Qed.

(** C6 does not hold of the search box. "Central" and then, 100 ms
    later, "Central Park" are typed: both requests are sent, both answers are
    committed, and the answer to "Central", arriving last, replaces the
    results for "Central Park" under the query "Central Park". *)
Theorem stale_answer_overwrites :
  let w := SearchLoop.run Samples.two_searches in
  SearchPanel.searchQuery (SearchLoop.panel w) = "Central Park"
  /\ SearchLoop.issued w = 2%nat
  /\ map fst (SearchLoop.commits w) = [1%nat; 0%nat]
  /\ SearchPanel.try_results Samples.central_answer
     = Ok (SearchPanel.searchResults (SearchLoop.panel w))
  /\ map SearchResult.name (SearchPanel.searchResults (SearchLoop.panel w))
     = [VString "Central"].
Proof.
  cbv zeta. repeat split; vm_compute; reflexivity.
Qed.

(* ================================================================== *)
(** * More on the directions panels                                     *)
(* ================================================================== *)

Lemma mapi_from_nth {A B : Type} (f : nat -> A -> res B) (l : list A) :
  forall i ys k x,
    mapi_from f i l = Ok ys ->
    nth_error l k = Some x ->
    exists y, nth_error ys k = Some y /\ f (i + k)%nat x = Ok y.
Proof.
  induction l as [|a l IH]; intros i ys k x H Hk.
  - destruct k; discriminate.
  - cbn [mapi_from] in H.
    destruct (f i a) as [b|] eqn:Ea; cbn [bind] in H; [|discriminate].
    destruct (mapi_from f (S i) l) as [bs|] eqn:El; cbn [bind] in H; [|discriminate].
    inversion H; subst. destruct k as [|k]; cbn in Hk |- *.
    + inversion Hk; subst. exists b. now rewrite Nat.add_0_r.
    + destruct (IH _ _ _ _ El Hk) as (y & Hy & Hf). exists y.
      now rewrite Nat.add_succ_r.
Qed.

Lemma mapi_from_throws {A B : Type} (f : nat -> A -> res B) (l : list A) (x : A) :
  In x l -> (forall i, exists e, f i x = Throw e) ->
  forall i, exists e, mapi_from f i l = Throw e.
Proof.
  intros Hin Hx. induction l as [|a l IH]; [contradiction|]. intros i.
  cbn [mapi_from]. destruct Hin as [-> | Hin].
  - destruct (Hx i) as [e ->]. cbn. eauto.
  - destruct (f i a); cbn [bind]; [|eauto].
    destruct (IH Hin (S i)) as [e ->]. cbn. eauto.
Qed.

Lemma or_else_truthy (a : value) (s : string) :
  s <> "" -> truthy (or_else a (VString s)) = true.
Proof.
  intros Hs. unfold or_else. destruct (truthy a) eqn:E; [exact E|].
  cbn. apply negb_true_iff. now apply String.eqb_neq.
Qed.



(** X1. With both end points chosen, a calculation in the panel that
    reports failures ends in exactly one of two ways, the spinner off in
    both: one route handed to [onRouteCalculated] and no error shown, or no
    route handed over and one of the panel's three messages shown. A rejected
    request, a body that is no JSON and a [null] answer show the "check your
    internet connection" message; an answer with another code and no routes
    shows the "try different locations" message. *)
Theorem guarded_route_or_message
  (p : DirectionsGuarded.panel) (o d : Location.t) (r : fetched) :
  DirectionsGuarded.actualOrigin p = Some o ->
  DirectionsGuarded.actualDestination p = Some d ->
  let done := complete (DirectionsGuarded.calculateRoute p) r in
  DirectionsGuarded.isCalculating (fst done) = false
  /\ ((exists route,
         snd done = [route]
         /\ DirectionsGuarded.routeError (fst done) = None
         /\ Route.origin route = o /\ Route.destination route = d)
      \/ (snd done = []
          /\ exists message,
               DirectionsGuarded.routeError (fst done) = Some message
               /\ In message [DirectionsGuarded.no_route_message;
                              DirectionsGuarded.unable_message;
                              DirectionsGuarded.failed_message]))
  /\ (r = Rejected \/ r = NotJson \/ r = Json VNull ->
      DirectionsGuarded.routeError (fst done) = Some DirectionsGuarded.failed_message)
  /\ (forall data code,
        r = Json data -> get "code" data = Ok code ->
        is_string "NoRoute" code = false -> Osrm.has_routes data = Ok false ->
        DirectionsGuarded.routeError (fst done)
        = Some DirectionsGuarded.unable_message).
Proof.
  intros Ho Hd. cbv zeta. unfold DirectionsGuarded.calculateRoute.
  rewrite Ho, Hd. cbn [complete]. split; [|split; [|split]].
  - destruct (DirectionsGuarded.try_route o d r) as [[route|m]|e]; reflexivity.
  - destruct (DirectionsGuarded.try_route o d r) as [[route|m]|e] eqn:E;
      cbn [fst snd].
    + left. exists route. repeat split.
      * destruct (guarded_route_inv _ _ _ _ E) as (data & rd & _ & _ & Ht).
        destruct (to_route_inv _ _ _ _ Ht) as (ss & st & _ & _ & -> & _). reflexivity.
      * destruct (guarded_route_inv _ _ _ _ E) as (data & rd & _ & _ & Ht).
        destruct (to_route_inv _ _ _ _ Ht) as (ss & st & _ & _ & -> & _). reflexivity.
    + right. split; [reflexivity|]. exists m. split; [reflexivity|].
      unfold DirectionsGuarded.try_route in E.
      destruct r as [| |data]; try discriminate. cbn [json_of bind] in E.
      ran E. destruct (is_string "NoRoute" a).
      * inversion E. cbn. auto.
      * ran E. destruct a0.
        -- do 2 ran E. discriminate.
        -- inversion E. cbn. auto.
    + right. split; [reflexivity|]. eexists. split; [reflexivity|]. cbn. auto.
  - intros [-> | [-> | ->]]; reflexivity.
  - intros data code -> Hc Hn Hr. unfold DirectionsGuarded.try_route.
    cbn [json_of bind]. rewrite Hc. cbn [bind]. rewrite Hn, Hr. reflexivity.
Qed.

Lemma guarded_route_or_message_witness :
  let done := complete (DirectionsGuarded.calculateRoute Samples.guarded_panel)
                Samples.a_route in
  DirectionsGuarded.isCalculating (fst done) = false
  /\ ((exists route,
         snd done = [route]
         /\ DirectionsGuarded.routeError (fst done) = None
         /\ Route.origin route = Samples.here
         /\ Route.destination route = Samples.there)
      \/ (snd done = []
          /\ exists message,
               DirectionsGuarded.routeError (fst done) = Some message
               /\ In message [DirectionsGuarded.no_route_message;
                              DirectionsGuarded.unable_message;
                              DirectionsGuarded.failed_message])).
Proof.
  pose proof (guarded_route_or_message Samples.guarded_panel Samples.here
                Samples.there Samples.a_route eq_refl eq_refl) as H.
  exact (conj (proj1 H) (proj1 (proj2 H))).
Defined.

(* ================================================================== *)
(** * More on the search panel                                          *)
(* ================================================================== *)

Lemma toString_opt_shape (v w : value) :
  toString_opt v = Ok w -> w = VUndefined \/ exists s, w = VString s.
Proof.
  unfold toString_opt. intros H.
  destruct v; try (inversion H; auto; fail);
    (destruct (ToString _) as [t|]; cbn [bind] in H; [|discriminate]);
    inversion H; eauto.
Qed.

Lemma to_result_inv (i : nat) (item : value) (result : SearchResult.t) :
  SearchPanel.to_result i item = Ok result ->
  exists s lon lat,
    get "display_name" item = Ok (VString s)
    /\ SearchResult.name result = VString (split_first "," s)
    /\ SearchResult.address result = VString s
    /\ get "lon" item = Ok lon /\ get "lat" item = Ok lat
    /\ parseFloat lon = Ok (fst (SearchResult.coordinates result))
    /\ parseFloat lat = Ok (snd (SearchResult.coordinates result))
    /\ (exists t, SearchResult.id result = VString t)
    /\ truthy (SearchResult.type result) = true.
Proof.
  unfold SearchPanel.to_result. intros H. do 9 ran H. inversion H; subst; clear H.
  destruct a1 as [ | | | |s| | ]; try discriminate. cbn in E2. inversion E2; subst.
  exists s, a3, a5. cbn. repeat split; auto.
  - destruct (toString_opt_shape _ _ E0) as [-> | [t ->]]; [cbn; eauto|].
    unfold or_else. destruct (truthy _); eauto.
  - apply or_else_truthy. discriminate.
Qed.

(** X3. Search results follow the geocoder's answer: they are shown only
    for an answer that is an array, one result per item and in the item's
    place; a result's address is the item's [display_name], its name the
    part of that before the first comma, its coordinates [parseFloat] of the
    item's [lon] and [lat], its id a string and its type never blank. *)
Theorem search_results_follow_the_answer (r : fetched) (results : list SearchResult.t) :
  SearchPanel.try_results r = Ok results ->
  exists items,
    r = Json (VArray items)
    /\ List.length results = List.length items
    /\ forall i item,
         nth_error items i = Some item ->
         exists result s lon lat,
           nth_error results i = Some result
           /\ get "display_name" item = Ok (VString s)
           /\ SearchResult.name result = VString (split_first "," s)
           /\ SearchResult.address result = VString s
           /\ get "lon" item = Ok lon /\ get "lat" item = Ok lat
           /\ parseFloat lon = Ok (fst (SearchResult.coordinates result))
           /\ parseFloat lat = Ok (snd (SearchResult.coordinates result))
           /\ (exists t, SearchResult.id result = VString t)
           /\ truthy (SearchResult.type result) = true.
Proof.
  unfold SearchPanel.try_results. intros H.
  destruct r as [| |data]; try discriminate. cbn [json_of bind] in H.
  destruct data as [ | | | | |items| ]; try discriminate. cbn [map_array] in H.
  exists items. split; [reflexivity|]. split.
  - exact (mapi_from_length _ _ _ _ H).
  - intros i item Hi.
    destruct (mapi_from_nth _ _ _ _ _ _ H Hi) as (result & Hn & Hf).
    destruct (to_result_inv _ _ _ Hf) as (s & lon & lat & Hrest).
    exists result, s, lon, lat. split; [exact Hn|exact Hrest].
Qed.

Lemma search_results_follow_the_answer_witness :
  let results := match SearchPanel.try_results Samples.central_park_answer with
                 | Ok results => results
                 | Throw _ => []
                 end in
  exists items,
    Samples.central_park_answer = Json (VArray items)
    /\ List.length results = List.length items
    /\ forall i item,
         nth_error items i = Some item ->
         exists result s lon lat,
           nth_error results i = Some result
           /\ get "display_name" item = Ok (VString s)
           /\ SearchResult.name result = VString (split_first "," s)
           /\ SearchResult.address result = VString s
           /\ get "lon" item = Ok lon /\ get "lat" item = Ok lat
           /\ parseFloat lon = Ok (fst (SearchResult.coordinates result))
           /\ parseFloat lat = Ok (snd (SearchResult.coordinates result))
           /\ (exists t, SearchResult.id result = VString t)
           /\ truthy (SearchResult.type result) = true.
Proof.
  exact (search_results_follow_the_answer Samples.central_park_answer _ eq_refl).
Defined.

Lemma to_result_needs_a_name (i : nat) (item : value) :
  (forall s, get "display_name" item <> Ok (VString s)) ->
  exists e, SearchPanel.to_result i item = Throw e.
Proof.
  intros H. destruct (SearchPanel.to_result i item) as [result|e] eqn:E; [|eauto].
  destruct (to_result_inv _ _ _ E) as (s & _ & _ & Hs & _). now destruct (H s).
Qed.

(** X4. The search results are all or nothing: when one item of the
    answer has no string [display_name], no result is shown at all, the
    well-formed items' neither, and the spinner stops. *)
Theorem one_bad_item_empties_the_results
  (q : string) (p : SearchPanel.panel) (items : list value) (item : value) :
  Notions.whitespace_only q = false ->
  In item items ->
  (forall s, get "display_name" item <> Ok (VString s)) ->
  let p' := fst (complete (SearchPanel.searchLocations q p) (Json (VArray items))) in
  SearchPanel.searchResults p' = []
  /\ SearchPanel.isLoading p' = false
  /\ SearchPanel.recentSearches p' = SearchPanel.recentSearches p
  /\ SearchPanel.searchQuery p' = SearchPanel.searchQuery p.
Proof.
  intros Hq Hin Hbad. cbv zeta.
  assert (String.eqb (trim q) "" = false) as Ht.
  { apply String.eqb_neq. intros E. apply trim_whitespace_only in E. congruence. }
  unfold SearchPanel.searchLocations. rewrite Ht. cbn [complete fst].
  unfold SearchPanel.try_results. cbn [json_of bind map_array].
  destruct (mapi_from_throws SearchPanel.to_result items item Hin
              (fun i => to_result_needs_a_name i item Hbad) 0%nat) as [e ->].
  cbn. auto.
Qed.

Lemma one_bad_item_empties_the_results_witness :
  let items :=
    [VObject [("place_id", VNumber 2%float);
              ("display_name", VString "Central Park, New York");
              ("lon", VString "-73.9654"); ("lat", VString "40.7829")];
     VObject [("place_id", VNumber 3%float); ("lon", VString "0"); ("lat", VString "0")]] in
  let p' := fst (complete (SearchPanel.searchLocations "Central" SearchPanel.initial)
                   (Json (VArray items))) in
  SearchPanel.searchResults p' = []
  /\ SearchPanel.isLoading p' = false
  /\ SearchPanel.recentSearches p' = []
  /\ SearchPanel.searchQuery p' = "".
Proof.
  refine (one_bad_item_empties_the_results "Central" SearchPanel.initial _
            (VObject [("place_id", VNumber 3%float); ("lon", VString "0");
                      ("lat", VString "0")]) eq_refl _ _).
  - right. left. reflexivity.
  - intros s H. discriminate H.
Defined.

(** A value that has properties at all has, or lacks, any other one. *)
Lemma get_after_get (k k' : string) (v a : value) :
  get k v = Ok a -> exists b, get k' v = Ok b.
Proof.
  destruct v as [ | |b|x|s|items|fields]; cbn; try discriminate; intros _; eauto.
  - destruct (String.eqb k' "length"); eauto.
  - destruct (String.eqb k' "length"); eauto.
  - destruct (lookup k' fields); eauto.
Qed.

Lemma guarded_results_agree (items : list value) :
  forall i,
    match mapi_from SearchPanel.to_result i items with
    | Ok results =>
        mapi_from DirectionsGuarded.to_result i items
        = Ok (map Notions.without_type results)
    | Throw _ => exists e, mapi_from DirectionsGuarded.to_result i items = Throw e
    end.
Proof.
  induction items as [|item items IH]; intros i; [reflexivity|].
  cbn [mapi_from].
  assert (match SearchPanel.to_result i item with
          | Ok result => DirectionsGuarded.to_result i item
                         = Ok (Notions.without_type result)
          | Throw _ => exists e, DirectionsGuarded.to_result i item = Throw e
          end) as Hitem.
  { unfold SearchPanel.to_result, DirectionsGuarded.to_result.
    destruct (get "place_id" item) as [place_id|] eqn:E1; cbn [bind]; [|eauto].
    destruct (toString_opt place_id); cbn [bind]; [|eauto].
    destruct (get "display_name" item) as [dn|]; cbn [bind]; [|eauto].
    destruct (split_comma_first dn); cbn [bind]; [|eauto].
    destruct (get "lon" item) as [lon|]; cbn [bind]; [|eauto].
    destruct (parseFloat lon); cbn [bind]; [|eauto].
    destruct (get "lat" item) as [lat|]; cbn [bind]; [|eauto].
    destruct (parseFloat lat); cbn [bind]; [|eauto].
    destruct (get_after_get "place_id" "type" item place_id E1) as [type ->].
    reflexivity. }
  destruct (SearchPanel.to_result i item) as [result|]; cbn [bind].
  - rewrite Hitem. cbn [bind]. specialize (IH (S i)).
    destruct (mapi_from SearchPanel.to_result (S i) items) as [results|]; cbn [bind].
    + rewrite IH. reflexivity.
    + destruct IH as [e' ->]. cbn. eauto.
  - destruct Hitem as [e' ->]. cbn. eauto.
Qed.

(** X5. The directions panel's suggestions are the search panel's results
    without their type: for every query that is not blank and every answer of
    the geocoder, the two [searchLocations] give the same places in the same
    order, and nothing when the other gives nothing. *)
Theorem suggestions_are_the_search_results
  (q : string) (p : SearchPanel.panel) (r : fetched) :
  Notions.whitespace_only q = false ->
  resolve (DirectionsGuarded.searchLocations q) r
  = map Notions.without_type
      (SearchPanel.searchResults (fst (complete (SearchPanel.searchLocations q p) r))).
Proof.
  intros Hq.
  assert (String.eqb (trim q) "" = false) as Ht.
  { apply String.eqb_neq. intros E. apply trim_whitespace_only in E. congruence. }
  unfold SearchPanel.searchLocations, DirectionsGuarded.searchLocations. rewrite Ht.
  cbn [complete resolve fst SearchPanel.setIsLoading SearchPanel.setSearchResults
         SearchPanel.searchResults].
  unfold SearchPanel.try_results.
  destruct r as [| |data]; try reflexivity. cbn [json_of bind].
  destruct data as [ | | | | |items| ]; try reflexivity. cbn [map_array].
  pose proof (guarded_results_agree items 0%nat) as H.
  destruct (mapi_from SearchPanel.to_result 0 items) as [results|].
  - rewrite H. reflexivity.
  - destruct H as [e' ->]. reflexivity.
Qed.

Lemma suggestions_are_the_search_results_witness :
  resolve (DirectionsGuarded.searchLocations "Central Park") Samples.central_park_answer
  = map Notions.without_type
      (SearchPanel.searchResults
         (fst (complete (SearchPanel.searchLocations "Central Park" SearchPanel.initial)
                 Samples.central_park_answer))).
Proof.
  exact (suggestions_are_the_search_results "Central Park" SearchPanel.initial
           Samples.central_park_answer eq_refl).
Defined.

(** ** Recent searches *)

Lemma in_firstn {A : Type} (n : nat) (l : list A) (x : A) :
  In x (firstn n l) -> In x l.
Proof.
  revert l. induction n as [|n IH]; intros [|a l]; cbn; try contradiction.
  intros [-> | H]; auto.
Qed.

Lemma NoDup_firstn {A : Type} (n : nat) (l : list A) : NoDup l -> NoDup (firstn n l).
Proof.
  intros H. rewrite <- (firstn_skipn n l) in H. exact (NoDup_app_remove_r _ _ H).
Qed.

Lemma NoDup_map_filter {A B : Type} (f : A -> B) (g : A -> bool) (l : list A) :
  NoDup (map f l) -> NoDup (map f (filter g l)).
Proof.
  induction l as [|a l IH]; cbn; [auto|]. intros H. inversion H; subst.
  destruct (g a); cbn; auto. constructor; auto.
  intros Hin. apply H2. apply in_map_iff in Hin. destruct Hin as (x & Hx & Hin).
  apply filter_In in Hin. apply in_map_iff. exists x. tauto.
Qed.

Lemma strict_equal_strings (a : value) (s : string) :
  strict_equal a (VString s) = false -> a <> VString s.
Proof.
  intros H ->. cbn in H. now rewrite String.eqb_refl in H.
Qed.

(** X6. A click on a search result hands exactly the clicked place to
    [onLocationSelect], clears the query and the results, and puts the place
    first among the recent searches, which stay in shape: five at most, and
    no id twice, an earlier entry with the clicked id being dropped and every
    other entry being one that was there before. *)
Theorem recent_searches_stay_in_shape (result : SearchResult.t) (p : SearchPanel.panel) :
  Notions.recents_ok (SearchPanel.recentSearches p) ->
  (exists s, SearchResult.id result = VString s) ->
  let done := SearchPanel.handleLocationClick result p in
  let location :=
    Location.mk (SearchResult.id result) (SearchResult.name result)
      (SearchResult.address result) (SearchResult.coordinates result) in
  snd done = [location]
  /\ Notions.recents_ok (SearchPanel.recentSearches (fst done))
  /\ hd_error (SearchPanel.recentSearches (fst done)) = Some location
  /\ (forall r, In r (SearchPanel.recentSearches (fst done)) ->
                r = location
                \/ (In r (SearchPanel.recentSearches p)
                    /\ Location.id r <> SearchResult.id result))
  /\ SearchPanel.searchQuery (fst done) = ""
  /\ SearchPanel.searchResults (fst done) = [].
Proof.
  intros (Hlen & Hids & Hnodup) [s Hs]. cbv zeta.
  unfold SearchPanel.handleLocationClick, SearchPanel.saveToRecent.
  cbn [fst snd SearchPanel.recentSearches SearchPanel.setSearchResults
         SearchPanel.setSearchQuery SearchPanel.setRecentSearches
         SearchPanel.searchQuery SearchPanel.searchResults Location.id].
  set (location := Location.mk (SearchResult.id result) (SearchResult.name result)
                     (SearchResult.address result) (SearchResult.coordinates result)).
  set (others := filter (fun r => negb (strict_equal (Location.id r) (SearchResult.id result)))
                   (SearchPanel.recentSearches p)).
  assert (forall r, In r others ->
                    In r (SearchPanel.recentSearches p)
                    /\ Location.id r <> SearchResult.id result) as Hothers.
  { intros r Hr. apply filter_In in Hr. destruct Hr as [Hin Hne]. split; [exact Hin|].
    rewrite Hs in Hne |- *. apply strict_equal_strings.
    now apply negb_true_iff in Hne. }
  repeat split; auto.
  - apply firstn_le_length.
  - intros r Hr. apply in_firstn in Hr. destruct Hr as [<- | Hr].
    + exists s. exact Hs.
    + apply Hids. now apply Hothers.
  - rewrite <- firstn_map. apply NoDup_firstn. cbn [map Location.id]. constructor.
    + intros Hin. apply in_map_iff in Hin. destruct Hin as (r & Hr & Hin).
      apply Hothers in Hin. now destruct Hin.
    + now apply NoDup_map_filter.
  - intros r Hr. apply in_firstn in Hr. destruct Hr as [<- | Hr]; auto.
Qed.

Lemma recent_searches_stay_in_shape_witness :
  let result := SearchResult.mk (VString "2") (VString "Central Park")
                  (VString "Central Park, New York")
                  ((-73.9654)%float, 40.7829%float) (VString "park") in
  let done := SearchPanel.handleLocationClick result SearchPanel.initial in
  let location :=
    Location.mk (SearchResult.id result) (SearchResult.name result)
      (SearchResult.address result) (SearchResult.coordinates result) in
  snd done = [location]
  /\ Notions.recents_ok (SearchPanel.recentSearches (fst done))
  /\ hd_error (SearchPanel.recentSearches (fst done)) = Some location
  /\ (forall r, In r (SearchPanel.recentSearches (fst done)) ->
                r = location
                \/ (In r (SearchPanel.recentSearches SearchPanel.initial)
                    /\ Location.id r <> SearchResult.id result))
  /\ SearchPanel.searchQuery (fst done) = ""
  /\ SearchPanel.searchResults (fst done) = [].
Proof.
  refine (recent_searches_stay_in_shape
            (SearchResult.mk (VString "2") (VString "Central Park")
               (VString "Central Park, New York")
               ((-73.9654)%float, 40.7829%float) (VString "park"))
            SearchPanel.initial _ _).
  - split; [apply Nat.le_0_l|]. split; [intros r H; destruct H|constructor].
  - exists "2". reflexivity.
Defined.

(* ================================================================== *)
(** * More on the page and its map                                      *)
(* ================================================================== *)

(** ** The base map *)

Lemma base_moved (f : Leaflet.map -> Leaflet.map) (v : MapView.refs) :
  (forall m, Leaflet.layers (f m) = Leaflet.layers m
             /\ Leaflet.fresh (f m) = Leaflet.fresh m) ->
  Notions.one_base_map v -> Notions.one_base_map (MapView.on_map f v).
Proof.
  unfold Notions.one_base_map, MapView.on_map. intros Hf.
  destruct (MapView.mapRef v) as [m|] eqn:Hm; cbn; [|now rewrite Hm].
  destruct (Hf m) as [-> ->]. auto.
Qed.

Lemma base_added (l : Leaflet.layer) (v : MapView.refs) :
  Notions.is_tiles l = false ->
  Notions.one_base_map v -> Notions.one_base_map (MapView.add_tracked l v).
Proof.
  unfold Notions.one_base_map. intros Hl.
  destruct (MapView.mapRef v) as [m|] eqn:Hm.
  - rewrite (add_tracked_map _ _ _ Hm). cbn. intros (Hb & Hf & Hh & Hl').
    rewrite filter_app. cbn. rewrite Hl, app_nil_r.
    repeat split; auto.
    intros h Hin. apply in_app_or in Hin as [Hin | [<- | []]]; auto.
  - unfold MapView.add_tracked. rewrite Hm. now rewrite Hm.
Qed.

Lemma filter_swap {A : Type} (f g : A -> bool) (l : list A) :
  filter f (filter g l) = filter g (filter f l).
Proof.
  induction l as [|x l IH]; cbn; [reflexivity|].
  destruct (f x) eqn:Ef, (g x) eqn:Eg; cbn; rewrite ?Ef, ?Eg, IH; reflexivity.
Qed.

Lemma base_cleared (v : MapView.refs) :
  Notions.one_base_map v -> Notions.one_base_map (MapView.clearMarkers v).
Proof.
  unfold Notions.one_base_map.
  destruct (MapView.mapRef v) as [m|] eqn:Hm.
  - rewrite (clearMarkers_map _ _ Hm). cbn. intros (Hb & Hf & Hh & Hl).
    repeat split; auto; [|intros h []].
    unfold App.kept. rewrite filter_swap, Hb. cbn [filter fst].
    destruct (existsb (Nat.eqb 0) (MapView.markersRef v)) eqn:E; [|reflexivity].
    apply existsb_exists in E as (h & Hin & Eh). apply Nat.eqb_eq in Eh. subst h.
    apply Hh in Hin. lia.
  - intros [Hn Hl]. unfold MapView.clearMarkers. rewrite Hn. cbn. now rewrite Hm.
Qed.

Lemma base_selected (s : option Location.t) (v : MapView.refs) :
  Notions.one_base_map v -> Notions.one_base_map (MapView.effect_selectedLocation s v).
Proof.
  intros H. unfold MapView.effect_selectedLocation.
  destruct s; [|exact H]. destruct (MapView.mapRef v); [|exact H].
  apply base_added; [reflexivity|]. apply base_moved; [now intros|].
  now apply base_cleared.
Qed.

Lemma base_current (c : option Location.t) (v : MapView.refs) :
  Notions.one_base_map v -> Notions.one_base_map (MapView.effect_currentLocation c v).
Proof.
  intros H. unfold MapView.effect_currentLocation.
  destruct c; [|exact H]. destruct (MapView.mapRef v); [|exact H].
  now apply base_added.
Qed.

Lemma base_route (r : option Route.t) (v : MapView.refs) :
  Notions.one_base_map v -> Notions.one_base_map (MapView.effect_route r v).
Proof.
  intros H. unfold MapView.effect_route.
  destruct r; [|exact H]. destruct (MapView.mapRef v); [|exact H].
  apply base_moved; [now intros|]. now apply base_added.
Qed.

Lemma base_zoom (z : option point) (v : MapView.refs) :
  Notions.one_base_map v -> Notions.one_base_map (MapView.effect_zoomToCoordinates z v).
Proof.
  intros H. unfold MapView.effect_zoomToCoordinates.
  destruct z; [|exact H]. destruct (MapView.mapRef v); [|exact H].
  now apply base_moved.
Qed.

Lemma base_initialized (imported : bool) (v : MapView.refs) :
  Notions.one_base_map v ->
  Notions.one_base_map (fst (MapView.initializeMap imported v)).
Proof.
  intros H. unfold MapView.initializeMap.
  destruct (MapView.mapRef v) eqn:Hm; [exact H|].
  destruct imported; [|exact H].
  unfold Notions.one_base_map in *. rewrite Hm in H. destruct H as [Hn _].
  cbn. rewrite Hn. repeat split; auto. intros h [].
Qed.

Lemma fold_select_base (calls : list Location.t) :
  forall a, Notions.one_base_map (App.view a) ->
            Notions.one_base_map
              (App.view (fold_left (fun a' location => App.clickSelected location a')
                           calls a)).
Proof.
  induction calls as [|c calls IH]; intros a H; cbn [fold_left]; [exact H|].
  apply IH. unfold App.clickSelected. cbn [App.view]. now apply base_selected.
Qed.

Lemma base_select (held : bool) (location : Location.t) (a : App.app) :
  Notions.one_base_map (App.view a) ->
  Notions.one_base_map (App.view (App.selectLocation held location a)).
Proof.
  intros H. unfold App.selectLocation. cbn [App.view].
  destruct held; [exact H|]. now apply base_selected.
Qed.

Lemma base_step (a : App.app) (e : App.event) :
  Notions.one_base_map (App.view a) -> Notions.one_base_map (App.view (App.step a e)).
Proof.
  intros H. destruct e; cbn [App.step].
  - now apply base_initialized.
  - now apply fold_select_base.
  - destruct (Index.isDirectionsMode (App.page a)); [exact H|]. now apply base_select.
  - destruct (Index.isDirectionsMode (App.page a)); [exact H|]. now apply base_select.
  - unfold App.foundCurrentLocation. cbn [MapView.on_position complete fold_left].
    unfold App.currentLocationFound. cbn [App.view].
    apply base_current.
    apply (base_moved _ (App.view a)); [now intros|exact H].
  - unfold App.directionsToggle. cbn [App.view]. now apply base_route.
  - unfold App.routeCalculated. cbn [App.view]. now apply base_route.
  - unfold App.stepClick. cbn [App.view]. now apply base_zoom.
  - unfold App.stepClick_timeout. cbn [App.view]. now apply base_zoom.
Qed.

(** X7. Whatever the user does, once the map is there it has exactly one
    tile layer, the first layer made: no clearing of markers takes it off the
    map, since the view never tracks it, and a second [initializeMap] adds
    none. Until the map is there the view tracks nothing; the map is marked
    loaded exactly when there is one. *)
Theorem one_base_map_always (events : list App.event) :
  Notions.one_base_map (App.view (App.run events)).
Proof.
  unfold App.run.
  assert (forall a, Notions.one_base_map (App.view a) ->
                    Notions.one_base_map (App.view (fold_left App.step events a))) as H.
  { induction events as [|e events IH]; intros a Ha; cbn [fold_left]; [exact Ha|].
    now apply IH, base_step. }
  apply H. cbn. auto.
Qed.

(** ** The destination *)

(** The click handler of the map, with the [handleLocationSelect] of the
    first render, leaves the destination as it is. *)
Lemma fold_click_destination (calls : list Location.t) :
  forall a, Index.destination
              (App.page (fold_left (fun a' location => App.clickSelected location a')
                           calls a))
            = Index.destination (App.page a).
Proof.
  induction calls as [|c calls IH]; intros a; cbn [fold_left]; [reflexivity|].
  now rewrite IH.
Qed.

(** No event sets a destination. *)
Lemma step_sets_no_destination (a : App.app) (e : App.event) :
  Index.destination (App.page a) = None ->
  Index.destination (App.page (App.step a e)) = None.
Proof.
  intros H. destruct e; cbn [App.step].
  - exact H.
  - unfold App.mapClick. now rewrite fold_click_destination.
  - destruct (Index.isDirectionsMode (App.page a)) eqn:Hd; [exact H|].
    unfold App.selectLocation. cbn [App.page Index.handleLocationSelect Index.destination].
    now rewrite Hd.
  - destruct (Index.isDirectionsMode (App.page a)) eqn:Hd; [exact H|].
    unfold App.selectLocation. cbn [App.page Index.handleLocationSelect Index.destination].
    now rewrite Hd.
  - unfold App.foundCurrentLocation. cbn [MapView.on_position complete fold_left].
    exact H.
  - reflexivity.
  - exact H.
  - exact H.
  - exact H.
Qed.

Lemma run_sets_no_destination (events : list App.event) :
  Index.destination (App.page (App.run events)) = None.
Proof.
  unfold App.run.
  assert (forall a, Index.destination (App.page a) = None ->
                    Index.destination (App.page (fold_left App.step events a)) = None)
    as H.
  { induction events as [|e events IH]; intros a Ha; cbn [fold_left]; [exact Ha|].
    now apply IH, step_sets_no_destination. }
  now apply H.
Qed.


(** ** Route lines *)

(** X9. Each calculated route adds one line to an initialised map, in
    [lat, lng] order, fits the viewport to it and keeps everything drawn
    before, earlier lines included. Leaving directions mode afterwards clears
    the page's route and destination but nothing on the map: the line stays
    drawn. *)
Theorem route_lines_pile_up (a : App.app) (m : Leaflet.map) (route : Route.t) :
  MapView.mapRef (App.view a) = Some m ->
  let latlngs := map (fun c : point => (snd c, fst c)) (Route.geometry route) in
  let a' := App.routeCalculated route a in
  (exists m',
     MapView.mapRef (App.view a') = Some m'
     /\ Leaflet.layers m' = (Leaflet.layers m ++ [(Leaflet.fresh m, Leaflet.Polyline latlngs)])%list
     /\ Leaflet.polylines m'
        = (Leaflet.polylines m ++ [(Leaflet.fresh m, Leaflet.Polyline latlngs)])%list
     /\ Leaflet.view m' = Leaflet.Fitted latlngs)
  /\ MapView.markersRef (App.view a')
     = (MapView.markersRef (App.view a) ++ [Leaflet.fresh m])%list
  /\ Index.route (App.page a') = Some route
  /\ App.view (App.directionsToggle a') = App.view a'
  /\ Index.route (App.page (App.directionsToggle a')) = None
  /\ Index.destination (App.page (App.directionsToggle a')) = None.
Proof.
  intros Hm. cbv zeta. unfold App.routeCalculated, App.directionsToggle.
  cbn [App.view App.page Index.handleRouteCalculated Index.handleDirectionsToggle
         Index.route Index.destination MapView.effect_route].
  rewrite Hm. rewrite (add_tracked_map _ _ _ Hm). cbn.
  repeat split; auto.
  eexists. split; [reflexivity|]. cbn. repeat split; auto.
  unfold Leaflet.polylines. cbn. now rewrite filter_app.
Qed.

Lemma route_lines_pile_up_witness :
  let a := App.run [App.MapReady true; App.RouteCalculated Samples.the_route] in
  let latlngs := map (fun c : point => (snd c, fst c)) (Route.geometry Samples.the_route) in
  let a' := App.routeCalculated Samples.the_route a in
  exists m',
    MapView.mapRef (App.view a') = Some m'
    /\ Leaflet.polylines m'
       = [(1%nat, Leaflet.Polyline latlngs); (2%nat, Leaflet.Polyline latlngs)].
Proof.
  destruct (proj1 (route_lines_pile_up
                     (App.run [App.MapReady true; App.RouteCalculated Samples.the_route])
                     _ Samples.the_route eq_refl))
    as (m' & Hm & _ & Hp & _).
  exists m'. split; [exact Hm|exact Hp].
Defined.

(** ** Step clicks *)



(** ** Clicks on the map *)

Lemma click_gives_one (lat lng : number) (r : fetched) (clock : N) :
  exists name address,
    resolve (MapView.on_click lat lng) r clock
    = [Location.mk (VString (string_of_N clock)) name address (lng, lat)].
Proof.
  cbn [MapView.on_click resolve]. unfold MapView.try_click.
  destruct r as [| |data]; cbn [json_of bind]; eauto.
  destruct (get "display_name" data) as [dn|]; cbn [bind]; eauto.
  destruct (match dn with
            | VUndefined | VNull => Ok VUndefined
            | _ => split_comma_first dn
            end); cbn [bind]; eauto.
Qed.

(** X11. No click sets the destination. A click on the Leaflet map makes
    one location, at the click's [lng, lat], and selects it, but in
    directions mode as outside of it the destination stays what it was: the
    click handler calls the [handleLocationSelect] of the first render, which
    has seen neither directions mode nor a current location. The search panel,
    the other caller, is there only outside directions mode. So in every state
    the page reaches the destination is [null]. *)
Theorem clicks_set_no_destination
  (a : App.app) (events : list App.event) (lat lng : number) (r : fetched) (clock : N) :
  let a' := App.mapClick lat lng r clock a in
  (exists location,
     resolve (MapView.on_click lat lng) r clock = [location]
     /\ Location.coordinates location = (lng, lat)
     /\ Index.selectedLocation (App.page a') = Some location
     /\ Index.destination (App.page a') = Index.destination (App.page a)
     /\ Index.currentLocation (App.page a') = Index.currentLocation (App.page a)
     /\ Index.route (App.page a') = Index.route (App.page a)
     /\ Index.isDirectionsMode (App.page a') = Index.isDirectionsMode (App.page a))
  /\ (forall (held : bool) location,
        Index.isDirectionsMode (App.page a) = false ->
        Index.destination (App.page (App.selectLocation held location a))
        = Index.destination (App.page a))
  /\ Index.destination (App.page (App.run events)) = None.
Proof.
  cbv zeta. split; [|split].
  - unfold App.mapClick.
    destruct (click_gives_one lat lng r clock) as (name & address & ->).
    eexists. split; [reflexivity|]. cbn [fold_left]. unfold App.clickSelected.
    cbn [App.page Index.handleLocationSelect_of Index.selectedLocation Index.destination
           Index.currentLocation Index.route Index.isDirectionsMode Location.coordinates
           Index.initial].
    repeat split; auto.
  - intros held location Hd. unfold App.selectLocation.
    cbn [App.page Index.handleLocationSelect Index.destination]. now rewrite Hd.
  - apply run_sets_no_destination.
Qed.

(** X12. The Mapbox view's click handler passes on one location or none.
    It passes on one exactly when the answer has features, a truthy
    [features] of positive length, the first of which has properties to read:
    the location is at the click's [lng, lat], has [Date.now()] as its id, is
    named after that feature's [text] and addressed by its [place_name], with
    "Selected Location" and the formatted pair standing in for blank ones. It
    passes on none when the request fails, the body is no JSON, the answer has
    no features, or the first feature is [null] or [undefined], which ends in
    the [catch]. *)
Theorem mapbox_click_needs_a_feature
  (lng lat : number) (token : string) (r : fetched) (clock : N) :
  let calls := resolve (MapViewMapbox.on_click lng lat token) r clock in
  let made text place_name :=
    Location.mk (VString (string_of_N clock))
      (or_else text (VString "Selected Location"))
      (or_else place_name (VString (format_pair lat lng)))
      (lng, lat) in
  (forall data features feature text place_name,
     r = Json data ->
     MapViewMapbox.has_features data = Ok true ->
     get "features" data = Ok features ->
     index 0 features = Ok feature ->
     get "text" feature = Ok text ->
     get "place_name" feature = Ok place_name ->
     calls = [made text place_name])
  /\ (calls = []
      \/ exists data features feature text place_name,
           r = Json data
           /\ MapViewMapbox.has_features data = Ok true
           /\ get "features" data = Ok features
           /\ index 0 features = Ok feature
           /\ get "text" feature = Ok text
           /\ get "place_name" feature = Ok place_name
           /\ calls = [made text place_name])
  /\ (r = Rejected \/ r = NotJson
      \/ (exists data, r = Json data /\ MapViewMapbox.has_features data = Ok false) ->
      calls = [])
  /\ (forall data features feature,
        r = Json data ->
        MapViewMapbox.has_features data = Ok true ->
        get "features" data = Ok features ->
        index 0 features = Ok feature ->
        feature = VNull \/ feature = VUndefined ->
        calls = []).
Proof.
  cbv zeta. cbn [MapViewMapbox.on_click resolve]. unfold MapViewMapbox.try_click.
  split; [|split; [|split]].
  - intros data features feature text place_name -> Hf E1 E2 E3 E4.
    cbn [json_of bind]. rewrite Hf. cbn [bind]. rewrite E1. cbn [bind].
    rewrite E2. cbn [bind]. rewrite E3. cbn [bind]. rewrite E4. reflexivity.
  - destruct r as [| |data]; cbn [json_of bind]; auto.
    destruct (MapViewMapbox.has_features data) as [[|]|] eqn:Hf; cbn [bind]; auto.
    destruct (get "features" data) as [features|] eqn:E1; cbn [bind]; auto.
    destruct (index 0 features) as [feature|] eqn:E2; cbn [bind]; auto.
    destruct (get "text" feature) as [text|] eqn:E3; cbn [bind]; auto.
    destruct (get "place_name" feature) as [place_name|] eqn:E4; cbn [bind]; auto.
    right. exists data, features, feature, text, place_name. repeat split; auto.
  - intros [-> | [-> | (data & -> & Hf)]]; try reflexivity.
    cbn [json_of bind]. rewrite Hf. reflexivity.
  - intros data features feature -> Hf E1 E2 Hnull.
    cbn [json_of bind]. rewrite Hf. cbn [bind]. rewrite E1. cbn [bind].
    rewrite E2. cbn [bind]. destruct Hnull as [-> | ->]; reflexivity.
Qed.

Lemma mapbox_click_needs_a_feature_witness :
  resolve (MapViewMapbox.on_click (-73.9855)%float 40.758%float "pk.token")
    (Json (VObject [("features",
                     VArray [VObject [("text", VString "Times Square");
                                      ("place_name",
                                       VString "Times Square, Manhattan, New York")]])]))
    1700000000000%N
  = [Location.mk (VString "1700000000000") (VString "Times Square")
       (VString "Times Square, Manhattan, New York") ((-73.9855)%float, 40.758%float)]
  /\ resolve (MapViewMapbox.on_click (-73.9855)%float 40.758%float "pk.token")
       (Json (VObject [("features", VArray [VNull])])) 1700000000000%N
     = [].
Proof.
  split.
  - exact (proj1 (mapbox_click_needs_a_feature (-73.9855)%float 40.758%float "pk.token"
                    (Json (VObject [("features",
                                     VArray [VObject [("text", VString "Times Square");
                                                      ("place_name",
                                                       VString
                                                         "Times Square, Manhattan, New York")]])]))
                    1700000000000%N)
             _ _ _ _ _ eq_refl eq_refl eq_refl eq_refl eq_refl eq_refl).
  - exact (proj2 (proj2 (proj2
             (mapbox_click_needs_a_feature (-73.9855)%float 40.758%float "pk.token"
                (Json (VObject [("features", VArray [VNull])])) 1700000000000%N)))
             _ _ _ eq_refl eq_refl eq_refl eq_refl (or_introl eq_refl)).
Defined.

(** ** "My Location" without a position *)

(** X13. When the device gives no position, the Leaflet view only tells
    the user: one toast titled "Location Error" whose text tells the three
    error codes apart, the spinner off, the map and the tracked layers as they
    were. Without geolocation in the browser the button gives the one toast
    "Geolocation is not supported by this browser." and the spinner is off
    again at once. *)
Theorem no_position_is_only_reported (v : MapView.refs) (code : position_error) :
  let asked := fst (MapView.getCurrentLocation true v) in
  let failed := MapView.on_position_error code asked in
  MapView.isLoadingLocation asked = true
  /\ snd (MapView.getCurrentLocation true v) = []
  /\ MapView.isLoadingLocation (fst failed) = false
  /\ MapView.mapRef (fst failed) = MapView.mapRef v
  /\ MapView.markersRef (fst failed) = MapView.markersRef v
  /\ (exists description,
        snd failed = [Toast "Location Error" description]
        /\ forall code', snd (MapView.on_position_error code' asked) = snd failed ->
                         code' = code)
  /\ MapView.isLoadingLocation (fst (MapView.getCurrentLocation false v)) = false
  /\ MapView.mapRef (fst (MapView.getCurrentLocation false v)) = MapView.mapRef v
  /\ snd (MapView.getCurrentLocation false v)
     = [Toast "Error" "Geolocation is not supported by this browser."].
Proof.
  cbv zeta. repeat split.
  eexists. split; [reflexivity|].
  intros code' H. destruct code, code'; try reflexivity; cbn in H; discriminate H.
Qed.

(* ================================================================== *)
(** * What the directions panels print                                  *)
(* ================================================================== *)

Lemma holds_from_sound (f : N -> bool) (count : nat) :
  forall first,
    Notions.holds_from f count first = true ->
    forall n, (first <= n < first + N.of_nat count)%N -> f n = true.
Proof.
  induction count as [|count IH]; intros first H n Hn; [lia|].
  cbn [Notions.holds_from] in H. apply andb_true_iff in H as [H1 H2].
  destruct (N.eq_dec n first) as [-> | Hne]; [exact H1|].
  apply (IH (N.succ first) H2). lia.
Qed.

(** X14. A duration of a whole number of seconds, up to two hours, is
    printed to the nearest minute, the half minute counting up: as "<m> min"
    below an hour of minutes, as "<h>h <m>m" from there on; 3570 s is already
    "1h 0m". *)
Theorem formatDuration_of_whole_seconds (seconds : N) :
  (seconds <= 7200)%N ->
  DirectionsFormat.formatDuration (Notions.whole seconds)
  = Ok (Notions.duration_text seconds).
Proof.
  intros H.
  assert (Notions.duration_agrees seconds = true) as Ha.
  { apply (holds_from_sound Notions.duration_agrees (N.to_nat 7201) 0%N).
    - vm_compute. reflexivity.
    - lia. }
  unfold Notions.duration_agrees in Ha.
  destruct (DirectionsFormat.formatDuration (Notions.whole seconds)); [|discriminate].
  apply String.eqb_eq in Ha. now subst.
Qed.

Lemma formatDuration_of_whole_seconds_witness :
  DirectionsFormat.formatDuration (VNumber 3570%float) = Ok "1h 0m".
Proof.
  refine (formatDuration_of_whole_seconds 3570 _). vm_compute. discriminate.
Defined.

(** X15. A distance of a whole number of metres, up to 10 km, is printed
    in metres as it is below a kilometre, and from there on in kilometres
    with one decimal, at most 50 m away from the distance. *)
Theorem formatDistance_of_whole_metres (meters : N) :
  (meters <= 10000)%N ->
  exists t,
    DirectionsFormat.formatDistance (Notions.whole meters) = Ok t
    /\ ((meters < 1000)%N -> t = string_of_N meters ++ " m")
    /\ ((1000 <= meters)%N ->
        exists tenths,
          t = Notions.km_text tenths
          /\ (100 * tenths <= meters + 50)%N /\ (meters <= 100 * tenths + 50)%N).
Proof.
  intros H.
  assert (Notions.distance_agrees meters = true) as Ha.
  { apply (holds_from_sound Notions.distance_agrees (N.to_nat 10001) 0%N).
    - vm_compute. reflexivity.
    - lia. }
  unfold Notions.distance_agrees in Ha.
  destruct (DirectionsFormat.formatDistance (Notions.whole meters)) as [t|]; [|discriminate].
  exists t. split; [reflexivity|]. unfold Notions.distance_text_ok in Ha.
  destruct (N.ltb meters 1000) eqn:El.
  - apply N.ltb_lt in El. apply String.eqb_eq in Ha. split; [auto|lia].
  - apply N.ltb_ge in El. split; [lia|]. intros _.
    apply orb_true_iff in Ha as [Ha | Ha];
      apply andb_true_iff in Ha as [Ht Hc];
      apply String.eqb_eq in Ht; apply andb_true_iff in Hc as [H1 H2];
      apply N.leb_le in H1, H2; eauto.
Qed.

Lemma formatDistance_of_whole_metres_witness :
  exists t,
    DirectionsFormat.formatDistance (VNumber 1250%float) = Ok t
    /\ ((1250 < 1000)%N -> t = "1250 m")
    /\ ((1000 <= 1250)%N ->
        exists tenths,
          t = Notions.km_text tenths
          /\ (100 * tenths <= 1250 + 50)%N /\ (1250 <= 100 * tenths + 50)%N).
Proof.
  refine (formatDistance_of_whole_metres 1250 _). vm_compute. discriminate.
Defined.

Lemma nan_is_one (x : number) : is_nan x = true -> x = nan.
Proof.
  unfold is_nan. intros H. apply negb_true_iff in H. rewrite eqb_spec in H.
  apply Prim2SF_inj. destruct (Prim2SF x) as [s|s| |s m e].
  - destruct s; discriminate H.
  - destruct s; discriminate H.
  - reflexivity.
  - unfold SFeqb, SFcompare in H.
    destruct s; rewrite Z.compare_refl, Pos.compare_cont_refl in H; discriminate H.
Qed.

(** X16. A duration or distance that is no number (a field the routing
    answer lacks, say: the route takes them over as they come) is printed as
    "NaNh NaNm" and "NaN km". *)
Theorem missing_numbers_print_NaN (v : value) (x : number) :
  ToNumber v = Ok x -> is_nan x = true ->
  DirectionsFormat.formatDuration v = Ok "NaNh NaNm"
  /\ DirectionsFormat.formatDistance v = Ok "NaN km".
Proof.
  intros Hv Hx. apply nan_is_one in Hx. subst x.
  unfold DirectionsFormat.formatDuration, DirectionsFormat.formatDistance, less_than.
  rewrite Hv. cbn [bind]. split; vm_compute; reflexivity.
Qed.

Lemma missing_numbers_print_NaN_witness :
  DirectionsFormat.formatDuration VUndefined = Ok "NaNh NaNm"
  /\ DirectionsFormat.formatDistance VUndefined = Ok "NaN km".
Proof.
  exact (missing_numbers_print_NaN VUndefined nan eq_refl eq_refl).
Defined.

(* ================================================================== *)
(** * Every keystroke is searched                                       *)
(* ================================================================== *)

Lemma fires_send (due : list (nat * string)) :
  forall w,
    Forall (fun x => Notions.whitespace_only (snd x) = false) due ->
    Notions.asked (fold_left SearchLoop.fire due w)
    = (Notions.asked w ++ map snd due)%list
    /\ SearchLoop.issued (fold_left SearchLoop.fire due w)
       = (SearchLoop.issued w + List.length due)%nat
    /\ SearchLoop.timers (fold_left SearchLoop.fire due w) = SearchLoop.timers w
    /\ SearchLoop.now (fold_left SearchLoop.fire due w) = SearchLoop.now w.
Proof.
  induction due as [|[t q] due IH]; intros w Hd; cbn [fold_left map List.length].
  - rewrite app_nil_r, Nat.add_0_r. auto.
  - inversion Hd as [|x l Hq Hrest]; subst. cbn [snd] in Hq.
    destruct (fire_sends w t q Hq) as (Hi & Ha & Ht & Hn).
    destruct (IH (SearchLoop.fire w (t, q)) Hrest) as (Ia & Ii & It & In').
    rewrite Ia, Ii, It, In'. unfold Notions.asked. rewrite Ha, Hi, Ht, Hn.
    rewrite <- app_assoc. cbn [app snd]. repeat split; auto; lia.
Qed.

Lemma sorted_split (t : nat) (l : list (nat * string)) :
  StronglySorted (fun x y : nat * string => (fst x <= fst y)%nat) l ->
  (filter (fun x => Nat.leb (fst x) t) l
   ++ filter (fun x => negb (Nat.leb (fst x) t)) l)%list = l.
Proof.
  induction 1 as [|x l Hs IH Hall]; [reflexivity|]. cbn [filter].
  destruct (Nat.leb (fst x) t) eqn:E; cbn [negb app].
  - now rewrite IH.
  - apply Nat.leb_gt in E.
    assert (forall y, In y l -> Nat.leb (fst y) t = false) as Hl.
    { intros y Hy. apply Nat.leb_gt. rewrite Forall_forall in Hall.
      specialize (Hall y Hy). lia. }
    rewrite (filter_none _ l Hl). cbn [app]. f_equal.
    clear - Hl. induction l as [|y l IHl]; [reflexivity|]. cbn [filter].
    rewrite (Hl y (or_introl eq_refl)). cbn [negb]. f_equal.
    apply IHl. intros z Hz. apply Hl. now right.
Qed.

Lemma sorted_filter (f : nat * string -> bool) (l : list (nat * string)) :
  StronglySorted (fun x y : nat * string => (fst x <= fst y)%nat) l ->
  StronglySorted (fun x y : nat * string => (fst x <= fst y)%nat) (filter f l).
Proof.
  induction 1 as [|x l Hs IH Hall]; cbn [filter]; [constructor|].
  destruct (f x); [|exact IH]. constructor; [exact IH|].
  rewrite Forall_forall in *. intros y Hy. apply filter_In in Hy. now apply Hall.
Qed.

(** Time passing sends the queries of the timers that are due and forgets
    none of the others. *)
Lemma elapse_keeps (ms : nat) (w : SearchLoop.world) :
  Notions.timers_ok w ->
  Notions.timers_ok (SearchLoop.elapse ms w)
  /\ (Notions.asked (SearchLoop.elapse ms w)
      ++ map snd (SearchLoop.timers (SearchLoop.elapse ms w)))%list
     = (Notions.asked w ++ map snd (SearchLoop.timers w))%list
  /\ (SearchLoop.issued (SearchLoop.elapse ms w)
      + List.length (SearchLoop.timers (SearchLoop.elapse ms w)))%nat
     = (SearchLoop.issued w + List.length (SearchLoop.timers w))%nat
  /\ SearchLoop.now (SearchLoop.elapse ms w) = (SearchLoop.now w + ms)%nat.
Proof.
  intros [Hs Hf]. unfold SearchLoop.elapse.
  set (t := (SearchLoop.now w + ms)%nat).
  set (due := filter (fun x => Nat.leb (fst x) t) (SearchLoop.timers w)).
  set (later := filter (fun x => negb (Nat.leb (fst x) t)) (SearchLoop.timers w)).
  set (w0 := SearchLoop.mk t (SearchLoop.panel w) later (SearchLoop.inflight w)
               (SearchLoop.issued w) (SearchLoop.commits w)).
  assert (Forall (fun x => Notions.whitespace_only (snd x) = false) due) as Hdue.
  { apply Forall_forall. intros x Hx. apply filter_In in Hx as [Hx _].
    rewrite Forall_forall in Hf. now apply Hf. }
  destruct (fires_send due w0 Hdue) as (Ha & Hi & Ht & Hn).
  assert ((due ++ later)%list = SearchLoop.timers w) as Hsplit
      by exact (sorted_split t _ Hs).
  split; [|split; [|split]].
  - unfold Notions.timers_ok. rewrite Ht, Hn. cbn [SearchLoop.timers SearchLoop.now w0].
    split; [now apply sorted_filter|].
    apply Forall_forall. intros x Hx. apply filter_In in Hx as [Hx _].
    rewrite Forall_forall in Hf. destruct (Hf x Hx). split; [unfold t; lia|assumption].
  - rewrite Ha, Ht. cbn [SearchLoop.timers w0]. unfold Notions.asked at 1.
    cbn [SearchLoop.inflight w0]. fold (Notions.asked w).
    rewrite <- app_assoc, <- map_app, Hsplit. reflexivity.
  - rewrite Hi, Ht. cbn [SearchLoop.timers SearchLoop.issued w0].
    rewrite <- Hsplit, length_app. lia.
  - rewrite Hn. reflexivity.
Qed.

(** A keystroke adds a timer and takes none back. *)
Lemma input_keeps (q : string) (w : SearchLoop.world) :
  Notions.whitespace_only q = false ->
  Notions.timers_ok w ->
  Notions.timers_ok (SearchLoop.handleSearchInputChange q w)
  /\ (Notions.asked (SearchLoop.handleSearchInputChange q w)
      ++ map snd (SearchLoop.timers (SearchLoop.handleSearchInputChange q w)))%list
     = ((Notions.asked w ++ map snd (SearchLoop.timers w)) ++ [q])%list
  /\ (SearchLoop.issued (SearchLoop.handleSearchInputChange q w)
      + List.length (SearchLoop.timers (SearchLoop.handleSearchInputChange q w)))%nat
     = S (SearchLoop.issued w + List.length (SearchLoop.timers w)).
Proof.
  intros Hq [Hs Hf]. unfold SearchLoop.handleSearchInputChange, Notions.timers_ok,
    Notions.asked.
  cbn [SearchLoop.timers SearchLoop.now SearchLoop.inflight SearchLoop.issued].
  split; [split|split].
  - clear Hq. induction Hs as [|x l Hs IH Hall]; cbn [app].
    + constructor; constructor.
    + inversion Hf as [|y l' [Hx _] Hrest]; subst.
      constructor; [now apply IH|].
      apply Forall_app. split; [exact Hall|]. constructor; [cbn; lia|constructor].
  - apply Forall_app. split; [exact Hf|]. constructor; [|constructor].
    cbn. split; [lia|exact Hq].
  - rewrite map_app, app_assoc. reflexivity.
  - rewrite length_app. cbn. lia.
Qed.

Lemma keystrokes_keep (keys : list (nat * string)) :
  forall w,
    Forall (fun k => Notions.whitespace_only (snd k) = false) keys ->
    Notions.timers_ok w ->
    let w' := fold_left SearchLoop.step (Notions.keystrokes keys) w in
    Notions.timers_ok w'
    /\ (Notions.asked w' ++ map snd (SearchLoop.timers w'))%list
       = ((Notions.asked w ++ map snd (SearchLoop.timers w)) ++ map snd keys)%list
    /\ (SearchLoop.issued w' + List.length (SearchLoop.timers w'))%nat
       = (SearchLoop.issued w + List.length (SearchLoop.timers w) + List.length keys)%nat.
Proof.
  induction keys as [|[gap q] keys IH]; intros w Hk Hw; cbv zeta.
  - cbn. rewrite app_nil_r, Nat.add_0_r. auto.
  - inversion Hk as [|x l Hq Hrest]; subst. cbn [snd] in Hq.
    cbn [Notions.keystrokes flat_map app fold_left fst snd SearchLoop.step].
    destruct (elapse_keeps gap w Hw) as (H1 & H2 & H3 & _).
    destruct (input_keeps q _ Hq H1) as (H4 & H5 & H6).
    destruct (IH _ Hrest H4) as (H7 & H8 & H9).
    fold (Notions.keystrokes keys).
    split; [exact H7|]. split.
    + rewrite H8, H5, H2. cbn [map snd]. rewrite <- !app_assoc. reflexivity.
    + rewrite H9, H6, H3. cbn [List.length]. lia.
Qed.

(** X17. No keystroke is debounced away. Whatever the pauses between
    them, once 300 ms have passed after the last one every query typed (each
    one not blank) has been sent to the geocoder, one request per keystroke
    and in the order typed, and no timer is left. *)
Theorem every_keystroke_is_searched (w : SearchLoop.world) (keys : list (nat * string)) :
  SearchLoop.timers w = [] ->
  Forall (fun k => Notions.whitespace_only (snd k) = false) keys ->
  let w' := fold_left SearchLoop.step
              (Notions.keystrokes keys ++ [SearchLoop.Elapse 300]) w in
  Notions.asked w' = (Notions.asked w ++ map snd keys)%list
  /\ SearchLoop.issued w' = (SearchLoop.issued w + List.length keys)%nat
  /\ SearchLoop.timers w' = [].
Proof.
  intros Hn Hk. cbv zeta. rewrite fold_left_app. cbn [fold_left SearchLoop.step].
  assert (Notions.timers_ok w) as Hw.
  { unfold Notions.timers_ok. rewrite Hn. split; constructor. }
  destruct (keystrokes_keep keys w Hk Hw) as (H1 & H2 & H3).
  set (w1 := fold_left SearchLoop.step (Notions.keystrokes keys) w) in *.
  destruct (elapse_keeps 300 w1 H1) as (_ & H4 & H5 & _).
  assert (SearchLoop.timers (SearchLoop.elapse 300 w1) = []) as Hnone.
  { unfold SearchLoop.elapse.
    destruct (fires_send
                (filter (fun x => Nat.leb (fst x) (SearchLoop.now w1 + 300))
                   (SearchLoop.timers w1))
                (SearchLoop.mk (SearchLoop.now w1 + 300) (SearchLoop.panel w1)
                   (filter (fun x => negb (Nat.leb (fst x) (SearchLoop.now w1 + 300)))
                      (SearchLoop.timers w1))
                   (SearchLoop.inflight w1) (SearchLoop.issued w1)
                   (SearchLoop.commits w1))) as (_ & _ & -> & _).
    - apply Forall_forall. intros x Hx. apply filter_In in Hx as [Hx _].
      destruct H1 as [_ Hf]. rewrite Forall_forall in Hf. now apply Hf.
    - cbn [SearchLoop.timers]. apply filter_none. intros x Hx.
      destruct H1 as [_ Hf]. rewrite Forall_forall in Hf. destruct (Hf x Hx) as [Hd _].
      apply negb_false_iff. now apply Nat.leb_le. }
  rewrite Hnone in H4, H5. cbn [map List.length] in H4, H5.
  rewrite app_nil_r in H4. rewrite Nat.add_0_r in H5.
  rewrite Hn in H2, H3. cbn [map List.length] in H2, H3.
  rewrite app_nil_r in H2. rewrite Nat.add_0_r in H3.
  split; [congruence|]. split; [lia|exact Hnone].
Qed.

Lemma every_keystroke_is_searched_witness :
  let w' := fold_left SearchLoop.step
              (Notions.keystrokes [(0, "C"); (100, "Ce"); (400, "Cen")]%nat
               ++ [SearchLoop.Elapse 300]) SearchLoop.initial in
  Notions.asked w' = ["C"; "Ce"; "Cen"]
  /\ SearchLoop.issued w' = 3%nat
  /\ SearchLoop.timers w' = [].
Proof.
  refine (every_keystroke_is_searched SearchLoop.initial
            [(0, "C"); (100, "Ce"); (400, "Cen")]%nat eq_refl _).
  repeat constructor.
Defined.

(* ================================================================== *)
(** * Chosen places and made-up addresses                               *)
(* ================================================================== *)

(** X18. The route is asked for between the places last chosen from the
    suggestions, whatever is typed into the two inputs afterwards: the inputs
    show the typed text while the request still carries the chosen places'
    coordinates, and a route that comes back has the chosen places as its
    ends. A prop that is [null] does not take a chosen place back either. *)
Theorem routes_run_between_the_chosen_places
  (p : DirectionsGuarded.panel)
  (from to : DirectionsGuarded.AutocompleteResult.t) (typed_from typed_to : string)
  (r : fetched) :
  let chosen (x : DirectionsGuarded.AutocompleteResult.t) :=
    Location.mk (DirectionsGuarded.AutocompleteResult.id x)
      (DirectionsGuarded.AutocompleteResult.name x)
      (DirectionsGuarded.AutocompleteResult.address x)
      (DirectionsGuarded.AutocompleteResult.coordinates x) in
  let p' :=
    DirectionsGuarded.destination_changed None
      (DirectionsGuarded.origin_changed None
         (fst (DirectionsGuarded.handleDestinationInputChange typed_to
                 (fst (DirectionsGuarded.handleOriginInputChange typed_from
                         (DirectionsGuarded.handleDestinationSelect to
                            (DirectionsGuarded.handleOriginSelect from p))))))) in
  sent (DirectionsGuarded.calculateRoute p')
  = Some (OsrmDriving (DirectionsGuarded.AutocompleteResult.coordinates from)
            (DirectionsGuarded.AutocompleteResult.coordinates to))
  /\ DirectionsGuarded.originInput p' = VString typed_from
  /\ DirectionsGuarded.destinationInput p' = VString typed_to
  /\ forall route,
       In route (snd (complete (DirectionsGuarded.calculateRoute p') r)) ->
       Route.origin route = chosen from /\ Route.destination route = chosen to.
Proof.
  cbv zeta. cbn [DirectionsGuarded.destination_changed DirectionsGuarded.origin_changed
                   DirectionsGuarded.handleDestinationInputChange
                   DirectionsGuarded.handleOriginInputChange
                   DirectionsGuarded.handleDestinationSelect
                   DirectionsGuarded.handleOriginSelect fst
                   DirectionsGuarded.originInput DirectionsGuarded.destinationInput
                   DirectionsGuarded.actualOrigin DirectionsGuarded.actualDestination
                   DirectionsGuarded.isCalculating DirectionsGuarded.routeError].
  unfold DirectionsGuarded.calculateRoute.
  cbn [DirectionsGuarded.actualOrigin DirectionsGuarded.actualDestination complete sent
         Location.coordinates].
  repeat split; auto.
  all: match type of H with
       | In _ (snd (match ?t with _ => _ end)) =>
           destruct t as [[route'|message]|e] eqn:E; cbn in H;
           try contradiction; destruct H as [<- | []]
       end.
  all: destruct (guarded_route_inv _ _ _ _ E) as (data & rd & _ & _ & Ht);
       destruct (to_route_inv _ _ _ _ Ht) as (ss & st & _ & _ & -> & _); reflexivity.
Qed.

Lemma click_without_a_name (lat lng : number) (r : fetched) (clock : N) :
  Notions.display_name r = None ->
  resolve (MapView.on_click lat lng) r clock
  = [Location.mk (VString (string_of_N clock)) (VString "Selected Location")
       (VString (format_pair lat lng)) (lng, lat)].
Proof.
  cbn [MapView.on_click resolve]. unfold MapView.try_click, Notions.display_name.
  destruct r as [| |data]; cbn [json_of bind]; try reflexivity.
  destruct (get "display_name" data) as [dn|e]; cbn [bind]; try reflexivity.
  destruct dn as [| |b|x|s|items|fields]; cbn [split_comma_first bind]; try reflexivity.
  destruct (String.eqb s "") eqn:Es; [|discriminate].
  apply String.eqb_eq in Es. subst s. reflexivity.
Qed.

(** X19. The address the Leaflet click handler makes up when the
    geocoder gives no name is the latitude, a comma and a blank, and the
    longitude, each with exactly six decimals, for every latitude and
    longitude that [toFixed] prints digit by digit (below 10^21). *)
Theorem made_up_address_has_six_decimals (lat lng : number) (r : fetched) (clock : N) :
  Notions.display_name r = None ->
  Notions.plain lat = true -> Notions.plain lng = true ->
  exists a b c d,
    resolve (MapView.on_click lat lng) r clock
    = [Location.mk (VString (string_of_N clock)) (VString "Selected Location")
         (VString ((a ++ "." ++ b) ++ ", " ++ (c ++ "." ++ d))) (lng, lat)]
    /\ String.length b = 6%nat /\ String.length d = 6%nat.
Proof.
  intros Hr Hlat Hlng. rewrite (click_without_a_name _ _ _ _ Hr).
  destruct (format_pair_decimals lat lng Hlat Hlng) as (a & b & c & d & -> & Hb & Hd).
  exists a, b, c, d. auto.
Qed.

Lemma made_up_address_has_six_decimals_witness :
  exists a b c d,
    resolve (MapView.on_click 40.71%float (-74)%float) Rejected 1700000000000%N
    = [Location.mk (VString "1700000000000") (VString "Selected Location")
         (VString ((a ++ "." ++ b) ++ ", " ++ (c ++ "." ++ d))) ((-74)%float, 40.71%float)]
    /\ String.length b = 6%nat /\ String.length d = 6%nat.
Proof.
  exact (made_up_address_has_six_decimals 40.71%float (-74)%float Rejected
           1700000000000%N eq_refl eq_refl eq_refl).
Defined.

(* ================================================================== *)
(** * The built-in route and the views without a second attempt         *)
(* ================================================================== *)

(** X20. The panel with the built-in route hands over, for any two end
    points and without a request, a route of three steps that is consistent
    in itself: the steps start at the origin and each starts where the one
    before ends, their distances add up to the route's 5200 m and their
    durations to its 780 s, which the panel prints as "5.2 km" and "13 min".
    The last step ends at the third point of the line, 0.01 degrees before
    the destination in both coordinates. With an end point missing nothing
    happens. *)
Theorem mock_route_adds_up (p : DirectionsMock.panel) (o d : Location.t) :
  let done := DirectionsMock.calculateRoute (Some o) (Some d) p in
  let route := DirectionsMock.mockRoute o d in
  snd done = [route]
  /\ DirectionsMock.isCalculating (fst done) = false
  /\ List.length (Route.steps route) = 3%nat
  /\ Notions.chained (Route.steps route)
  /\ (forall s, hd_error (Route.steps route) = Some s ->
                hd_error (RouteStep.coordinates s) = Some (point_of (Location.coordinates o))
                /\ hd_error (Route.geometry route)
                   = Some (point_of (Location.coordinates o)))
  /\ Notions.sum_of (map RouteStep.distance (Route.steps route))
     = ToNumber (Route.distance route)
  /\ Notions.sum_of (map RouteStep.duration (Route.steps route))
     = ToNumber (Route.duration route)
  /\ DirectionsFormat.formatDistance (Route.distance route) = Ok "5.2 km"
  /\ DirectionsFormat.formatDuration (Route.duration route) = Ok "13 min"
  /\ (forall s, nth_error (Route.steps route) 2 = Some s ->
                last (RouteStep.coordinates s) (VUndefined, VUndefined)
                = (VNumber (fst (Location.coordinates d) - 0.01)%float,
                   VNumber (snd (Location.coordinates d) - 0.01)%float)
                /\ nth_error (Route.geometry route) 2
                   = Some (VNumber (fst (Location.coordinates d) - 0.01)%float,
                           VNumber (snd (Location.coordinates d) - 0.01)%float)
                /\ nth_error (Route.geometry route) 3
                   = Some (point_of (Location.coordinates d)))
  /\ (forall origin destination,
        origin = None \/ destination = None ->
        DirectionsMock.calculateRoute origin destination p = (p, [])).
Proof.
  cbv zeta.
  split; [reflexivity|]. split; [reflexivity|]. split; [reflexivity|].
  split; [cbn; auto|].
  split; [intros s Hs; inversion Hs; subst; cbn; auto|].
  split; [vm_compute; reflexivity|]. split; [vm_compute; reflexivity|].
  split; [vm_compute; reflexivity|]. split; [vm_compute; reflexivity|].
  split; [intros s Hs; inversion Hs; subst; cbn; auto|].
  intros origin destination [-> | ->]; [reflexivity|]. now destruct origin.
Qed.

(** X21. When the geocoder cannot be reached, or answers with no JSON or
    with [null], a position the device found is lost in the first Leaflet
    view and in the Mapbox view: no location is passed on, and the first view
    leaves the map where it is. Only the latest Leaflet view passes the
    position on, under a made-up address, and centres the map on it. *)
Theorem fix_without_an_answer
  (longitude latitude : number) (v : MapView.refs) (token : string) (r : fetched) :
  r = Rejected \/ r = NotJson \/ r = Json VNull ->
  complete (MapView0.on_position longitude latitude v) r
  = (MapView.setIsLoadingLocation false v, [])
  /\ resolve (MapViewMapbox.on_position longitude latitude token) r = []
  /\ complete (MapView.on_position longitude latitude v) r
     = (MapView.setIsLoadingLocation false
          (MapView.on_map
             (Leaflet.setView (VNumber latitude, VNumber longitude) 15%float) v),
        [Location.mk (VString "current-location") (VString "Current Location")
           (VString (format_pair latitude longitude)) (longitude, latitude)]).
Proof.
  intros [-> | [-> | ->]]; repeat split.
Qed.

Lemma fix_without_an_answer_witness :
  complete (MapView0.on_position (-74)%float 40.7%float MapView.initial) Rejected
  = (MapView.initial, [])
  /\ resolve (MapViewMapbox.on_position (-74)%float 40.7%float "pk.token") Rejected = []
  /\ complete (MapView.on_position (-74)%float 40.7%float MapView.initial) Rejected
     = (MapView.initial, [Samples.here]).
Proof.
  destruct (fix_without_an_answer (-74)%float 40.7%float MapView.initial "pk.token"
              Rejected (or_introl eq_refl)) as (H1 & H2 & H3).
  split; [exact H1|]. split; [exact H2|].
  rewrite H3. vm_compute. reflexivity.
Defined.

(* ================================================================== *)
(** * The Mapbox view and its map                                       *)
(* ================================================================== *)

Lemma mapbox_step_keeps (v : MapViewMapbox.view) (e : MapViewMapbox.event) :
  MapViewMapbox.mapRef v = None ->
  MapViewMapbox.mapContainer v = negb (MapViewMapbox.isTokenDialogOpen v) ->
  MapViewMapbox.mapRef (MapViewMapbox.step v e) = None
  /\ MapViewMapbox.mapContainer (MapViewMapbox.step v e)
     = negb (MapViewMapbox.isTokenDialogOpen (MapViewMapbox.step v e))
  /\ forall token imported, snd (MapViewMapbox.handleTokenSubmit token imported v) = [].
Proof.
  intros Hm Hc. split; [|split].
  - destruct e as [token imported|location|location]; cbn [MapViewMapbox.step].
    + unfold MapViewMapbox.handleTokenSubmit, MapViewMapbox.initializeMap.
      destruct (MapViewMapbox.isTokenDialogOpen v) eqn:Ed; [|exact Hm].
      rewrite Hc. cbn. exact Hm.
    + unfold MapViewMapbox.effect_selectedLocation. now rewrite Hm.
    + unfold MapViewMapbox.effect_currentLocation. now rewrite Hm.
  - destruct e as [token imported|location|location]; cbn [MapViewMapbox.step].
    + unfold MapViewMapbox.handleTokenSubmit, MapViewMapbox.initializeMap.
      destruct (MapViewMapbox.isTokenDialogOpen v) eqn:Ed.
      * rewrite Hc. reflexivity.
      * cbn [fst]. now rewrite Ed.
    + unfold MapViewMapbox.effect_selectedLocation. now rewrite Hm.
    + unfold MapViewMapbox.effect_currentLocation. now rewrite Hm.
  - intros token imported.
    unfold MapViewMapbox.handleTokenSubmit, MapViewMapbox.initializeMap.
    destruct (MapViewMapbox.isTokenDialogOpen v) eqn:Ed; [|reflexivity].
    rewrite Hc. reflexivity.
Qed.

(** X22. The Mapbox view never makes its map. The only call of
    [initializeMap] is in the token dialog's submit handler, which runs while
    the dialog is what is rendered, so the container is not there and
    [initializeMap] returns at once; after it the dialog is closed for good.
    So whatever tokens are submitted and whatever locations are selected or
    found afterwards, [mapRef] stays empty, no marker is ever placed, and no
    error is reported either. *)
Theorem mapbox_map_is_never_made (events : list MapViewMapbox.event) :
  let v := MapViewMapbox.run events in
  MapViewMapbox.mapRef v = None
  /\ MapViewMapbox.mapContainer v = negb (MapViewMapbox.isTokenDialogOpen v)
  /\ (forall token imported,
        snd (MapViewMapbox.handleTokenSubmit token imported v) = []
        /\ MapViewMapbox.isTokenDialogOpen
             (fst (MapViewMapbox.handleTokenSubmit token imported v)) = false)
  /\ (forall location,
        MapViewMapbox.effect_selectedLocation (Some location) v = v
        /\ MapViewMapbox.effect_currentLocation (Some location) v = v).
Proof.
  cbv zeta. unfold MapViewMapbox.run.
  assert (forall v,
            MapViewMapbox.mapRef v = None ->
            MapViewMapbox.mapContainer v = negb (MapViewMapbox.isTokenDialogOpen v) ->
            MapViewMapbox.mapRef (fold_left MapViewMapbox.step events v) = None
            /\ MapViewMapbox.mapContainer (fold_left MapViewMapbox.step events v)
               = negb (MapViewMapbox.isTokenDialogOpen
                         (fold_left MapViewMapbox.step events v))) as H.
  { induction events as [|e events IH]; intros v Hm Hc; cbn [fold_left]; [auto|].
    destruct (mapbox_step_keeps v e Hm Hc) as (Hm' & Hc' & _). now apply IH. }
  destruct (H MapViewMapbox.initial eq_refl eq_refl) as [Hm Hc].
  set (v := fold_left MapViewMapbox.step events MapViewMapbox.initial) in *.
  split; [exact Hm|]. split; [exact Hc|]. split.
  - intros token imported. split.
    + exact (proj2 (proj2 (mapbox_step_keeps v (MapViewMapbox.TokenSubmit token imported)
                             Hm Hc)) token imported).
    + unfold MapViewMapbox.handleTokenSubmit, MapViewMapbox.initializeMap.
      destruct (MapViewMapbox.isTokenDialogOpen v) eqn:Ed; [|exact Ed].
      rewrite Hc. reflexivity.
  - intros location.
    unfold MapViewMapbox.effect_selectedLocation, MapViewMapbox.effect_currentLocation.
    now rewrite Hm.
Qed.
